(** * Chain-of-custody client: audit-trail reconstruction and ledger rendering

    A shallow embedding of the Python client
    [chain-of-custody/python_client/interactive_terminal_remote.py]
    (class [ChainOfCustodyClient]) and of the fetch layer it shares with
    [chain_of_custody_cli_wrapper.py], followed by the properties of the
    history classifier, the ledger merge, the display hash chain and the
    genesis-block resolver.

    Conventions of the embedding.
    - A Python [dict] read only through [d.get(k, default)] is a record whose
      fields are [option]s: [None] is the absent key, and an accessor named
      after the key applies the default the code passes to [get].
    - A Python exception is a value of [exn]; code that can raise returns a
      [result].  [try]/[except] is [try_except].
    - Strings are [string]; [s[:n]] is [slice_to n s].
    - The sort key [seconds + nanos / 1e9] is computed in IEEE-754 binary64,
      as Python does, through the executable specification [SpecFloat].
    - Functions of the Python library whose result depends on the platform
      (the JSON decoder, local-time formatting, [int] and [str] of a decoded
      value) are variables of the sections that use them. *)

From Stdlib Require Import ZArith List String Ascii Bool Lia Permutation Sorted.
From Stdlib Require Import RelationClasses.
From Stdlib Require Import Floats.SpecFloat.
Import ListNotations.

Local Open Scope string_scope.
Local Open Scope list_scope.

(* ===================================================================== *)
(** * Python runtime *)
(* ===================================================================== *)

Module Py.

(** The exception classes that the modelled code can meet. *)
Inductive exn : Type :=
| KeyError | IndexError | ValueError | TypeError | AttributeError
| OverflowError | OSError | JSONDecodeError | Base64Error.

Inductive result (A : Type) : Type :=
| Ok (a : A)
| Raise (e : exn).
Arguments Ok {A} a.
Arguments Raise {A} e.

Definition bind {A B : Type} (r : result A) (k : A -> result B) : result B :=
  match r with
  | Ok a => k a
  | Raise e => Raise e
  end.

(** [try: body except classes: handler]; an exception outside [classes]
    propagates. *)
Definition try_except {A : Type} (body : result A) (classes : exn -> bool)
    (handler : exn -> result A) : result A :=
  match body with
  | Ok a => Ok a
  | Raise e => if classes e then handler e else Raise e
  end.

Fixpoint mapM {A B : Type} (f : A -> result B) (l : list A) : result (list B) :=
  match l with
  | [] => Ok []
  | x :: l' =>
      bind (f x) (fun y => bind (mapM f l') (fun ys => Ok (y :: ys)))
  end.

(** [s[:n]] *)
Fixpoint slice_to (n : nat) (s : string) : string :=
  match n, s with
  | O, _ => EmptyString
  | S _, EmptyString => EmptyString
  | S n', String c s' => String c (slice_to n' s')
  end.

(** [c * n] for a one-character string [c] *)
Fixpoint repeat_char (c : ascii) (n : nat) : string :=
  match n with
  | O => EmptyString
  | S n' => String c (repeat_char c n')
  end.

(** [s.replace(a, b)] for single characters *)
Fixpoint replace_char (a b : ascii) (s : string) : string :=
  match s with
  | EmptyString => EmptyString
  | String c s' => String (if Ascii.eqb c a then b else c) (replace_char a b s')
  end.

(** [s.split(sep)[0]] for a single-character separator: the text before the
    first [sep], the whole text when there is none. *)
Fixpoint split_head (sep : ascii) (s : string) : string :=
  match s with
  | EmptyString => EmptyString
  | String c s' => if Ascii.eqb c sep then EmptyString else String c (split_head sep s')
  end.

(** [sep.join(l)] *)
Fixpoint join (sep : string) (l : list string) : string :=
  match l with
  | [] => EmptyString
  | [x] => x
  | x :: l' => x ++ sep ++ join sep l'
  end.

(** The characters of a string, each as a one-character string: what
    iterating over a [str] yields. *)
Fixpoint chars (s : string) : list string :=
  match s with
  | EmptyString => []
  | String c s' => String c EmptyString :: chars s'
  end.

(** [d.get(k, default)] on a field modelled as an [option]. *)
Definition get {A : Type} (field : option A) (default : A) : A :=
  match field with
  | Some v => v
  | None => default
  end.

End Py.

Import Py.

Notation "x <- c1 ;; c2" := (Py.bind c1 (fun x => c2))
  (at level 61, c1 at next level, right associativity).

(* ===================================================================== *)
(** * Data model *)
(* ===================================================================== *)

(** The [evidence] object of a history record.  Every field is read with
    [evidence.get(key, default)], so every field may be absent. *)
Record EvidenceSnapshot : Type := {
  id : option string;
  description : option string;
  owner : option string;
  location : option string;
  status : option string;
  tags : option (list string);
  created_at : option string;
  updated_at : option string
}.

(** The empty dict [{}], the default of [item.get('evidence', {})]. *)
Definition empty_evidence : EvidenceSnapshot :=
  {| id := None; description := None; owner := None; location := None;
     status := None; tags := None; created_at := None; updated_at := None |}.

(** The [timestamp] of a history record: a [{seconds, nanos}] dict, whose
    two keys are read with [get(key, 0)], or a string. *)
Inductive Timestamp : Type :=
| TsDict (seconds nanos : option Z)
| TsStr (s : string).

(** One record of [GetEvidenceHistory]. [isDelete] is read with
    [get('isDelete', False)]: the absent key is [false]. *)
Record HistoryEntry : Type := {
  txId : option string;
  timestamp : option Timestamp;
  isDelete : bool;
  evidence : option EvidenceSnapshot
}.

Inductive Action : Type := CREATED | UPDATED | TRANSFERRED | DELETED.

Definition action_label (a : Action) : string :=
  match a with
  | CREATED => "CREATED"
  | UPDATED => "UPDATED"
  | TRANSFERRED => "TRANSFERRED"
  | DELETED => "DELETED"
  end.

Definition Action_eq_dec (a b : Action) : {a = b} + {a <> b}.
Proof. decide equality. Defined.

(* ===================================================================== *)
(** * The fetch layer: [_run_peer_command] and [query_chaincode] *)
(* ===================================================================== *)

(** What [subprocess.run(args, capture_output=True, text=True, check=True)]
    does once the command has started: it returns the completed process
    (exit status 0) or raises [CalledProcessError], which carries the
    captured [stderr] and whose [str(e)] is the text [message].  A command
    that cannot be started at all (no such executable) is outside the
    model: [_run_peer_command] does not handle that error. *)
Inductive Process : Type :=
| Completed (stdout stderr : string)
| CalledProcessError (stderr message : string).

(** The dict returned by [_run_peer_command], one constructor per shape. *)
Inductive PeerResult (V : Type) : Type :=
| Parsed (data : V)              (* {"success": True, "data": json.loads(stdout)} *)
| RawData (data : string)        (* {"success": True, "data": stdout, "raw": True} *)
| Output (output error : string) (* {"success": True, "output": stdout, "error": stderr} *)
| Failure (error : string).      (* {"success": False, "error": ...} *)
Arguments Parsed {V} data.
Arguments RawData {V} data.
Arguments Output {V} output error.
Arguments Failure {V} error.

(** [result["success"]] *)
Definition success {V : Type} (r : PeerResult V) : bool :=
  match r with
  | Failure _ => false
  | _ => true
  end.

(** [result.get("raw")] as a truth value *)
Definition raw {V : Type} (r : PeerResult V) : bool :=
  match r with
  | RawData _ => true
  | _ => false
  end.

(** The value of [query_chaincode]: [None], the raw stdout text, or the
    decoded payload. *)
Inductive Answer (V : Type) : Type :=
| NoAnswer
| Text (s : string)
| Value (v : V).
Arguments NoAnswer {V}.
Arguments Text {V} s.
Arguments Value {V} v.

(** [result.get("data")] *)
Definition data_of {V : Type} (r : PeerResult V) : Answer V :=
  match r with
  | Parsed v => Value v
  | RawData s => Text s
  | Output _ _ => NoAnswer
  | Failure _ => NoAnswer
  end.

(** [needle in hay] *)
Fixpoint contains (needle hay : string) : bool :=
  if String.prefix needle hay then true
  else match hay with
       | EmptyString => false
       | String _ hay' => contains needle hay'
       end.

(** [x or y] on strings *)
Definition str_or (x y : string) : string :=
  match x with
  | EmptyString => y
  | _ => x
  end.

(** Truth value of a string *)
Definition truthy (s : string) : bool :=
  match s with
  | EmptyString => false
  | _ => true
  end.

Section FetchLayer.

(** The payload type and [json.loads] on it; [None] is [JSONDecodeError]. *)
Variable V : Type.
Variable json_loads : string -> option V.

(** interactive_terminal_remote.py, lines 92-107 *)
Definition _run_peer_command (run : Process) (parse_json : bool) : PeerResult V :=
  match run with
  | Completed stdout stderr =>
      if parse_json && truthy stdout then
        match json_loads stdout with
        | Some v => Parsed v
        | None => RawData stdout
        end
      else Output stdout stderr
  | CalledProcessError stderr message =>
      let err_msg := str_or stderr message in
      if contains "access denied" err_msg
      then Failure "ACCESS DENIED: User does not have permission."
      else Failure err_msg
  end.

(** interactive_terminal_remote.py, lines 122-129; the gateway's run of
    the [peer chaincode query] command is the argument. *)
Definition query_chaincode (run : Process) : Answer V :=
  let result := _run_peer_command run true in
  if success result then data_of result else NoAnswer.

(** chain_of_custody_cli_wrapper.py, lines 45-66 *)
Definition wrapper_run_peer_command (run : Process) (parse_json : bool) : PeerResult V :=
  match run with
  | Completed stdout stderr =>
      if parse_json && truthy stdout then
        match json_loads stdout with
        | Some v => Parsed v
        | None => RawData stdout
        end
      else Output stdout stderr
  | CalledProcessError stderr message => Failure (str_or stderr message)
  end.

End FetchLayer.

Arguments _run_peer_command {V} json_loads run parse_json.
Arguments query_chaincode {V} json_loads run.
Arguments wrapper_run_peer_command {V} json_loads run parse_json.

(* ===================================================================== *)
(** * Action classification *)
(* ===================================================================== *)

(** [item.get('evidence', {})] *)
Definition get_evidence (item : HistoryEntry) : EvidenceSnapshot :=
  get (evidence item) empty_evidence.

(** [enumerate(l)] *)
Definition enumerate {A : Type} (l : list A) : list (nat * A) :=
  combine (seq 0 (List.length l)) l.

(** The action chosen in the loop of [get_history] (lines 291-313) for the
    record [item] at index [i] of [data]. *)
Definition history_action (data : list HistoryEntry) (i : nat)
    (item : HistoryEntry) : Action :=
  let evidence := get_evidence item in
  if isDelete item then DELETED
  else
    let created := get (created_at evidence) "" in
    let updated := get (updated_at evidence) "" in
    if String.eqb created updated then CREATED
    else
      let current_owner := get (owner evidence) "" in
      let prev_owner :=
        (* if i + 1 < len(data): data[i + 1].get('evidence', {}).get('owner', '') *)
        match nth_error data (i + 1) with
        | Some older => Some (get (owner (get_evidence older)) "")
        | None => None
        end in
      match prev_owner with
      | Some po => if negb (String.eqb current_owner po) then TRANSFERRED else UPDATED
      | None => UPDATED
      end.

(** A history record after the ledger view has added its two keys
    [asset_id] and [prev_owner] to it (lines 384-389). *)
Record Tx : Type := {
  record : HistoryEntry;
  asset_id : string;
  prev_owner : option string
}.

(** The body of the loop over one asset's history (lines 383-390), which
    walks the history in the order the gateway delivered it. *)
Definition annotate (ev_id : string) (history : list HistoryEntry) : list Tx :=
  map (fun ir : nat * HistoryEntry =>
         let (idx, rec) := ir in
         {| record := rec;
            asset_id := ev_id;
            prev_owner :=
              match nth_error history (idx + 1) with
              | Some older => Some (get (owner (get_evidence older)) "")
              | None => None
              end |})
      (enumerate history).

(** The action chosen in the rendering loop of [view_blockchain_ledger]
    (lines 443-457). *)
Definition tx_action (tx : Tx) : Action :=
  let evidence := get_evidence (record tx) in
  if isDelete (record tx) then DELETED
  else
    let created := get (created_at evidence) "" in
    let updated := get (updated_at evidence) "" in
    if String.eqb created updated then CREATED
    else
      let current_owner := get (owner evidence) "" in
      match prev_owner tx with
      | Some po => if negb (String.eqb current_owner po) then TRANSFERRED else UPDATED
      | None => UPDATED
      end.

(** The owner and the dates of a record: those of its snapshot, read with
    the defaults of the code, the empty string when the snapshot or the
    field is absent. *)
Definition snapshot_owner (e : HistoryEntry) : string := get (owner (get_evidence e)) "".
Definition snapshot_created_at (e : HistoryEntry) : string := get (created_at (get_evidence e)) "".
Definition snapshot_updated_at (e : HistoryEntry) : string := get (updated_at (get_evidence e)) "".

(** [entry.snapshot.owner != previousForSameAsset.snapshot.owner], for a
    predecessor that exists. *)
Definition owner_changed (entry : HistoryEntry) (previousForSameAsset : option HistoryEntry)
    : bool :=
  match previousForSameAsset with
  | Some p => negb (String.eqb (snapshot_owner entry) (snapshot_owner p))
  | None => false
  end.

(** The classifier in the words of the specification, its four rules in
    their order:
    1. if [entry.isDelete], [DELETED];
    2. else if [created_at == updated_at], [CREATED];
    3. else if the predecessor exists and the owners differ, [TRANSFERRED];
    4. else [UPDATED]. *)
Definition classify (entry : HistoryEntry) (previousForSameAsset : option HistoryEntry) : Action :=
  if isDelete entry then DELETED
  else if String.eqb (snapshot_created_at entry) (snapshot_updated_at entry) then CREATED
  else if owner_changed entry previousForSameAsset then TRANSFERRED
  else UPDATED.

(* ===================================================================== *)
(** * Python floats *)
(* ===================================================================== *)

Module Float64.

(** IEEE-754 binary64 *)
Definition prec : Z := 53.
Definition emax : Z := 1024.

(** The conversion of an [int] operand of a float operation.  It rounds to
    nearest, ties to even, and raises [OverflowError] ("int too large to
    convert to float") when the rounded value is not finite. *)
Definition of_int (z : Z) : result spec_float :=
  match binary_normalize prec emax z 0 false with
  | S754_infinity _ => Raise OverflowError
  | f => Ok f
  end.

Definition add : spec_float -> spec_float -> spec_float := SFadd prec emax.
Definition div : spec_float -> spec_float -> spec_float := SFdiv prec emax.

(** The literal [1e9] *)
Definition billion : spec_float :=
  Eval vm_compute in binary_normalize prec emax 1000000000 0 false.

(** [x < y] *)
Definition ltb : spec_float -> spec_float -> bool := SFltb.

End Float64.

(* ===================================================================== *)
(** * The ledger merge: sort keys and [list.sort] *)
(* ===================================================================== *)

(** The values [get_sort_key] returns: a float for a [{seconds, nanos}]
    timestamp, a string otherwise. *)
Inductive SortKey : Type :=
| KFloat (f : spec_float)
| KStr (s : string).

(** [get_sort_key] (lines 393-397).  [tx.get('timestamp')] is [None] for an
    absent key, and [ts or ""] is then the empty string. *)
Definition get_sort_key (tx : Tx) : result SortKey :=
  match timestamp (record tx) with
  | Some (TsDict seconds nanos) =>
      n <- Float64.of_int (get nanos 0%Z) ;;
      let fraction := Float64.div n Float64.billion in
      s <- Float64.of_int (get seconds 0%Z) ;;
      Ok (KFloat (Float64.add s fraction))
  | Some (TsStr ts) => Ok (KStr (str_or ts ""))
  | None => Ok (KStr "")
  end.

(** [a < b] on keys: floats with floats, strings with strings; Python raises
    [TypeError] for a float against a string. *)
Definition key_lt (a b : SortKey) : result bool :=
  match a, b with
  | KFloat x, KFloat y => Ok (Float64.ltb x y)
  | KStr s, KStr t => Ok (String.ltb s t)
  | _, _ => Raise TypeError
  end.

Section ListSort.

Variable A : Type.

(** [list.sort(key=...)] is a stable sort that compares keys with [<]
    only.  It is modelled by the stable insertion sort on the list
    decorated with its keys: an element moves to the right past the
    elements whose key is strictly smaller, and stays to the left of the
    elements with an equal key that followed it in the input. *)
Fixpoint insert (x : SortKey * A) (l : list (SortKey * A)) : result (list (SortKey * A)) :=
  match l with
  | [] => Ok [x]
  | y :: l' =>
      smaller <- key_lt (fst y) (fst x) ;;
      if smaller : bool then (r <- insert x l' ;; Ok (y :: r))
      else Ok (x :: y :: l')
  end.

Fixpoint stable_sort (l : list (SortKey * A)) : result (list (SortKey * A)) :=
  match l with
  | [] => Ok []
  | x :: l' => s <- stable_sort l' ;; insert x s
  end.

(** The keys are computed for every element first; an exception of the
    key function or of a comparison leaves the sort. *)
Definition list_sort (key : A -> result SortKey) (l : list A) : result (list A) :=
  keys <- mapM key l ;;
  sorted <- stable_sort (combine keys l) ;;
  Ok (map snd sorted).

End ListSort.

Arguments insert {A} x l.
Arguments stable_sort {A} l.
Arguments list_sort {A} key l.

(* ===================================================================== *)
(** * The ledger merge: collecting the histories *)
(* ===================================================================== *)

Section Merge.

(** [json.loads] on the stdout of a history query. *)
Variable loads_history : string -> option (list HistoryEntry).

(** The ledger gateway: the run of [peer chaincode query] for a chaincode
    function and its arguments. *)
Variable gateway : string -> list string -> Process.

(** What [for ev_id in all_evidence_ids] iterates over (line 378): the
    elements of a decoded list, the characters of a raw text. *)
Definition ids_of (all_evidence_ids : Answer (list string)) : list string :=
  match all_evidence_ids with
  | NoAnswer => []
  | Text s => chars s
  | Value ids => ids
  end.

(** One turn of the loop over the asset ids (lines 378-390).  A raw text
    as history is truthy, and [record['asset_id'] = ev_id] on its first
    character raises [TypeError]. *)
Definition history_txs (ev_id : string) : result (list Tx) :=
  if negb (truthy ev_id) then Ok []
  else
    match query_chaincode loads_history (gateway "GetEvidenceHistory" [ev_id]) with
    | NoAnswer => Ok []
    | Text s => if truthy s then Raise TypeError else Ok []
    | Value history => Ok (annotate ev_id history)
    end.

(** [all_txs] after the loop (lines 375-390). *)
Definition collect (ids : list string) : result (list Tx) :=
  per_asset <- mapM history_txs ids ;;
  Ok (List.concat per_asset).

(** [all_txs] after [all_txs.sort(key=get_sort_key)] (line 399). *)
Definition merge (ids : list string) : result (list Tx) :=
  all_txs <- collect ids ;;
  list_sort get_sort_key all_txs.

End Merge.

(* ===================================================================== *)
(** * The genesis anchor: [get_genesis_block] *)
(* ===================================================================== *)

(** A decoded JSON document.  Numbers are the integers; the members of an
    object are listed in order and looked up by key. *)
#[warnings="-register-all"]
Inductive json : Type :=
| JNull
| JBool (b : bool)
| JNum (z : Z)
| JStr (s : string)
| JArr (items : list json)
| JObj (members : list (string * json)).

Fixpoint lookup (k : string) (members : list (string * json)) : option json :=
  match members with
  | [] => None
  | (k', v) :: rest => if String.eqb k k' then Some v else lookup k rest
  end.

(** [v[k]] for a string key [k] *)
Definition subscript (v : json) (k : string) : result json :=
  match v with
  | JObj members =>
      match lookup k members with
      | Some x => Ok x
      | None => Raise KeyError
      end
  | _ => Raise TypeError
  end.

(** [v[0]] *)
Definition subscript0 (v : json) : result json :=
  match v with
  | JArr (x :: _) => Ok x
  | JArr [] => Raise IndexError
  | JStr (String c _) => Ok (JStr (String c EmptyString))
  | JStr EmptyString => Raise IndexError
  | JObj _ => Raise KeyError
  | _ => Raise TypeError
  end.

(** [v.get(k, default)]: only a dict has the method. *)
Definition dict_get (v : json) (k : string) (default : json) : result json :=
  match v with
  | JObj members => Ok (get (lookup k members) default)
  | _ => Raise AttributeError
  end.

(** [binascii.hexlify(bytes).decode('utf-8')]; a byte string is a [string]. *)
Definition hex_digit (n : N) : ascii :=
  match n with
  | 0%N => "0" | 1%N => "1" | 2%N => "2" | 3%N => "3" | 4%N => "4"
  | 5%N => "5" | 6%N => "6" | 7%N => "7" | 8%N => "8" | 9%N => "9"
  | 10%N => "a" | 11%N => "b" | 12%N => "c" | 13%N => "d" | 14%N => "e"
  | _ => "f"
  end%char.

Fixpoint hexlify (bytes : string) : string :=
  match bytes with
  | EmptyString => EmptyString
  | String c rest =>
      let n := N_of_ascii c in
      String (hex_digit (N.div n 16)) (String (hex_digit (N.modulo n 16)) (hexlify rest))
  end.

(** The dict that [get_genesis_block] returns.  The hash is the hexadecimal
    text, or whatever [header.get('data_hash', '')] holds when it cannot be
    decoded. *)
Record Anchor : Type := {
  anchor_timestamp : string;
  anchor_hash : json
}.

(** The two temporary files, [genesis.block] and [genesis.json] of the
    working directory: [None] when the file does not exist, its content
    otherwise. *)
Record FileSystem : Type := {
  block_file : option string;
  json_file : option string
}.

(** [if os.path.exists(path): os.remove(path)] *)
Definition remove_block (fs : FileSystem) : FileSystem :=
  {| block_file := None; json_file := json_file fs |}.
Definition remove_json (fs : FileSystem) : FileSystem :=
  {| block_file := block_file fs; json_file := None |}.

(** The effect of a tool that writes (or does not write) its output file. *)
Definition write_block (content : option string) (fs : FileSystem) : FileSystem :=
  match content with
  | Some c => {| block_file := Some c; json_file := json_file fs |}
  | None => fs
  end.
Definition write_json (content : option string) (fs : FileSystem) : FileSystem :=
  match content with
  | Some c => {| block_file := block_file fs; json_file := Some c |}
  | None => fs
  end.

(** The two external tools of one resolution: how [peer channel fetch]
    ended and the block file it left, whether the [configtxlator] binary
    exists, how [configtxlator proto_decode] ended and the JSON file it
    left. *)
Record Tools : Type := {
  fetch_run : Process;
  fetch_output : option string;
  configtxlator_exists : bool;
  decode_run : Process;
  decode_output : option string
}.

(** The value of the four early [return]s and of the two outer handlers. *)
Definition failed (diagnostic : string) : Anchor :=
  {| anchor_timestamp := diagnostic; anchor_hash := JStr "N/A" |}.

Section Genesis.

(** [json.load] on the text of the decoded block; it raises
    [JSONDecodeError] on a text that is not JSON. *)
Variable json_load : string -> result json.
(** [datetime.datetime.fromtimestamp(seconds).strftime('%Y-%m-%d %H:%M:%S')] *)
Variable strftime_local : Z -> result string.
(** [int(s)] and [str(v)] for a string [s] and a value [v] that is not a
    string. *)
Variable int_of_str : string -> result Z.
Variable str_of : json -> string.
(** [base64.b64decode(s)] for a string [s] *)
Variable b64decode : string -> result string.

(** [int(v)] *)
Definition py_int (v : json) : result Z :=
  match v with
  | JNum z => Ok z
  | JBool b => Ok (if b then 1 else 0)%Z
  | JStr s => int_of_str s
  | _ => Raise TypeError
  end.

(** [str(v)] *)
Definition py_str (v : json) : string :=
  match v with
  | JStr s => s
  | _ => str_of v
  end.

(** Lines 192-203: the timestamp of the first envelope. *)
Definition extract_timestamp (block_data : json) : result string :=
  try_except
    (d <- subscript block_data "data" ;;
     dd <- subscript d "data" ;;
     env <- subscript0 dd ;;
     payload <- subscript env "payload" ;;
     header <- subscript payload "header" ;;
     channel_header <- subscript header "channel_header" ;;
     ts_raw <- subscript channel_header "timestamp" ;;
     match ts_raw with
     | JObj _ =>
         s <- dict_get ts_raw "seconds" (JNum 0) ;;
         seconds <- py_int s ;;
         strftime_local seconds
     | _ => Ok (split_head "." (replace_char "T" " " (py_str ts_raw)))
     end)
    (fun e => match e with
              | KeyError | IndexError | ValueError => true
              | _ => false
              end)
    (fun _ => Ok "Unknown Format").

(** Lines 205-213: the data hash of the header; the bare [except] keeps
    the undecoded value. *)
Definition extract_hash (block_data : json) : result json :=
  header <- dict_get block_data "header" (JObj []) ;;
  data_hash_b64 <- dict_get header "data_hash" (JStr "") ;;
  let decoded :=
    match data_hash_b64 with
    | JStr s => b64decode s
    | _ => Raise TypeError
    end in
  match decoded with
  | Ok bytes => Ok (JStr (hexlify bytes))
  | Raise _ => Ok data_hash_b64
  end.

(** Lines 190-218, after the file has been read and removed. *)
Definition extract (block_data : json) : result Anchor :=
  timestamp <- extract_timestamp block_data ;;
  data_hash_hex <- extract_hash block_data ;;
  Ok {| anchor_timestamp := timestamp; anchor_hash := data_hash_hex |}.

(** [get_genesis_block] (lines 131-226), threading the two files. *)
Definition get_genesis_block (tools : Tools) (fs : FileSystem) : Anchor * FileSystem :=
  let fs := remove_json (remove_block fs) in
  (* 1. fetch block 0; the result of the command is not looked at *)
  let fs := write_block (fetch_output tools) fs in
  match block_file fs with
  | None => (failed "Fetch Failed", fs)
  | Some _ =>
      if negb (configtxlator_exists tools) then (failed "Tool Missing", fs)
      else
        (* 2. decode with configtxlator *)
        (* parse_json is False: the decoder passed here is never called *)
        let result := _run_peer_command (fun _ : string => @None json) (decode_run tools) false in
        let fs := write_json (decode_output tools) fs in
        let fs := remove_block fs in
        if negb (success result) then (failed "Decode Failed", remove_json fs)
        else
          match json_file fs with
          | None => (failed "No Output", fs)
          | Some text =>
              match json_load text with
              | Raise JSONDecodeError => (failed "Parse Error", remove_json fs)
              | Raise _ => (failed "Error", remove_json fs)
              | Ok block_data =>
                  let fs := remove_json fs in
                  match extract block_data with
                  | Ok anchor => (anchor, fs)
                  | Raise _ => (failed "Error", remove_json fs)
                  end
              end
          end
  end.

End Genesis.

(* ===================================================================== *)
(** * The two views: [get_history] and [view_blockchain_ledger] *)
(* ===================================================================== *)

(** [s if len(s) <= 50 else s[:47] + "..."] *)
Definition shorten (s : string) : string :=
  if (50 <? String.length s)%nat then slice_to 47 s ++ "..." else s.

(** The fields printed below the separator of a block (lines 322-338 and
    472-484); the ledger view prints no tags. *)
Record Details : Type := {
  d_owner : string;
  d_description : string;
  d_location : string;
  d_status : string;
  d_tags : option string
}.

(** One printed block of [get_history]: the values of the local variables
    [action], [formatted_time] and [tx_id]; the identifier is printed as
    [tx_id[:52]]. *)
Record HistoryBlock : Type := {
  h_action : Action;
  h_formatted_time : string;
  h_tx_id : string;
  h_details : option Details
}.

Inductive HistoryView : Type :=
| NoHistory                                   (* "No history found or error." *)
| History (blocks : list HistoryBlock) (total_records : nat).

(** One printed block of [view_blockchain_ledger]: the values of the local
    variables when the block is printed.  [tx_id], [prev_hash] and
    [asset_id] are printed cut to 52 characters. *)
Record Block : Type := {
  b_action : Action;
  b_formatted_time : string;
  b_tx_id : string;
  b_prev_hash : string;
  b_asset_id : string;
  b_details : option Details
}.

(** The four 52-character columns of the head of a printed block:
    timestamp, TX ID, Prev Hash, Evidence ID. *)
Definition printed_tx_id (b : Block) : string := slice_to 52 (b_tx_id b).
Definition printed_prev_hash (b : Block) : string := slice_to 52 (b_prev_hash b).
Definition printed_asset_id (b : Block) : string := slice_to 52 (b_asset_id b).

(** The printed genesis block (lines 415-422). *)
Record GenesisBox : Type := {
  g_timestamp : string;
  g_data_hash : string;     (* genesis_hash[:52] *)
  g_prev_hash : string      (* '0' * 52 *)
}.

Inductive LedgerView : Type :=
| NoEvidence                                  (* "No evidence found on the ledger." *)
| NoTransactions                              (* "No transactions found." *)
| Ledger (found_transactions found_assets : nat) (genesis : GenesisBox)
         (blocks : list Block) (total_transactions : nat).

(** Truth value of the answer of a query that returns a list. *)
Definition answer_truthy {V : Type} (a : Answer (list V)) : bool :=
  match a with
  | NoAnswer => false
  | Text s => truthy s
  | Value [] => false
  | Value (_ :: _) => true
  end.

(** [len(all_evidence_ids)] *)
Definition answer_len {V : Type} (a : Answer (list V)) : nat :=
  match a with
  | NoAnswer => 0
  | Text s => String.length s
  | Value l => List.length l
  end.

Section Views.

Variable loads_ids : string -> option (list string).
Variable loads_history : string -> option (list HistoryEntry).
Variable gateway : string -> list string -> Process.
Variable json_load : string -> result json.
Variable strftime_local : Z -> result string.
Variable int_of_str : string -> result Z.
Variable str_of : json -> string.
Variable b64decode : string -> result string.
Variable tools : Tools.

(** Lines 283-289 and 430-436; [absent] is the value of [ts_raw] when the
    record has no timestamp. *)
Definition format_time (ts_raw : option Timestamp) (absent : Timestamp) : result string :=
  match get ts_raw absent with
  | TsDict seconds _ => strftime_local (get seconds 0%Z)
  | TsStr s => Ok s
  end.

(** One turn of the loop of [get_history] (lines 277-340). *)
Definition history_block (data : list HistoryEntry) (i : nat) (item : HistoryEntry)
    : result HistoryBlock :=
  let evidence := get_evidence item in
  let tx_id := get (txId item) "N/A" in
  formatted_time <- format_time (timestamp item) (TsDict None None) ;;
  let action := history_action data i item in
  let details :=
    if negb (isDelete item) then
      let tags := get (tags evidence) [] in
      let tags_str := match tags with [] => "None" | _ => join ", " tags end in
      Some {| d_owner := get (owner evidence) "N/A";
              d_description := shorten (get (description evidence) "N/A");
              d_location := shorten (get (location evidence) "N/A");
              d_status := get (status evidence) "N/A";
              d_tags := Some (shorten tags_str) |}
    else None in
  Ok {| h_action := action; h_formatted_time := formatted_time;
        h_tx_id := tx_id; h_details := details |}.

(** [get_history] (lines 264-349), from the answer of the query for the
    identifier that was typed in. *)
Definition get_history (data : Answer (list HistoryEntry)) : result HistoryView :=
  match data with
  | Value (first :: rest) =>
      let data := first :: rest in
      blocks <- mapM (fun ii => history_block data (fst ii) (snd ii)) (enumerate data) ;;
      Ok (History blocks (List.length data))
  | _ => Ok NoHistory
  end.

(** The rendering loop (lines 424-489); [prev_hash] is the loop variable. *)
Fixpoint render (prev_hash : string) (all_txs : list Tx) : result (list Block) :=
  match all_txs with
  | [] => Ok []
  | tx :: rest =>
      let tx_id := get (txId (record tx)) "N/A" in
      formatted_time <- format_time (timestamp (record tx)) (TsStr "N/A") ;;
      let evidence := get_evidence (record tx) in
      let action := tx_action tx in
      let details :=
        if negb (isDelete (record tx)) then
          Some {| d_owner := get (owner evidence) "N/A";
                  d_description := shorten (get (description evidence) "N/A");
                  d_location := shorten (get (location evidence) "N/A");
                  d_status := get (status evidence) "N/A";
                  d_tags := None |}
        else None in
      let block := {| b_action := action; b_formatted_time := formatted_time;
                      b_tx_id := tx_id; b_prev_hash := prev_hash;
                      b_asset_id := asset_id tx; b_details := details |} in
      blocks <- render tx_id rest ;;
      Ok (block :: blocks)
  end.

(** The hash the chain starts from (lines 409-413). *)
Definition genesis_hash_of (genesis_info : Anchor) : json :=
  match anchor_hash genesis_info with
  | JStr h => if String.eqb h "N/A" then JStr (repeat_char "0" 56) else JStr h
  | h => h
  end.

(** [view_blockchain_ledger] (lines 363-493).  Formatting a hash that is
    not a string with [genesis_hash[:52]:<52] raises. *)
Definition view_blockchain_ledger (fs : FileSystem) : result LedgerView * FileSystem :=
  let all_evidence_ids := query_chaincode loads_ids (gateway "GetAllEvidenceIDs" []) in
  if negb (answer_truthy all_evidence_ids) then (Ok NoEvidence, fs)
  else
    match merge loads_history gateway (ids_of all_evidence_ids) with
    | Raise e => (Raise e, fs)
    | Ok [] => (Ok NoTransactions, fs)
    | Ok all_txs =>
        let (genesis_info, fs) :=
          get_genesis_block json_load strftime_local int_of_str str_of b64decode tools fs in
        match genesis_hash_of genesis_info with
        | JStr genesis_hash =>
            let box := {| g_timestamp := anchor_timestamp genesis_info;
                          g_data_hash := slice_to 52 genesis_hash;
                          g_prev_hash := repeat_char "0" 52 |} in
            match render genesis_hash all_txs with
            | Ok blocks =>
                (Ok (Ledger (List.length all_txs) (answer_len all_evidence_ids)
                            box blocks (List.length all_txs)), fs)
            | Raise e => (Raise e, fs)
            end
        | _ => (Raise TypeError, fs)
        end
    end.

End Views.

(* ===================================================================== *)
(** * Vocabulary of the statements *)
(* ===================================================================== *)

(** The record that [annotate] leaves at an index: the record of the
    history with the asset id and the owner of the next (older) record. *)
Definition annotated (ev_id : string) (history : list HistoryEntry) (i : nat)
    (e : HistoryEntry) : Tx :=
  {| record := e;
     asset_id := ev_id;
     prev_owner := option_map snapshot_owner (nth_error history (i + 1)) |}.

(** [tx.get('txId', 'N/A')] *)
Definition tx_id_of (tx : Tx) : string := get (txId (record tx)) "N/A".

(** A converted [int] is a zero or a finite number. *)
Definition is_number (f : spec_float) : Prop :=
  match f with
  | S754_zero _ | S754_finite _ _ _ => True
  | _ => False
  end.

(** The keys that the sort compares: a float key is a number (never a NaN). *)
Definition valid_key (k : SortKey) : Prop :=
  match k with
  | KFloat f => f <> S754_nan
  | KStr _ => True
  end.

(** [a <= b] on keys, as the sort sees it: [b < a] is evaluated and false. *)
Definition key_le (a b : SortKey) : Prop := key_lt b a = Ok false.

(** Two keys are tied when neither is smaller than the other. *)
Definition key_tied (a b : SortKey) : bool :=
  match key_lt a b, key_lt b a with
  | Ok false, Ok false => true
  | _, _ => false
  end.

(** Both keys are floats, or both are strings. *)
Definition same_kind (a b : SortKey) : bool :=
  match a, b with
  | KFloat _, KFloat _ => true
  | KStr _, KStr _ => true
  | _, _ => false
  end.

(** The order of elements decorated with their keys, on keys that are
    valid. *)
Definition keyed_le {A : Type} (a b : SortKey * A) : Prop :=
  valid_key (fst a) /\ valid_key (fst b) /\ key_le (fst a) (fst b).

Definition valid_keys {A : Type} (l : list (SortKey * A)) : Prop :=
  Forall (fun p => valid_key (fst p)) l.

(** The element's key is tied with [k]. *)
Definition tied_with {A : Type} (key : A -> result SortKey) (k : SortKey) (x : A) : bool :=
  match key x with
  | Ok k' => key_tied k k'
  | Raise _ => false
  end.

(** The decorated list pairs every element with its key. *)
Definition decorated {A : Type} (key : A -> result SortKey) (l : list (SortKey * A)) : Prop :=
  Forall (fun p => key (snd p) = Ok (fst p)) l.

(** The timestamp of the record can be formatted (lines 430-436). *)
Definition formats (strftime_local : Z -> result string) (tx : Tx) : Prop :=
  exists s, format_time strftime_local (timestamp (record tx)) (TsStr "N/A") = Ok s.

(** The texts that the failure paths of [get_genesis_block] return as
    timestamp. *)
Definition diagnostics : list string :=
  ["Fetch Failed"; "Tool Missing"; "Decode Failed"; "No Output"; "Parse Error"; "Error"].

(** The ways a resolution fails before it has an anchor: the fetch leaves no
    block file, the decode tool is missing, the decode command fails or
    leaves no JSON file, the JSON file cannot be loaded, or the extraction
    raises an exception that it does not handle itself. *)
Definition resolution_fails (json_load : string -> result json)
    (strftime_local : Z -> result string) (int_of_str : string -> result Z)
    (str_of : json -> string) (b64decode : string -> result string)
    (tools : Tools) : Prop :=
  fetch_output tools = None
  \/ configtxlator_exists tools = false
  \/ (exists stderr message, decode_run tools = CalledProcessError stderr message)
  \/ decode_output tools = None
  \/ (exists text e, decode_output tools = Some text /\ json_load text = Raise e)
  \/ (exists text block_data e,
        decode_output tools = Some text /\ json_load text = Ok block_data /\
        extract strftime_local int_of_str str_of b64decode block_data = Raise e).

(* ===================================================================== *)
(** * Concrete runs *)
(* ===================================================================== *)

(** In a concrete run a function of the Python library is given by its
    graph on the arguments the run applies it to; on any other argument the
    table versions fail the way the library function fails on a malformed
    argument. *)
Fixpoint table_find {V : Type} (table : list (string * V)) (text : string) : option V :=
  match table with
  | [] => None
  | (t, v) :: rest => if String.eqb text t then Some v else table_find rest text
  end.

Definition loads_with {V : Type} (table : list (string * V)) : string -> option V :=
  table_find table.

Definition load_with (table : list (string * json)) (text : string) : result json :=
  match table_find table text with
  | Some v => Ok v
  | None => Raise JSONDecodeError
  end.

Definition b64decode_with (table : list (string * string)) (s : string) : result string :=
  match table_find table s with
  | Some bytes => Ok bytes
  | None => Raise Base64Error
  end.

Definition int_with (table : list (string * Z)) (s : string) : result Z :=
  match table_find table s with
  | Some z => Ok z
  | None => Raise ValueError
  end.

Fixpoint strftime_with (table : list (Z * string)) (seconds : Z) : result string :=
  match table with
  | [] => Raise OverflowError
  | (z, s) :: rest => if Z.eqb seconds z then Ok s else strftime_with rest seconds
  end.

(** [str] of a value that is not a string; no run applies it. *)
Definition str_unused (v : json) : string := EmptyString.

(** A gateway given by the run of the id query and the runs of the history
    queries, by asset id; the query for any other asset fails. *)
Definition gateway_of (ids : Process) (histories : list (string * Process))
    (function : string) (args : list string) : Process :=
  if String.eqb function "GetAllEvidenceIDs" then ids
  else
    match args with
    | [ev_id] =>
        get (table_find histories ev_id)
            (CalledProcessError "Error: endorsement failure" "exit status 1")
    | _ => CalledProcessError "Error: wrong number of arguments" "exit status 1"
    end.

Definition no_files : FileSystem := {| block_file := None; json_file := None |}.

(** ** The scenario of the specification: asset A is created at t=10, asset
    B at t=15, and A is transferred at t=20.  The texts on stdout stand for
    the JSON documents that the tables decode them to. *)
Definition snapshot (asset owner_name created updated : string) : EvidenceSnapshot :=
  {| id := Some asset; description := Some "exhibit"; owner := Some owner_name;
     location := Some "locker 1"; status := Some "COLLECTED"; tags := Some ["sealed"];
     created_at := Some created; updated_at := Some updated |}.

Definition at_seconds (tx : string) (seconds : Z) (ev : EvidenceSnapshot) : HistoryEntry :=
  {| txId := Some tx; timestamp := Some (TsDict (Some seconds) (Some 0%Z));
     isDelete := false; evidence := Some ev |}.

Definition a_created : HistoryEntry := at_seconds "tx-a1" 10 (snapshot "A" "alice" "t10" "t10").
Definition a_transferred : HistoryEntry := at_seconds "tx-a2" 20 (snapshot "A" "bob" "t10" "t20").
Definition b_created : HistoryEntry := at_seconds "tx-b1" 15 (snapshot "B" "carol" "t15" "t15").

Definition scenario_ids : string -> option (list string) :=
  loads_with [("ids", ["A"; "B"])].
Definition scenario_histories : string -> option (list HistoryEntry) :=
  loads_with [("history of A", [a_transferred; a_created]); ("history of B", [b_created]);
              ("empty", [])].
Definition scenario_gateway : string -> list string -> Process :=
  gateway_of (Completed "ids" "")
    [("A", Completed "history of A" ""); ("B", Completed "history of B" "")].
Definition scenario_strftime : Z -> result string :=
  strftime_with [(10%Z, "1970-01-01 00:00:10"); (15%Z, "1970-01-01 00:00:15");
                 (20%Z, "1970-01-01 00:00:20")].

(** The decoded genesis block of the scenario, and the tools that produce
    it. *)
Definition genesis_document : json :=
  JObj [("header", JObj [("data_hash", JStr "QUJD")]);
        ("data", JObj [("data", JArr [JObj [("payload", JObj [("header", JObj
           [("channel_header", JObj [("timestamp", JStr "2024-05-01T10:00:00.123Z")])])])]])])].

Definition working_tools : Tools :=
  {| fetch_run := Completed "" "Received block: 0";
     fetch_output := Some "block 0";
     configtxlator_exists := true;
     decode_run := Completed "" "";
     decode_output := Some "genesis" |}.

Definition scenario_load : string -> result json := load_with [("genesis", genesis_document)].
Definition scenario_b64decode : string -> result string := b64decode_with [("QUJD", "ABC"); ("", "")].
Definition scenario_int : string -> result Z := int_with [].

Definition scenario_view (tools : Tools) : result LedgerView * FileSystem :=
  view_blockchain_ledger scenario_ids scenario_histories scenario_gateway scenario_load
    scenario_strftime scenario_int str_unused scenario_b64decode tools no_files.

(** ** Ties: two assets listed as [b], [a] whose records carry one and the
    same timestamp; asset [a] has two records, delivered newest first. *)
Definition at_text (tx ts : string) (ev : EvidenceSnapshot) : HistoryEntry :=
  {| txId := Some tx; timestamp := Some (TsStr ts); isDelete := false; evidence := Some ev |}.

Definition tie_b1 : HistoryEntry := at_text "tx-b1" "2024-01-01T00:00:00Z" (snapshot "b" "bob" "c" "c").
Definition tie_a1 : HistoryEntry := at_text "tx-a1" "2024-01-01T00:00:00Z" (snapshot "a" "ann" "c" "c").
Definition tie_a2 : HistoryEntry := at_text "tx-a2" "2024-01-01T00:00:00Z" (snapshot "a" "ann" "c" "u").

Definition tie_histories : string -> option (list HistoryEntry) :=
  loads_with [("history of a", [tie_a2; tie_a1]); ("history of b", [tie_b1])].
Definition tie_gateway : string -> list string -> Process :=
  gateway_of (Completed "ids" "")
    [("a", Completed "history of a" ""); ("b", Completed "history of b" "")].

(** ** A failed history query: the gateway of the scenario, except that the
    query for asset A fails, or returns the empty list. *)
Definition gateway_a_fails : string -> list string -> Process :=
  gateway_of (Completed "ids" "")
    [("A", CalledProcessError "Error: endorsement failure" "exit status 1");
     ("B", Completed "history of B" "")].
Definition gateway_a_empty : string -> list string -> Process :=
  gateway_of (Completed "ids" "")
    [("A", Completed "empty" ""); ("B", Completed "history of B" "")].

(** ** Genesis resolutions that go wrong *)
Definition fetch_fails : Tools :=
  {| fetch_run := CalledProcessError "Error: failed to create deliver client" "exit status 1";
     fetch_output := None;
     configtxlator_exists := true;
     decode_run := Completed "" "";
     decode_output := None |}.

Definition tool_missing : Tools :=
  {| fetch_run := Completed "" "Received block: 0";
     fetch_output := Some "block 0";
     configtxlator_exists := false;
     decode_run := Completed "" "";
     decode_output := None |}.

(** A decoded block without the [data] section: the timestamp cannot be
    extracted, the header still has its hash. *)
Definition document_without_data : json :=
  JObj [("header", JObj [("data_hash", JStr "QUJD")])].
Definition load_without_data : string -> result json :=
  load_with [("genesis", document_without_data)].

(** ** A record written after a delete *)
Definition deleted_record : HistoryEntry :=
  {| txId := Some "tx-d"; timestamp := Some (TsStr "2024-01-02T00:00:00Z");
     isDelete := true; evidence := None |}.
Definition updated_after_delete : HistoryEntry :=
  at_text "tx-u" "2024-01-03T00:00:00Z" (snapshot "A" "dave" "2024-01-01" "2024-01-03").

(** The ledger that the scenario renders. *)
Definition scenario_details (owner_name : string) : option Details :=
  Some {| d_owner := owner_name; d_description := "exhibit"; d_location := "locker 1";
          d_status := "COLLECTED"; d_tags := None |}.

Definition scenario_blocks : list Block :=
  [{| b_action := CREATED; b_formatted_time := "1970-01-01 00:00:10";
      b_tx_id := "tx-a1"; b_prev_hash := "414243"; b_asset_id := "A";
      b_details := scenario_details "alice" |};
   {| b_action := CREATED; b_formatted_time := "1970-01-01 00:00:15";
      b_tx_id := "tx-b1"; b_prev_hash := "tx-a1"; b_asset_id := "B";
      b_details := scenario_details "carol" |};
   {| b_action := TRANSFERRED; b_formatted_time := "1970-01-01 00:00:20";
      b_tx_id := "tx-a2"; b_prev_hash := "tx-b1"; b_asset_id := "A";
      b_details := scenario_details "bob" |}].

Definition scenario_box : GenesisBox :=
  {| g_timestamp := "2024-05-01 10:00:00"; g_data_hash := "414243";
     g_prev_hash := repeat_char "0" 52 |}.

(** ** Two records of one second, one and two nanoseconds into it *)
Definition at_nanos (tx : string) (nanos : Z) : Tx :=
  {| record := {| txId := Some tx;
                  timestamp := Some (TsDict (Some 1700000000%Z) (Some nanos));
                  isDelete := false; evidence := None |};
     asset_id := "A";
     prev_owner := None |}.

(* ===================================================================== *)
(** * The rest of the client: prompts, directories and the wrapper queries *)
(* ===================================================================== *)

(** ** String methods, on ASCII text *)

(** [c.isspace()] for an ASCII character: tab to carriage return, the four
    separators 28-31 and the space. *)
Definition is_space (c : ascii) : bool :=
  let n := nat_of_ascii c in
  ((9 <=? n) && (n <=? 13) || (28 <=? n) && (n <=? 32))%nat.

(** [s.lstrip()], [s.rstrip()] and [s.strip()] *)
Fixpoint lstrip (s : string) : string :=
  match s with
  | EmptyString => EmptyString
  | String c s' => if is_space c then lstrip s' else s
  end.

Fixpoint rstrip (s : string) : string :=
  match s with
  | EmptyString => EmptyString
  | String c s' =>
      match rstrip s' with
      | EmptyString => if is_space c then EmptyString else String c EmptyString
      | r => String c r
      end
  end.

Definition strip (s : string) : string := rstrip (lstrip s).

(** [s.split(sep)] for a one-character separator: the pieces between the
    separators, at least one piece. *)
Fixpoint str_split (sep : ascii) (s : string) : list string :=
  match s with
  | EmptyString => [EmptyString]
  | String c s' =>
      if Ascii.eqb c sep then EmptyString :: str_split sep s'
      else match str_split sep s' with
           | w :: ws => String c w :: ws
           | [] => [String c EmptyString]
           end
  end.

(** [s.lower()] *)
Definition lower_char (c : ascii) : ascii :=
  let n := nat_of_ascii c in
  if ((65 <=? n) && (n <=? 90))%nat then ascii_of_nat (n + 32) else c.

Fixpoint lower (s : string) : string :=
  match s with
  | EmptyString => EmptyString
  | String c s' => String (lower_char c) (lower s')
  end.

(** [c in s] for a character *)
Fixpoint occurs (c : ascii) (s : string) : bool :=
  match s with
  | EmptyString => false
  | String c' s' => Ascii.eqb c' c || occurs c s'
  end.

(** [sorted(l)] on strings: stable, by [<]. *)
Fixpoint insort (x : string) (l : list string) : list string :=
  match l with
  | [] => [x]
  | y :: l' => if String.ltb y x then y :: insort x l' else x :: y :: l'
  end.

Definition py_sorted (l : list string) : list string := fold_right insort [] l.

(** ** The organisation and user directories (lines 21-49) *)

(** What the two functions see of a directory: [None] when the path does
    not exist, else the names [os.listdir] returns, in its order, each with
    the answer of [os.path.isdir]. *)
Definition Listing : Type := option (list (string * bool)).

(** [d[k] = v] on a dict, as the list of its items in insertion order: a
    key that is present keeps its place. *)
Fixpoint dict_set (k v : string) (d : list (string * string)) : list (string * string) :=
  match d with
  | [] => [(k, v)]
  | (k', v') :: d' =>
      if String.eqb k k' then (k, v) :: d' else (k', v') :: dict_set k v d'
  end.

(** [get_available_orgs] (lines 21-34) *)
Definition get_available_orgs (orgs_path : Listing) : list (string * string) :=
  match orgs_path with
  | None => []
  | Some items =>
      fold_left
        (fun found_orgs item =>
           if snd item : bool
           then dict_set (split_head "." (fst item)) (fst item) found_orgs
           else found_orgs)
        items []
  end.

(** [get_available_users] (lines 36-49) *)
Definition get_available_users (users_path : Listing) : list string :=
  match users_path with
  | None => []
  | Some items =>
      py_sorted (map (fun item => split_head "@" (fst item))
                     (filter (fun item => snd item) items))
  end.

(** ** The numbered menus of [main] (lines 517-527 and 542-551) *)

(** One turn of a selection loop, for the line typed at the prompt:
    [Ok (Some x)] leaves the loop with [x], [Ok None] prints a message and
    prompts again.  [int_of_str] is [int] on a string, [None] for
    [ValueError]. *)
Definition choose {A : Type} (int_of_str : string -> option Z) (items : list A)
    (line : string) : result (option A) :=
  let choice := strip line in
  match int_of_str choice with
  | None => Ok None
  | Some n =>
      let idx := (n - 1)%Z in
      if ((0 <=? idx) && (idx <? Z.of_nat (List.length items)))%Z then
        match nth_error items (Z.to_nat idx) with
        | Some x => Ok (Some x)
        | None => Raise IndexError
        end
      else Ok None
  end.

(** The first loop of [main] (lines 509-527), for one line typed: the
    short name chosen among the keys of the dict, in their order, and
    [available_orgs[selected_org_name]]. *)
Definition select_org (int_of_str : string -> option Z) (orgs_path : Listing)
    (line : string) : result (option (string * string)) :=
  let available_orgs := get_available_orgs orgs_path in
  let org_list := map fst available_orgs in
  selected <- choose int_of_str org_list line ;;
  match selected with
  | Some selected_org_name =>
      match table_find available_orgs selected_org_name with
      | Some selected_org_domain => Ok (Some (selected_org_name, selected_org_domain))
      | None => Raise KeyError
      end
  | None => Ok None
  end.

(** ** Transactions typed at the prompts *)

(** What a menu entry does: the chaincode functions it invokes, with their
    arguments, and the lines it prints. *)
Record Outcome : Type := {
  invoked : list (string * list string);
  printed : list string
}.

(** [result['error']] *)
Definition error_of {V : Type} (r : PeerResult V) : string :=
  match r with
  | Failure e => e
  | Output _ e => e
  | _ => EmptyString
  end.

(** [invoke_transaction] (lines 109-120): the run of [peer chaincode invoke]
    for the function and its arguments, read without decoding. *)
Definition invoke_transaction (submit : string -> list string -> Process)
    (function_name : string) (args_list : list string) : PeerResult unit :=
  _run_peer_command (fun _ : string => @None unit) (submit function_name args_list) false.

(** [delete_evidence] (lines 357-361), for the two lines typed: the
    identifier and the answer to the confirmation. *)
Definition delete_evidence (submit : string -> list string -> Process)
    (id_line confirm_line : string) : Outcome :=
  let ev_id := strip id_line in
  if String.eqb (lower confirm_line) "y" then
    let result := invoke_transaction submit "DeleteEvidence" [ev_id] in
    {| invoked := [("DeleteEvidence", [ev_id])];
       printed := [if success result then "Deleted."
                   else ("Failed: " ++ error_of result)%string] |}
  else {| invoked := []; printed := [] |}.

(** The tags of [create_evidence] (lines 235-236), from the line typed. *)
Definition tags_of (line : string) : list string :=
  let tags_input := strip line in
  map strip (filter (fun t => truthy (strip t)) (str_split "," tags_input)).

(** A tag as [tags_of] returns them: not empty, no comma, no space at
    either end. *)
Definition clean_tag (t : string) : Prop :=
  t <> EmptyString /\ strip t = t /\ occurs "," t = false.

(** ** The queries of the wrapper client (chain_of_custody_cli_wrapper.py) *)

(** [result["data"]]: [KeyError] when the dict has no such key. *)
Definition data_item {V : Type} (r : PeerResult V) : result (Answer V) :=
  match r with
  | Parsed v => Ok (Value v)
  | RawData s => Ok (Text s)
  | _ => Raise KeyError
  end.

(** [read_evidence] (lines 98-118) *)
Definition read_evidence {V : Type} (json_loads : string -> option V) (run : Process)
    : result (Answer V) :=
  let result := wrapper_run_peer_command json_loads run true in
  if success result then data_item result else Ok NoAnswer.

(** [get_all_evidence] (lines 172-193): [result["data"] or []].  The payload
    is typed: the stdout decodes to a list, so that [len(evidence_list)] of
    line 189 has a value, as it has for a raw text.  A payload without a
    length (a number, [true]), on which [len] raises [TypeError], is not a
    value of the type. *)
Definition get_all_evidence {V : Type} (json_loads : string -> option (list V))
    (run : Process) : result (Answer (list V)) :=
  let result := wrapper_run_peer_command json_loads run true in
  if success result then
    d <- data_item result ;;
    Ok (if answer_truthy d then d else Value [])
  else Ok (Value []).

(** [get_evidence_history] (lines 195-222) *)
Definition get_evidence_history {V : Type} (json_loads : string -> option (list V))
    (run : Process) : result (list V) :=
  let result := wrapper_run_peer_command json_loads run true in
  if success result then
    if raw result then Ok []
    else
      d <- data_item result ;;
      Ok (match d with
          | Value history => history
          | _ => []
          end)
  else Ok [].

(** ** Vocabulary of the further statements *)

(** The value that the timestamp is read from (lines 193-194). *)
Definition channel_timestamp (block_data : json) : result json :=
  d <- subscript block_data "data" ;;
  dd <- subscript d "data" ;;
  env <- subscript0 dd ;;
  payload <- subscript env "payload" ;;
  header <- subscript payload "header" ;;
  channel_header <- subscript header "channel_header" ;;
  subscript channel_header "timestamp".

(** The exceptions that the extraction of the timestamp handles itself. *)
Definition handled (e : exn) : bool :=
  match e with
  | KeyError | IndexError | ValueError => true
  | _ => false
  end.

(** [isinstance(v, dict)] *)
Definition is_dict (v : json) : bool :=
  match v with
  | JObj _ => true
  | _ => false
  end.

(** The block is a dict, and so is its header when it has one: the two
    values that [extract_hash] calls [get] on. *)
Definition header_is_dict (block_data : json) : bool :=
  match block_data with
  | JObj members => is_dict (get (lookup "header" members) (JObj []))
  | _ => false
  end.

(** The asset contributes no record to the ledger: its id is empty, or its
    history query fails, prints nothing, or prints the empty list. *)
Definition no_history (loads_history : string -> option (list HistoryEntry))
    (gateway : string -> list string -> Process) (ev_id : string) : Prop :=
  ev_id = EmptyString
  \/ (exists stderr message,
        gateway "GetEvidenceHistory" [ev_id] = CalledProcessError stderr message)
  \/ (exists stderr, gateway "GetEvidenceHistory" [ev_id] = Completed EmptyString stderr)
  \/ (exists stdout stderr,
        gateway "GetEvidenceHistory" [ev_id] = Completed stdout stderr /\
        loads_history stdout = Some []).

(** The details that the ledger view prints for a record: none for a
    delete. *)
Definition ledger_details (tx : Tx) : option Details :=
  if isDelete (record tx) then None
  else
    let evidence := get_evidence (record tx) in
    Some {| d_owner := get (owner evidence) "N/A";
            d_description := shorten (get (description evidence) "N/A");
            d_location := shorten (get (location evidence) "N/A");
            d_status := get (status evidence) "N/A";
            d_tags := None |}.

(** The characters of [binascii.hexlify]. *)
Definition is_hex_digit (c : ascii) : bool := occurs c "0123456789abcdef".

Fixpoint all_chars (p : ascii -> bool) (s : string) : bool :=
  match s with
  | EmptyString => true
  | String c s' => p c && all_chars p s'
  end.

(** The value is Python's [None]: the query gave no data, or the stdout was
    the JSON text [null], which [json.loads] decodes to [None]; [is_null]
    tells which payloads are that value. *)
Definition is_none {V : Type} (is_null : V -> bool) (a : Answer V) : bool :=
  match a with
  | NoAnswer => true
  | Text _ => false
  | Value v => is_null v
  end.

(** The instant of a [{seconds, nanos}] timestamp, in nanoseconds: seconds
    plus nanoseconds, exactly. *)
Definition instant (tx : Tx) : option Z :=
  match timestamp (record tx) with
  | Some (TsDict seconds nanos) => Some (get seconds 0 * 1000000000 + get nanos 0)%Z
  | _ => None
  end.

(** "Non-decreasing by timestamp (using seconds plus nanoseconds for struct
    timestamps)", in the words of the specification: no record is followed,
    anywhere later, by a record of an earlier instant. *)
Definition non_decreasing_by_timestamp (merged : list Tx) : Prop :=
  forall i j a b x y,
    i < j -> nth_error merged i = Some a -> nth_error merged j = Some b ->
    instant a = Some x -> instant b = Some y -> (x <= y)%Z.

(** [float(z)]: the conversion of an [int] to binary64, to nearest. *)
Definition to_float (z : Z) : spec_float :=
  binary_normalize Float64.prec Float64.emax z 0 false.

(** The seconds of a [{seconds, nanos}] timestamp of whole seconds (no
    nanoseconds, or zero), and the text of a text timestamp. *)
Definition whole_seconds (tx : Tx) : option Z :=
  match timestamp (record tx) with
  | Some (TsDict seconds nanos) =>
      if Z.eqb (get nanos 0%Z) 0 then Some (get seconds 0%Z) else None
  | _ => None
  end.

Definition text_timestamp (tx : Tx) : option string :=
  match timestamp (record tx) with
  | Some (TsStr s) => Some s
  | _ => None
  end.

(** ** The genesis resolution when a command cannot be started *)

(** Whether the operating system can start the two commands.  For a
    command that cannot be started (no such executable, no permission to
    execute it) [subprocess.run] raises [OSError]; [_run_peer_command]
    handles [CalledProcessError] only, so the exception leaves
    [get_genesis_block], at line 150 for [peer] and at line 169 for
    [configtxlator]. *)
Record Launch : Type := {
  peer_starts : bool;
  configtxlator_starts : bool
}.

Section GenesisLaunch.

Variable json_load : string -> result json.
Variable strftime_local : Z -> result string.
Variable int_of_str : string -> result Z.
Variable str_of : json -> string.
Variable b64decode : string -> result string.

(** [get_genesis_block] (lines 131-226) with the two launches: the anchor
    it returns or the exception it raises, and the two files afterwards. *)
Definition get_genesis_block_launch (launch : Launch) (tools : Tools) (fs : FileSystem)
    : result Anchor * FileSystem :=
  let fs := remove_json (remove_block fs) in
  (* 1. fetch block 0 *)
  if negb (peer_starts launch) then (Raise OSError, fs)
  else
    let fs := write_block (fetch_output tools) fs in
    match block_file fs with
    | None => (Ok (failed "Fetch Failed"), fs)
    | Some _ =>
        if negb (configtxlator_exists tools) then (Ok (failed "Tool Missing"), fs)
        else if negb (configtxlator_starts launch) then (Raise OSError, fs)
        else
          (* 2. decode with configtxlator *)
          let result :=
            _run_peer_command (fun _ : string => @None json) (decode_run tools) false in
          let fs := write_json (decode_output tools) fs in
          let fs := remove_block fs in
          if negb (success result) then (Ok (failed "Decode Failed"), remove_json fs)
          else
            match json_file fs with
            | None => (Ok (failed "No Output"), fs)
            | Some text =>
                match json_load text with
                | Raise JSONDecodeError => (Ok (failed "Parse Error"), remove_json fs)
                | Raise _ => (Ok (failed "Error"), remove_json fs)
                | Ok block_data =>
                    let fs := remove_json fs in
                    match extract strftime_local int_of_str str_of b64decode block_data with
                    | Ok anchor => (Ok anchor, fs)
                    | Raise _ => (Ok (failed "Error"), remove_json fs)
                    end
                end
            end
    end.

End GenesisLaunch.

(** The two commands start. *)
Definition all_start : Launch := {| peer_starts := true; configtxlator_starts := true |}.

(** ** Further concrete runs *)

(** A ledger whose two assets carry timestamps of the two kinds. *)
Definition mixed_histories : string -> option (list HistoryEntry) :=
  loads_with [("history of A", [a_created]); ("history of b", [tie_b1])].
Definition mixed_ids : string -> option (list string) := loads_with [("ids", ["A"; "b"])].
Definition mixed_gateway : string -> list string -> Process :=
  gateway_of (Completed "ids" "")
    [("A", Completed "history of A" ""); ("b", Completed "history of b" "")].

(** A ledger whose asset A answers the history query with a text that is
    not JSON. *)
Definition raw_gateway : string -> list string -> Process :=
  gateway_of (Completed "ids" "")
    [("A", Completed "peer: history unavailable" ""); ("B", Completed "history of B" "")].

(** A ledger without any transaction: A fails, B has an empty history. *)
Definition idle_gateway : string -> list string -> Process :=
  gateway_of (Completed "ids" "")
    [("A", CalledProcessError "Error: endorsement failure" "exit status 1");
     ("B", Completed "empty" "")].

(** A history with a delete and a record whose description is longer than
    a line of the display, and what the two views print for it. *)
Definition described_record : HistoryEntry :=
  at_text "tx-l" "2024-01-01T00:00:00Z"
    {| id := Some "A";
       description := Some "one sealed envelope with a handwritten note, found under the seat";
       owner := Some "alice"; location := Some "locker 1"; status := Some "COLLECTED";
       tags := Some ["sealed"; "paper"]; created_at := Some "c"; updated_at := Some "c" |}.
Definition display_history : list HistoryEntry := [deleted_record; described_record].
Definition display_txs : list Tx := annotate "A" display_history.
Definition display_blocks : list Block :=
  Eval vm_compute in
    match render scenario_strftime "00" display_txs with
    | Ok blocks => blocks
    | Raise _ => []
    end.
Definition display_history_blocks : list HistoryBlock :=
  Eval vm_compute in
    match get_history scenario_strftime (Value display_history) with
    | Ok (History blocks _) => blocks
    | _ => []
    end.

(** The records and the sort keys of the ledger with timestamps of the two
    kinds. *)
Definition mixed_txs : list Tx := annotate "A" [a_created] ++ annotate "b" [tie_b1].
Definition mixed_keys : list SortKey :=
  Eval vm_compute in
    match mapM get_sort_key mixed_txs with
    | Ok keys => keys
    | Raise _ => []
    end.

(** The gateway of the scenario, except that the id query prints the two
    letters AB, which is not JSON; and a decoder that knows no id list. *)
Definition letters_gateway : string -> list string -> Process :=
  gateway_of (Completed "AB" "")
    [("A", Completed "history of A" ""); ("B", Completed "history of B" "")].
Definition no_ids : string -> option (list string) := loads_with [].

(** A ledger with one asset whose two records, delivered newest first, lie
    one and two nanoseconds into one second. *)
Definition nanos_history : list HistoryEntry :=
  [record (at_nanos "tx-2" 2); record (at_nanos "tx-1" 1)].
Definition nanos_histories : string -> option (list HistoryEntry) :=
  loads_with [("history of A", nanos_history)].
Definition nanos_gateway : string -> list string -> Process :=
  gateway_of (Completed "ids" "") [("A", Completed "history of A" "")].

(** A decoded block whose header is a number. *)
Definition document_with_bad_header : json := JObj [("header", JNum 5)].
Definition load_with_bad_header : string -> result json :=
  load_with [("genesis", document_with_bad_header)].

(** The decode tool exists and cannot be executed. *)
Definition decode_not_executable : Launch :=
  {| peer_starts := true; configtxlator_starts := false |}.

(** A decoder of decimal numerals for the menus. *)
Definition menu_int : string -> option Z :=
  loads_with [("0", 0%Z); ("1", 1%Z); ("2", 2%Z); ("3", 3%Z); ("-1", (-1)%Z)].

(** A gateway that accepts every transaction. *)
Definition accepting (function_name : string) (args : list string) : Process :=
  Completed "" "Chaincode invoke successful. result: status:200".

(* ===================================================================== *)
(** * Properties of the classifier *)
(* ===================================================================== *)

Lemma nth_error_enumerate_from {A : Type} (l : list A) (start i : nat) :
  nth_error (combine (seq start (List.length l)) l) i
  = option_map (fun x => (start + i, x)) (nth_error l i).
Proof.
  revert start i.
  induction l as [|x l IH]; intros start i; simpl.
  - destruct i; reflexivity.
  - destruct i as [|i]; simpl.
    + now rewrite Nat.add_0_r.
    + rewrite IH. now rewrite Nat.add_succ_r.
Qed.

Lemma nth_error_enumerate {A : Type} (l : list A) (i : nat) :
  nth_error (enumerate l) i = option_map (fun x => (i, x)) (nth_error l i).
Proof. unfold enumerate. now rewrite nth_error_enumerate_from. Qed.

Lemma nth_error_annotate (ev_id : string) (history : list HistoryEntry) (i : nat) :
  nth_error (annotate ev_id history) i
  = option_map (annotated ev_id history i) (nth_error history i).
Proof.
  unfold annotate. rewrite nth_error_map, nth_error_enumerate.
  destruct (nth_error history i) as [e|]; simpl; [|reflexivity].
  unfold annotated, snapshot_owner.
  now destruct (nth_error history (i + 1)).
Qed.

Lemma length_annotate (ev_id : string) (history : list HistoryEntry) :
  List.length (annotate ev_id history) = List.length history.
Proof.
  unfold annotate, enumerate.
  now rewrite length_map, length_combine, length_seq, Nat.min_id.
Qed.

(** The ledger classifier on an annotated record is the specified rule on
    the record and its predecessor. *)
Lemma tx_action_annotated (ev_id : string) (history : list HistoryEntry) (i : nat)
    (e : HistoryEntry) :
  tx_action (annotated ev_id history i e) = classify e (nth_error history (i + 1)).
Proof.
  unfold tx_action, classify, annotated, snapshot_created_at, snapshot_updated_at,
    snapshot_owner; simpl.
  destruct (isDelete e); [reflexivity|].
  destruct (String.eqb _ _); [reflexivity|].
  unfold owner_changed, snapshot_owner.
  now destruct (nth_error history (i + 1)) as [p|].
Qed.

(** So is the classifier of the single-asset view. *)
Lemma history_action_classify (data : list HistoryEntry) (i : nat) (e : HistoryEntry) :
  history_action data i e = classify e (nth_error data (i + 1)).
Proof.
  unfold history_action, classify, snapshot_created_at, snapshot_updated_at,
    snapshot_owner; simpl.
  destruct (isDelete e); [reflexivity|].
  destruct (String.eqb _ _); [reflexivity|].
  unfold owner_changed, snapshot_owner.
  now destruct (nth_error data (i + 1)) as [p|].
Qed.

(** The four rules of the specified classifier, in their order. *)
Lemma classify_rules (e : HistoryEntry) (p : option HistoryEntry) :
  (isDelete e = true -> classify e p = DELETED) /\
  (isDelete e = false -> snapshot_created_at e = snapshot_updated_at e ->
   classify e p = CREATED) /\
  (isDelete e = false -> snapshot_created_at e <> snapshot_updated_at e ->
   forall q, p = Some q -> snapshot_owner e <> snapshot_owner q ->
   classify e p = TRANSFERRED) /\
  (isDelete e = false -> snapshot_created_at e <> snapshot_updated_at e ->
   (p = None \/ exists q, p = Some q /\ snapshot_owner e = snapshot_owner q) ->
   classify e p = UPDATED).
Proof.
  unfold classify, owner_changed. repeat split.
  - now intros ->.
  - intros -> Heq. apply String.eqb_eq in Heq. now rewrite Heq.
  - intros -> Hne q -> Hown.
    apply String.eqb_neq in Hne, Hown. now rewrite Hne, Hown.
  - intros -> Hne [-> | (q & -> & Hown)]; apply String.eqb_neq in Hne; rewrite Hne.
    + reflexivity.
    + apply String.eqb_eq in Hown. now rewrite Hown.
Qed.

(* ===================================================================== *)
(** * Properties of floats and of sort keys *)
(* ===================================================================== *)

Ltac compare_cases :=
  repeat match goal with
  | |- context [Z.compare ?x ?y] => destruct (Z.compare_spec x y)
  | |- context [Pos.compare ?x ?y] => destruct (Pos.compare_spec x y)
  | |- context [Pos.compare_cont Eq ?x ?y] =>
      change (Pos.compare_cont Eq x y) with (Pos.compare x y);
      destruct (Pos.compare_spec x y)
  end; simpl; try congruence; try lia.

Lemma SFltb_asym (a b : spec_float) : SFltb a b = true -> SFltb b a = false.
Proof.
  unfold SFltb, SFcompare.
  destruct a as [sa|sa| |sa ma ea], b as [sb|sb| |sb mb eb];
    try destruct sa; try destruct sb; simpl; try congruence.
  all: compare_cases.
Qed.

(** On floats that are numbers, "not smaller" is transitive. *)
Lemma SFltb_false_trans (a b c : spec_float) :
  b <> S754_nan ->
  SFltb b a = false -> SFltb c b = false -> SFltb c a = false.
Proof.
  unfold SFltb, SFcompare.
  destruct a as [sa|sa| |sa ma ea], b as [sb|sb| |sb mb eb], c as [sc|sc| |sc mc ec];
    try destruct sa; try destruct sb; try destruct sc; simpl; try congruence.
  all: intros _; compare_cases.
Qed.

(** Rounding never produces a NaN from a mantissa that is not negative. *)
Lemma shr_1_nonneg (mrs : shr_record) :
  (0 <= shr_m mrs)%Z -> (0 <= shr_m (shr_1 mrs))%Z.
Proof.
  destruct mrs as [m r s]; simpl.
  destruct m as [|p|p]; simpl; try lia.
  - destruct p; simpl; lia.
Qed.

Lemma iter_pos_invariant {A : Type} (P : A -> Prop) (f : A -> A) :
  (forall x, P x -> P (f x)) -> forall n x, P x -> P (iter_pos f n x).
Proof.
  intros Hf. induction n as [n IH|n IH|]; intros x Hx; simpl; auto.
Qed.

Lemma shr_nonneg (mrs : shr_record) (e n : Z) :
  (0 <= shr_m mrs)%Z -> (0 <= shr_m (fst (shr mrs e n)))%Z.
Proof.
  intros H. unfold shr. destruct n; simpl; auto.
  apply (iter_pos_invariant (fun r => (0 <= shr_m r)%Z)); auto using shr_1_nonneg.
Qed.

Lemma shr_fexp_nonneg (prec emax m e : Z) (l : SpecFloat.location) :
  (0 <= m)%Z -> (0 <= shr_m (fst (shr_fexp prec emax m e l)))%Z.
Proof.
  intros H. unfold shr_fexp. apply shr_nonneg.
  destruct l as [|[ | | ]]; simpl; assumption.
Qed.

Lemma round_nearest_even_nonneg (m : Z) (l : SpecFloat.location) :
  (0 <= m)%Z -> (0 <= round_nearest_even m l)%Z.
Proof.
  intros H. unfold round_nearest_even.
  destruct l as [|[ | | ]]; try destruct (Z.even m); lia.
Qed.

Lemma binary_round_aux_not_nan (prec emax : Z) (sx : bool) (mx ex : Z) (lx : SpecFloat.location) :
  (0 <= mx)%Z -> binary_round_aux prec emax sx mx ex lx <> S754_nan.
Proof.
  intros H. unfold binary_round_aux.
  pose proof (shr_fexp_nonneg prec emax mx ex lx H) as H1.
  destruct (shr_fexp prec emax mx ex lx) as [mrs' e']; simpl in H1.
  pose proof (shr_fexp_nonneg prec emax _ e' loc_Exact
                (round_nearest_even_nonneg _ (loc_of_shr_record mrs') H1)) as H2.
  destruct (shr_fexp prec emax _ e' loc_Exact) as [mrs'' e'']; simpl in H2.
  destruct (shr_m mrs'') as [|p|p]; try discriminate; try lia.
  destruct (Z.leb _ _); discriminate.
Qed.

Lemma binary_round_not_nan (prec emax : Z) (sx : bool) (mx : positive) (ex : Z) :
  binary_round prec emax sx mx ex <> S754_nan.
Proof.
  unfold binary_round.
  destruct (shl_align _ _ _) as [mz ez].
  apply binary_round_aux_not_nan. lia.
Qed.

Lemma binary_normalize_not_nan (prec emax m e : Z) (szero : bool) :
  binary_normalize prec emax m e szero <> S754_nan.
Proof.
  destruct m; simpl; try discriminate; apply binary_round_not_nan.
Qed.

Lemma of_int_is_number (z : Z) (f : spec_float) :
  Float64.of_int z = Ok f -> is_number f.
Proof.
  unfold Float64.of_int.
  pose proof (binary_normalize_not_nan Float64.prec Float64.emax z 0 false) as H.
  destruct (binary_normalize _ _ _ _ _); intros E; inversion E; subst; simpl; auto.
Qed.

Lemma div_billion_not_nan (f : spec_float) :
  is_number f -> Float64.div f Float64.billion <> S754_nan.
Proof.
  unfold Float64.div, Float64.billion.
  destruct f as [s|s| |s m e]; simpl; try discriminate; try contradiction.
  intros _.
  match goal with
  | |- context [SFdiv_core_binary ?p ?x ?a ?b ?c ?d] =>
      assert (Hq : (0 <= fst (fst (SFdiv_core_binary p x a b c d)))%Z)
  end.
  { unfold SFdiv_core_binary.
    match goal with
    | |- context [Z.div_eucl ?a ?b] =>
        assert (Ha : (0 <= a)%Z);
        [ | pose proof (Z.div_pos a b Ha ltac:(lia)) as Hd;
            unfold Z.div in Hd; destruct (Z.div_eucl a b); simpl; exact Hd ]
    end.
    match goal with
    | |- context [Z.shiftl ?a ?s] =>
        destruct s; try lia; apply Z.shiftl_nonneg; lia
    end. }
  destruct (SFdiv_core_binary _ _ _ _ _ _) as [[mz ez] lz]; simpl in Hq.
  now apply binary_round_aux_not_nan.
Qed.

Lemma add_number_not_nan (a b : spec_float) :
  is_number a -> b <> S754_nan -> Float64.add a b <> S754_nan.
Proof.
  unfold Float64.add.
  destruct a as [sa|sa| |sa ma ea], b as [sb|sb| |sb mb eb]; simpl;
    try contradiction; try congruence; intros _ _.
  - destruct sa, sb; discriminate.
  - apply binary_normalize_not_nan.
Qed.

Lemma get_sort_key_valid (tx : Tx) (k : SortKey) :
  get_sort_key tx = Ok k -> valid_key k.
Proof.
  unfold get_sort_key.
  destruct (timestamp (record tx)) as [[seconds nanos|ts]|].
  - destruct (Float64.of_int (get nanos 0%Z)) as [n|] eqn:En; simpl; [|discriminate].
    destruct (Float64.of_int (get seconds 0%Z)) as [s|] eqn:Es; simpl; [|discriminate].
    intros E; inversion E; subst; simpl.
    apply add_number_not_nan.
    + eapply of_int_is_number; eassumption.
    + apply div_billion_not_nan. eapply of_int_is_number; eassumption.
  - intros E; inversion E; exact I.
  - intros E; inversion E; exact I.
Qed.

Lemma ascii_compare_lt_trans (a b c : ascii) :
  Ascii.compare a b = Lt -> Ascii.compare b c = Lt -> Ascii.compare a c = Lt.
Proof.
  unfold Ascii.compare. rewrite !N.compare_lt_iff. lia.
Qed.

Lemma string_compare_lt_trans (a b c : string) :
  String.compare a b = Lt -> String.compare b c = Lt -> String.compare a c = Lt.
Proof.
  revert b c.
  induction a as [|x a IH]; intros [|y b] [|z c]; simpl; try congruence.
  destruct (Ascii.compare x y) eqn:Exy; try discriminate;
    destruct (Ascii.compare y z) eqn:Eyz; try discriminate; intros H1 H2.
  - apply Ascii.compare_eq_iff in Exy, Eyz. subst.
    replace (Ascii.compare z z) with Eq.
    + eauto.
    + symmetry. unfold Ascii.compare. apply N.compare_refl.
  - apply Ascii.compare_eq_iff in Exy. subst. now rewrite Eyz.
  - apply Ascii.compare_eq_iff in Eyz. subst. now rewrite Exy.
  - now rewrite (ascii_compare_lt_trans x y z).
Qed.

Lemma string_ltb_asym (a b : string) : String.ltb a b = true -> String.ltb b a = false.
Proof.
  unfold String.ltb. rewrite (String.compare_antisym b a).
  destruct (String.compare a b); simpl; congruence.
Qed.

Lemma string_compare_refl (a : string) : String.compare a a = Eq.
Proof.
  induction a as [|x a IH]; simpl; [reflexivity|].
  unfold Ascii.compare. now rewrite N.compare_refl.
Qed.

Lemma string_ltb_false_trans (a b c : string) :
  String.ltb b a = false -> String.ltb c b = false -> String.ltb c a = false.
Proof.
  unfold String.ltb.
  rewrite (String.compare_antisym b a), (String.compare_antisym c b),
    (String.compare_antisym c a).
  destruct (String.compare a b) eqn:Eab; simpl; try discriminate;
    destruct (String.compare b c) eqn:Ebc; simpl; try discriminate; intros _ _.
  - apply String.compare_eq_iff in Eab, Ebc. subst.
    now rewrite string_compare_refl.
  - apply String.compare_eq_iff in Eab. subst. now rewrite Ebc.
  - apply String.compare_eq_iff in Ebc. subst. now rewrite Eab.
  - now rewrite (string_compare_lt_trans _ _ _ Eab Ebc).
Qed.

Lemma key_lt_asym (a b : SortKey) : key_lt a b = Ok true -> key_le a b.
Proof.
  unfold key_le.
  destruct a as [x|s], b as [y|t]; simpl; try discriminate;
    intros E; injection E as H; f_equal.
  - unfold Float64.ltb in *. now apply SFltb_asym.
  - now apply string_ltb_asym.
Qed.

Lemma key_le_trans (a b c : SortKey) :
  valid_key b -> key_le a b -> key_le b c -> key_le a c.
Proof.
  unfold key_le.
  destruct a as [x|s], b as [y|t], c as [z|u]; simpl; try discriminate;
    intros Hb H1 H2; injection H1 as E1; injection H2 as E2; f_equal.
  - unfold Float64.ltb in *. now apply (SFltb_false_trans x y z).
  - now apply (string_ltb_false_trans s t u).
Qed.

(* ===================================================================== *)
(** * Properties of [list.sort] *)
(* ===================================================================== *)

Lemma Forall_perm {B : Type} (P : B -> Prop) (l l' : list B) :
  Permutation l l' -> Forall P l -> Forall P l'.
Proof.
  intros Hp. rewrite !Forall_forall. intros H x Hx.
  apply H. eapply Permutation_in; [apply Permutation_sym; exact Hp|exact Hx].
Qed.

Section SortProperties.

Variable A : Type.

#[local] Instance keyed_le_transitive : Transitive (@keyed_le A).
Proof.
  intros a b c (Ha & Hb & Hab) (_ & Hc & Hbc).
  unfold keyed_le. split; [exact Ha|]. split; [exact Hc|].
  exact (key_le_trans _ _ _ Hb Hab Hbc).
Qed.

Lemma insert_perm (x : SortKey * A) (l r : list (SortKey * A)) :
  insert x l = Ok r -> Permutation (x :: l) r.
Proof.
  revert r. induction l as [|y l IH]; intros r; simpl.
  - intros E; inversion E. apply Permutation_refl.
  - destruct (key_lt (fst y) (fst x)) as [[|]|e]; simpl; try discriminate.
    + destruct (insert x l) as [r'|e] eqn:Er; simpl; try discriminate.
      intros E; inversion E; subst.
      eapply perm_trans; [apply perm_swap|]. apply perm_skip. now apply IH.
    + intros E; inversion E. apply Permutation_refl.
Qed.

Lemma stable_sort_perm (l r : list (SortKey * A)) :
  stable_sort l = Ok r -> Permutation l r.
Proof.
  revert r. induction l as [|x l IH]; intros r; simpl.
  - intros E; inversion E. apply perm_nil.
  - destruct (stable_sort l) as [s|e]; simpl; try discriminate.
    intros E. eapply perm_trans; [apply perm_skip, IH; reflexivity|].
    now apply insert_perm.
Qed.

Lemma insert_hdrel (y x : SortKey * A) (l r : list (SortKey * A)) :
  insert x l = Ok r -> keyed_le y x -> HdRel (@keyed_le A) y l -> HdRel (@keyed_le A) y r.
Proof.
  destruct l as [|z l]; simpl.
  - intros E; inversion E. now constructor.
  - destruct (key_lt (fst z) (fst x)) as [[|]|e]; simpl; try discriminate.
    + destruct (insert x l) as [r'|e]; simpl; try discriminate.
      intros E Hx Hz; inversion E; subst. inversion Hz; subst. now constructor.
    + intros E Hx Hz; inversion E; subst. now constructor.
Qed.

Lemma insert_sorted (x : SortKey * A) (l r : list (SortKey * A)) :
  valid_key (fst x) -> valid_keys l -> Sorted (@keyed_le A) l ->
  insert x l = Ok r -> Sorted (@keyed_le A) r.
Proof.
  intros Hx. revert r. induction l as [|y l IH]; intros r Hl Hs; simpl.
  - intros E; inversion E. repeat constructor.
  - inversion Hl as [|? ? Hy Hl']; subst. inversion Hs as [|? ? Hs' Hhd]; subst.
    destruct (key_lt (fst y) (fst x)) as [[|]|e] eqn:Elt; simpl; try discriminate.
    + destruct (insert x l) as [r'|e] eqn:Er; simpl; try discriminate.
      intros E; inversion E; subst. constructor.
      * now apply IH.
      * eapply insert_hdrel; eauto.
        repeat split; auto. now apply key_lt_asym.
    + intros E; inversion E; subst. constructor; [assumption|].
      constructor. repeat split; auto.
Qed.

Lemma stable_sort_sorted (l r : list (SortKey * A)) :
  valid_keys l -> stable_sort l = Ok r -> Sorted (@keyed_le A) r.
Proof.
  revert r. induction l as [|x l IH]; intros r Hl; simpl.
  - intros E; inversion E. constructor.
  - inversion Hl as [|? ? Hx Hl']; subst.
    destruct (stable_sort l) as [s|e] eqn:Es; simpl; try discriminate.
    intros E. apply (insert_sorted x s r Hx); [|now apply IH|exact E].
    apply (Forall_perm _ l s); [now apply stable_sort_perm|exact Hl'].
Qed.

(** In a sorted list every later element is not smaller than an earlier
    one. *)
Lemma strongly_sorted_pairs (R : SortKey * A -> SortKey * A -> Prop)
    (l : list (SortKey * A)) :
  StronglySorted R l ->
  forall i j a b, i < j -> nth_error l i = Some a -> nth_error l j = Some b -> R a b.
Proof.
  induction 1 as [|x l Hs IH Hall]; intros i j a b Hij Hi Hj.
  - destruct i; discriminate.
  - destruct j as [|j]; [lia|]. simpl in Hj.
    destruct i as [|i]; simpl in Hi.
    + inversion Hi; subst. rewrite Forall_forall in Hall.
      apply Hall. eapply nth_error_In; eauto.
    + apply (IH i j a b); [lia|exact Hi|exact Hj].
Qed.

(** Stability: the elements tied with a key keep the order they had. *)
Lemma tied_not_smaller (k x y : SortKey) :
  valid_key k -> key_tied k x = true -> key_tied k y = true ->
  key_lt y x = Ok true -> False.
Proof.
  unfold key_tied. intros Hk Hx Hy Hlt.
  destruct (key_lt k x) as [[|]|] eqn:E1; try discriminate.
  destruct (key_lt x k) as [[|]|] eqn:E2; try discriminate.
  destruct (key_lt k y) as [[|]|] eqn:E3; try discriminate.
  destruct (key_lt y k) as [[|]|] eqn:E4; try discriminate.
  assert (H : key_le x y) by (apply (key_le_trans x k y); assumption).
  unfold key_le in H. congruence.
Qed.

Lemma insert_stable (k : SortKey) (x : SortKey * A) (l r : list (SortKey * A)) :
  valid_key k -> insert x l = Ok r ->
  filter (fun p => key_tied k (fst p)) r = filter (fun p => key_tied k (fst p)) (x :: l).
Proof.
  intros Hk. revert r. induction l as [|y l IH]; intros r; simpl.
  - intros E; inversion E. reflexivity.
  - destruct (key_lt (fst y) (fst x)) as [[|]|e] eqn:Elt; simpl; try discriminate.
    + destruct (insert x l) as [r'|e] eqn:Er; simpl; try discriminate.
      intros E; inversion E; subst. simpl. rewrite (IH r' eq_refl). simpl.
      destruct (key_tied k (fst x)) eqn:Tx, (key_tied k (fst y)) eqn:Ty;
        try reflexivity.
      exfalso. exact (tied_not_smaller k (fst x) (fst y) Hk Tx Ty Elt).
    + intros E; inversion E. reflexivity.
Qed.

Lemma stable_sort_stable (k : SortKey) (l r : list (SortKey * A)) :
  valid_key k -> stable_sort l = Ok r ->
  filter (fun p => key_tied k (fst p)) r = filter (fun p => key_tied k (fst p)) l.
Proof.
  intros Hk. revert r. induction l as [|x l IH]; intros r; simpl.
  - intros E; inversion E. reflexivity.
  - destruct (stable_sort l) as [s|e] eqn:Es; simpl; try discriminate.
    intros E. rewrite (insert_stable k x s r Hk E). simpl.
    now rewrite (IH s eq_refl).
Qed.

(** The sort returns when the keys are of one kind. *)
Lemma insert_returns (x : SortKey * A) (l : list (SortKey * A)) :
  Forall (fun p => same_kind (fst x) (fst p) = true) l ->
  exists r, insert x l = Ok r.
Proof.
  induction 1 as [|y l Hy Hl IH]; simpl; [eauto|].
  destruct IH as [r' Er]. rewrite Er.
  destruct (fst x) as [fx|sx], (fst y) as [fy|sy]; simpl in *; try discriminate.
  - destruct (Float64.ltb fy fx); simpl; eauto.
  - destruct (String.ltb sy sx); simpl; eauto.
Qed.

Lemma stable_sort_returns (k : SortKey) (l : list (SortKey * A)) :
  Forall (fun p => same_kind k (fst p) = true) l ->
  exists r, stable_sort l = Ok r.
Proof.
  induction 1 as [|x l Hx Hl IH]; simpl; [eauto|].
  destruct IH as [s Es]. rewrite Es. simpl.
  apply insert_returns.
  apply (Forall_perm _ l s); [now apply stable_sort_perm|].
  eapply Forall_impl; [|exact Hl]. intros p Hp. simpl in Hp.
  destruct k, (fst x), (fst p); simpl in *; congruence.
Qed.

(** The sort raises [TypeError] as soon as keys of both kinds are present:
    with [stable_sort_returns], it returns exactly when the keys are of one
    kind. *)
Lemma forallb_false {B : Type} (f : B -> bool) (l : list B) :
  forallb f l = false -> exists x, In x l /\ f x = false.
Proof.
  induction l as [|x l IH]; simpl; [discriminate|].
  destruct (f x) eqn:Ex; simpl.
  - intros H. destruct (IH H) as (y & Hy & Hfy). eauto.
  - intros _. eauto.
Qed.

Lemma stable_sort_mixed_raises (l : list (SortKey * A)) :
  (exists x y, In x l /\ In y l /\ same_kind (fst x) (fst y) = false) ->
  stable_sort l = Raise TypeError.
Proof.
  induction l as [|a l IH]; intros (x & y & Hx & Hy & Hk).
  - contradiction.
  - simpl.
    destruct (forallb (fun z => same_kind (fst a) (fst z)) l) eqn:Hall.
    + (* the rest is of the kind of [a]: two elements cannot differ *)
      rewrite forallb_forall in Hall. exfalso.
      assert (Hxa : same_kind (fst a) (fst x) = true).
      { destruct Hx as [<-|Hx]; [now destruct (fst a)|auto]. }
      assert (Hya : same_kind (fst a) (fst y) = true).
      { destruct Hy as [<-|Hy]; [now destruct (fst a)|auto]. }
      destruct (fst a), (fst x), (fst y); simpl in *; discriminate.
    + destruct (forallb_false _ _ Hall) as (z & Hz & Hza).
      destruct (forallb (fun w => same_kind (fst z) (fst w)) l) eqn:Hzall.
      * (* the rest is of one kind, which is not the kind of [a] *)
        rewrite forallb_forall in Hzall.
        destruct (stable_sort_returns (fst z) l) as [s Es].
        { rewrite Forall_forall. exact Hzall. }
        rewrite Es. simpl.
        pose proof (stable_sort_perm _ _ Es) as Hp.
        destruct s as [|w s'].
        { apply Permutation_sym, Permutation_nil in Hp. subst. contradiction. }
        assert (Hw : In w l).
        { eapply Permutation_in; [apply Permutation_sym; exact Hp|now left]. }
        specialize (Hzall w Hw). simpl.
        destruct (fst a), (fst z), (fst w); simpl in *; try discriminate; reflexivity.
      * destruct (forallb_false _ _ Hzall) as (w & Hw & Hzw).
        rewrite IH; [reflexivity|]. exists z, w. auto.
Qed.

End SortProperties.

Lemma mapM_Forall2 {A B : Type} (f : A -> result B) (l : list A) (ys : list B) :
  mapM f l = Ok ys -> Forall2 (fun x y => f x = Ok y) l ys.
Proof.
  revert ys. induction l as [|x l IH]; intros ys; simpl.
  - intros E; inversion E. constructor.
  - destruct (f x) as [y|e] eqn:Ex; simpl; try discriminate.
    destruct (mapM f l) as [ys'|e]; simpl; try discriminate.
    intros E; inversion E; subst. constructor; auto.
Qed.

Lemma mapM_returns {A B : Type} (f : A -> result B) (l : list A) :
  Forall (fun x => exists y, f x = Ok y) l -> exists ys, mapM f l = Ok ys.
Proof.
  induction 1 as [|x l [y Hy] Hl [ys IH]]; simpl; [eauto|].
  rewrite Hy, IH. simpl. eauto.
Qed.

Lemma Forall2_combine {A B : Type} (R : A -> B -> Prop) (l : list A) (ys : list B) :
  Forall2 R l ys ->
  Forall (fun p => R (snd p) (fst p)) (combine ys l) /\ map snd (combine ys l) = l.
Proof.
  induction 1 as [|x y l ys Hxy Hl [IH1 IH2]]; simpl.
  - split; [constructor|reflexivity].
  - split; [constructor; assumption|now rewrite IH2].
Qed.

Section ListSortProperties.

Variable A : Type.
Variable key : A -> result SortKey.
Hypothesis key_valid : forall x k, key x = Ok k -> valid_key k.

Lemma decorated_valid (l : list (SortKey * A)) : decorated key l -> valid_keys l.
Proof.
  unfold decorated, valid_keys. apply Forall_impl. intros p. apply key_valid.
Qed.

Lemma list_sort_inv (l r : list A) :
  list_sort key l = Ok r ->
  exists keys s,
    mapM key l = Ok keys /\ stable_sort (combine keys l) = Ok s /\ r = map snd s /\
    decorated key (combine keys l) /\ map snd (combine keys l) = l /\ decorated key s.
Proof.
  unfold list_sort.
  destruct (mapM key l) as [keys|e] eqn:Ek; simpl; try discriminate.
  destruct (stable_sort (combine keys l)) as [s|e] eqn:Es; simpl; try discriminate.
  intros E; inversion E; subst.
  destruct (Forall2_combine _ _ _ (mapM_Forall2 _ _ _ Ek)) as [Hd Hm].
  exists keys, s. repeat split; auto.
  apply (Forall_perm _ (combine keys l) s); [now apply stable_sort_perm|exact Hd].
Qed.

Lemma list_sort_perm (l r : list A) : list_sort key l = Ok r -> Permutation l r.
Proof.
  intros H. destruct (list_sort_inv l r H) as (keys & s & _ & Es & -> & _ & Hm & _).
  rewrite <- Hm at 1. apply Permutation_map. now apply stable_sort_perm.
Qed.

(** The sorted list is non-decreasing: a later element is never smaller
    than an earlier one. *)
Lemma list_sort_sorted (l r : list A) :
  list_sort key l = Ok r ->
  forall i j a b, i < j -> nth_error r i = Some a -> nth_error r j = Some b ->
  exists ka kb, key a = Ok ka /\ key b = Ok kb /\ key_lt kb ka = Ok false.
Proof.
  intros H i j a b Hij Hi Hj.
  destruct (list_sort_inv l r H) as (keys & s & _ & Es & -> & Hd & _ & Hs).
  rewrite nth_error_map in Hi, Hj.
  destruct (nth_error s i) as [p|] eqn:Ep; try discriminate.
  destruct (nth_error s j) as [q|] eqn:Eq; try discriminate.
  simpl in Hi, Hj. inversion Hi; inversion Hj; subst.
  assert (Hsorted : StronglySorted (@keyed_le A) s).
  { apply Sorted_StronglySorted; [apply keyed_le_transitive|].
    eapply stable_sort_sorted; [|exact Es]. now apply decorated_valid. }
  destruct (strongly_sorted_pairs A _ s Hsorted i j p q Hij Ep Eq) as (_ & _ & Hle).
  unfold decorated in Hs. rewrite Forall_forall in Hs.
  exists (fst p), (fst q). repeat split.
  - apply Hs. eapply nth_error_In; eauto.
  - apply Hs. eapply nth_error_In; eauto.
  - exact Hle.
Qed.

Lemma filter_decorated (k : SortKey) (s : list (SortKey * A)) :
  decorated key s ->
  filter (tied_with key k) (map snd s) = map snd (filter (fun p => key_tied k (fst p)) s).
Proof.
  induction 1 as [|p s Hp Hs IH]; simpl; [reflexivity|].
  unfold tied_with at 1. rewrite Hp.
  destruct (key_tied k (fst p)); simpl; now rewrite IH.
Qed.

(** The sort is stable: the elements whose key is tied with [k] come out in
    the order they went in. *)
Lemma list_sort_stable (l r : list A) (k : SortKey) :
  valid_key k -> list_sort key l = Ok r ->
  filter (tied_with key k) r = filter (tied_with key k) l.
Proof.
  intros Hk H.
  destruct (list_sort_inv l r H) as (keys & s & _ & Es & -> & Hd & Hm & Hs).
  rewrite (filter_decorated k s Hs), (stable_sort_stable A k _ s Hk Es).
  rewrite <- (filter_decorated k _ Hd). now rewrite Hm.
Qed.

(** The sort returns when every key computes and the keys are of one kind. *)
Lemma list_sort_returns (l : list A) (k : SortKey) :
  Forall (fun x => exists k', key x = Ok k' /\ same_kind k k' = true) l ->
  exists r, list_sort key l = Ok r.
Proof.
  intros H. unfold list_sort.
  destruct (mapM_returns key l) as [keys Ek].
  { eapply Forall_impl; [|exact H]. intros x (k' & Hk' & _). eauto. }
  rewrite Ek. simpl.
  destruct (stable_sort_returns A k (combine keys l)) as [s Es].
  { destruct (Forall2_combine _ _ _ (mapM_Forall2 _ _ _ Ek)) as [Hd Hm].
    rewrite Forall_forall in *. intros p Hp.
    specialize (Hd p Hp). simpl in Hd.
    assert (Hin : In (snd p) l) by (rewrite <- Hm; now apply in_map).
    destruct (H (snd p) Hin) as (k' & Hk' & Hs). congruence. }
  rewrite Es. simpl. eauto.
Qed.

(** The sort raises [TypeError] when every key computes and two of them are
    of different kinds. *)
Lemma list_sort_mixed_raises (l : list A) (keys : list SortKey) (x y : A)
    (kx ky : SortKey) :
  mapM key l = Ok keys ->
  In x l -> In y l -> key x = Ok kx -> key y = Ok ky -> same_kind kx ky = false ->
  list_sort key l = Raise TypeError.
Proof.
  intros Ek Hx Hy Hkx Hky Hkind. unfold list_sort. rewrite Ek. simpl.
  destruct (Forall2_combine _ _ _ (mapM_Forall2 _ _ _ Ek)) as [Hd Hm].
  assert (Hin : forall z kz, In z l -> key z = Ok kz -> In (kz, z) (combine keys l)).
  { intros z kz Hz Hkz. rewrite <- Hm in Hz. apply in_map_iff in Hz.
    destruct Hz as ([k' z'] & Heq & Hz). simpl in Heq. subst z'.
    rewrite Forall_forall in Hd. specialize (Hd _ Hz). simpl in Hd.
    assert (k' = kz) by congruence. now subst. }
  rewrite (stable_sort_mixed_raises A (combine keys l)); [reflexivity|].
  exists (kx, x), (ky, y). auto.
Qed.

End ListSortProperties.

(* ===================================================================== *)
(** * Properties of the rendering loop and of the ledger view *)
(* ===================================================================== *)

Section ViewProperties.

Variable loads_ids : string -> option (list string).
Variable loads_history : string -> option (list HistoryEntry).
Variable gateway : string -> list string -> Process.
Variable json_load : string -> result json.
Variable strftime_local : Z -> result string.
Variable int_of_str : string -> result Z.
Variable str_of : json -> string.
Variable b64decode : string -> result string.
Variable tools : Tools.

Lemma render_fields (prev_hash : string) (all_txs : list Tx) (blocks : list Block) :
  render strftime_local prev_hash all_txs = Ok blocks ->
  map b_tx_id blocks = map tx_id_of all_txs /\
  map b_action blocks = map tx_action all_txs /\
  map b_asset_id blocks = map asset_id all_txs.
Proof.
  revert prev_hash blocks.
  induction all_txs as [|tx rest IH]; intros prev_hash blocks; simpl.
  - intros E; inversion E. auto.
  - destruct (format_time _ _ _) as [t|e]; simpl; try discriminate.
    destruct (render strftime_local _ rest) as [blocks'|e] eqn:Er; simpl; try discriminate.
    intros E; inversion E; subst; simpl.
    destruct (IH _ _ Er) as (H1 & H2 & H3).
    unfold tx_id_of at 1. now rewrite H1, H2, H3.
Qed.

(** The chain of the loop variable [prev_hash]: the first block holds the
    starting hash, every later block the transaction id of the block before
    it. *)
Lemma render_links (prev_hash : string) (all_txs : list Tx) (blocks : list Block) :
  render strftime_local prev_hash all_txs = Ok blocks ->
  (forall first rest, blocks = first :: rest -> b_prev_hash first = prev_hash) /\
  (forall i b b', nth_error blocks i = Some b -> nth_error blocks (S i) = Some b' ->
                  b_prev_hash b' = b_tx_id b).
Proof.
  revert prev_hash blocks.
  induction all_txs as [|tx rest IH]; intros prev_hash blocks; simpl.
  - intros E; inversion E. split; [discriminate|]. intros [|i]; discriminate.
  - destruct (format_time _ _ _) as [t|e]; simpl; try discriminate.
    destruct (render strftime_local _ rest) as [blocks'|e] eqn:Er; simpl; try discriminate.
    intros E; inversion E; subst.
    destruct (IH _ _ Er) as (Hfirst & Hnext). split.
    + intros first rest' Eq. now inversion Eq.
    + intros [|i] b b' Hb Hb'; simpl in Hb, Hb'.
      * inversion Hb; subst; simpl.
        destruct blocks' as [|first rest']; [discriminate|].
        simpl in Hb'. inversion Hb'; subst. now apply (Hfirst b' rest').
      * now apply (Hnext i).
Qed.

Lemma render_returns (prev_hash : string) (all_txs : list Tx) :
  Forall (formats strftime_local) all_txs ->
  exists blocks, render strftime_local prev_hash all_txs = Ok blocks /\
                 List.length blocks = List.length all_txs.
Proof.
  intros H. revert prev_hash.
  induction H as [|tx rest [t Ht] Hrest IH]; intros prev_hash; simpl.
  - eauto.
  - rewrite Ht. simpl. destruct (IH (get (txId (record tx)) "N/A")) as (blocks & Er & Hlen).
    rewrite Er. simpl. eexists. split; [reflexivity|]. simpl. now rewrite Hlen.
Qed.

(** What a rendered ledger was made from. *)
Lemma view_blockchain_ledger_inv (fs fs' : FileSystem) (found assets total : nat)
    (box : GenesisBox) (blocks : list Block) :
  view_blockchain_ledger loads_ids loads_history gateway json_load strftime_local
    int_of_str str_of b64decode tools fs
  = (Ok (Ledger found assets box blocks total), fs') ->
  let all_evidence_ids := query_chaincode loads_ids (gateway "GetAllEvidenceIDs" []) in
  let genesis_info :=
    fst (get_genesis_block json_load strftime_local int_of_str str_of b64decode tools fs) in
  exists all_txs genesis_hash,
    merge loads_history gateway (ids_of all_evidence_ids) = Ok all_txs /\
    all_txs <> [] /\
    genesis_hash_of genesis_info = JStr genesis_hash /\
    render strftime_local genesis_hash all_txs = Ok blocks /\
    box = {| g_timestamp := anchor_timestamp genesis_info;
             g_data_hash := slice_to 52 genesis_hash;
             g_prev_hash := repeat_char "0" 52 |} /\
    found = List.length all_txs.
Proof.
  unfold view_blockchain_ledger. cbv zeta.
  destruct (negb (answer_truthy _)); [discriminate|].
  destruct (merge _ _ _) as [all_txs|e]; [|discriminate].
  destruct (get_genesis_block _ _ _ _ _ _ _) as [genesis_info fs1]; cbn [fst].
  intros E. exists all_txs.
  assert (Hne : all_txs <> []) by (intros ->; discriminate).
  assert (E' :
    match genesis_hash_of genesis_info with
    | JStr genesis_hash =>
        match render strftime_local genesis_hash all_txs with
        | Ok blocks0 =>
            (Ok (Ledger (List.length all_txs)
                   (answer_len (query_chaincode loads_ids (gateway "GetAllEvidenceIDs" [])))
                   {| g_timestamp := anchor_timestamp genesis_info;
                      g_data_hash := slice_to 52 genesis_hash;
                      g_prev_hash := repeat_char "0" 52 |}
                   blocks0 (List.length all_txs)), fs1)
        | Raise e => (Raise e, fs1)
        end
    | _ => (Raise TypeError, fs1)
    end = (Ok (Ledger found assets box blocks total), fs')).
  { destruct all_txs; [congruence|exact E]. }
  clear E.
  destruct (genesis_hash_of genesis_info) as [ | | |genesis_hash| | ]; try discriminate.
  exists genesis_hash.
  destruct (render strftime_local genesis_hash all_txs) as [blocks0|e]; [|discriminate].
  injection E' as E1 E2 E3 E4 E5 E6. subst.
  repeat split; auto.
Qed.

(** The view renders a ledger whenever the merge returns entries, the hash
    of the anchor is a string and the timestamps can be formatted. *)
Lemma view_blockchain_ledger_renders (fs : FileSystem) (all_txs : list Tx)
    (genesis_hash : string) :
  let all_evidence_ids := query_chaincode loads_ids (gateway "GetAllEvidenceIDs" []) in
  let resolved :=
    get_genesis_block json_load strftime_local int_of_str str_of b64decode tools fs in
  answer_truthy all_evidence_ids = true ->
  merge loads_history gateway (ids_of all_evidence_ids) = Ok all_txs ->
  all_txs <> [] ->
  genesis_hash_of (fst resolved) = JStr genesis_hash ->
  Forall (formats strftime_local) all_txs ->
  exists blocks,
    render strftime_local genesis_hash all_txs = Ok blocks /\
    view_blockchain_ledger loads_ids loads_history gateway json_load strftime_local
      int_of_str str_of b64decode tools fs
    = (Ok (Ledger (List.length all_txs) (answer_len all_evidence_ids)
             {| g_timestamp := anchor_timestamp (fst resolved);
                g_data_hash := slice_to 52 genesis_hash;
                g_prev_hash := repeat_char "0" 52 |}
             blocks (List.length all_txs)),
       snd resolved).
Proof.
  cbv zeta. intros Hids Hmerge Hne Hhash Hfmt.
  destruct (render_returns genesis_hash all_txs Hfmt) as (blocks & Er & _).
  exists blocks. split; [exact Er|].
  unfold view_blockchain_ledger. rewrite Hids, Hmerge. cbv beta iota delta [negb].
  destruct all_txs as [|tx rest]; [congruence|].
  destruct (get_genesis_block _ _ _ _ _ _ _) as [genesis_info fs1]; cbv beta iota in *.
  cbn [fst snd] in *. rewrite Hhash, Er. reflexivity.
Qed.

End ViewProperties.

(* ===================================================================== *)
(** * Properties of the genesis resolver *)
(* ===================================================================== *)

Section GenesisProperties.

Variable json_load : string -> result json.
Variable strftime_local : Z -> result string.
Variable int_of_str : string -> result Z.
Variable str_of : json -> string.
Variable b64decode : string -> result string.

(** The anchor of a resolution, path by path. *)
Lemma get_genesis_block_anchor (tools : Tools) (fs : FileSystem) :
  fst (get_genesis_block json_load strftime_local int_of_str str_of b64decode tools fs)
  = match fetch_output tools with
    | None => failed "Fetch Failed"
    | Some _ =>
        if configtxlator_exists tools then
          match decode_run tools with
          | CalledProcessError _ _ => failed "Decode Failed"
          | Completed _ _ =>
              match decode_output tools with
              | None => failed "No Output"
              | Some text =>
                  match json_load text with
                  | Raise JSONDecodeError => failed "Parse Error"
                  | Raise _ => failed "Error"
                  | Ok block_data =>
                      match extract strftime_local int_of_str str_of b64decode block_data with
                      | Ok anchor => anchor
                      | Raise _ => failed "Error"
                      end
                  end
              end
          end
        else failed "Tool Missing"
    end.
Proof.
  unfold get_genesis_block.
  destruct (fetch_output tools) as [block|]; simpl; [|reflexivity].
  destruct (configtxlator_exists tools); simpl; [|reflexivity].
  destruct (decode_run tools) as [out err|err msg]; simpl.
  - destruct (decode_output tools) as [text|]; simpl; [|reflexivity].
    destruct (json_load text) as [block_data|[]]; simpl; try reflexivity.
    destruct (extract _ _ _ _ block_data); reflexivity.
  - destruct (contains _ _); reflexivity.
Qed.

(** The two temporary files after a resolution, path by path: the JSON file
    never remains; the block file remains exactly when the fetch wrote it
    and the decode tool is missing. *)
Lemma get_genesis_block_files (tools : Tools) (fs : FileSystem) :
  let after :=
    snd (get_genesis_block json_load strftime_local int_of_str str_of b64decode tools fs) in
  json_file after = None /\
  block_file after = match fetch_output tools with
                     | Some block => if configtxlator_exists tools then None else Some block
                     | None => None
                     end.
Proof.
  unfold get_genesis_block.
  destruct (fetch_output tools) as [block|]; simpl; [|auto].
  destruct (configtxlator_exists tools); simpl; [|auto].
  destruct (decode_run tools) as [out err|err msg]; simpl.
  - destruct (decode_output tools) as [text|]; simpl; [|auto].
    destruct (json_load text) as [block_data|[]]; simpl; auto.
    destruct (extract _ _ _ _ block_data); simpl; auto.
  - destruct (contains _ _); simpl; auto.
Qed.

Lemma failed_resolution (tools : Tools) (fs : FileSystem) :
  resolution_fails json_load strftime_local int_of_str str_of b64decode tools ->
  exists diagnostic,
    In diagnostic diagnostics /\
    fst (get_genesis_block json_load strftime_local int_of_str str_of b64decode tools fs)
    = failed diagnostic.
Proof.
  intros H. rewrite get_genesis_block_anchor. unfold diagnostics.
  destruct (fetch_output tools) as [block|] eqn:E1;
    [|exists "Fetch Failed"; split; [simpl; tauto|reflexivity]].
  destruct (configtxlator_exists tools) eqn:E2;
    [|exists "Tool Missing"; split; [simpl; tauto|reflexivity]].
  destruct (decode_run tools) as [out err|err msg] eqn:E3;
    [|exists "Decode Failed"; split; [simpl; tauto|reflexivity]].
  destruct (decode_output tools) as [text|] eqn:E4;
    [|exists "No Output"; split; [simpl; tauto|reflexivity]].
  destruct (json_load text) as [block_data|e] eqn:E5.
  - destruct (extract _ _ _ _ block_data) as [anchor|e] eqn:E6;
      [|exists "Error"; split; [simpl; tauto|reflexivity]].
    exfalso.
    destruct H as [H|[H|[(se & msg & H)|[H|[(t & e & H1 & H2)|(t & b & e & H1 & H2 & H3)]]]]];
      congruence.
  - destruct e; [exists "Error"..|exists "Parse Error"|exists "Error"];
      (split; [simpl; tauto|reflexivity]).
Qed.

(** A failed lookup on the timestamp path that raises [KeyError],
    [IndexError] or [ValueError] is handled on the spot: only the timestamp
    is replaced, the hash is still read from the header. *)
Lemma extract_unknown_format (block_data : json) :
  extract_timestamp strftime_local int_of_str str_of block_data = Ok "Unknown Format" ->
  extract strftime_local int_of_str str_of b64decode block_data
  = (data_hash_hex <- extract_hash b64decode block_data ;;
     Ok {| anchor_timestamp := "Unknown Format"; anchor_hash := data_hash_hex |}).
Proof. unfold extract. now intros ->. Qed.

End GenesisProperties.

Lemma placeholder_hash (diagnostic : string) :
  genesis_hash_of (failed diagnostic) = JStr (repeat_char "0" 56) /\
  String.length (repeat_char "0" 56) = 56 /\
  slice_to 52 (repeat_char "0" 56) = repeat_char "0" 52.
Proof. repeat split. Qed.

(* ===================================================================== *)
(** * Properties of the fetch layer and of the merge *)
(* ===================================================================== *)

Lemma query_chaincode_failed {V : Type} (json_loads : string -> option V)
    (stderr message : string) :
  query_chaincode json_loads (CalledProcessError stderr message) = NoAnswer.
Proof.
  unfold query_chaincode, _run_peer_command.
  destruct (contains _ _); reflexivity.
Qed.

Section MergeProperties.

Variable loads_history : string -> option (list HistoryEntry).
Variable gateway : string -> list string -> Process.

Lemma collect_cons (ev_id : string) (ids : list string) :
  collect loads_history gateway (ev_id :: ids)
  = (txs <- history_txs loads_history gateway ev_id ;;
     rest <- collect loads_history gateway ids ;;
     Ok (txs ++ rest)).
Proof.
  unfold collect. simpl.
  destruct (history_txs loads_history gateway ev_id) as [txs|e]; simpl; [|reflexivity].
  destruct (mapM _ ids) as [per_asset|e]; reflexivity.
Qed.

(** An asset whose history query fails contributes nothing. *)
Lemma history_txs_failed (ev_id stderr message : string) :
  gateway "GetEvidenceHistory" [ev_id] = CalledProcessError stderr message ->
  history_txs loads_history gateway ev_id = Ok [].
Proof.
  intros H. unfold history_txs. rewrite H, query_chaincode_failed.
  now destruct (negb (truthy ev_id)).
Qed.

Lemma collect_skip (ev_id : string) (before after : list string) :
  history_txs loads_history gateway ev_id = Ok [] ->
  collect loads_history gateway (before ++ ev_id :: after)
  = collect loads_history gateway (before ++ after).
Proof.
  intros H. induction before as [|x before IH]; simpl.
  - rewrite collect_cons, H. simpl.
    now destruct (collect loads_history gateway after).
  - now rewrite !collect_cons, IH.
Qed.

Lemma collect_contains (ids : list string) (all_txs : list Tx) :
  collect loads_history gateway ids = Ok all_txs ->
  forall ev_id txs, In ev_id ids -> history_txs loads_history gateway ev_id = Ok txs ->
  incl txs all_txs.
Proof.
  revert all_txs. induction ids as [|x ids IH]; intros all_txs Hc ev_id txs Hin Hh.
  - contradiction.
  - rewrite collect_cons in Hc.
    destruct (history_txs loads_history gateway x) as [txs'|e] eqn:Ex; simpl in Hc;
      [|discriminate].
    destruct (collect loads_history gateway ids) as [rest|e] eqn:Er; simpl in Hc;
      [|discriminate].
    inversion Hc; subst.
    destruct Hin as [->|Hin].
    + rewrite Ex in Hh. inversion Hh; subst. now apply incl_appl, incl_refl.
    + apply incl_appr. eapply IH; eauto.
Qed.

(** A history that comes back as raw text is not skipped: the loop raises
    [TypeError] on its first character, and so does the whole collection. *)
Lemma history_txs_raw_text (ev_id stdout stderr : string) :
  ev_id <> "" -> stdout <> "" -> loads_history stdout = None ->
  gateway "GetEvidenceHistory" [ev_id] = Completed stdout stderr ->
  history_txs loads_history gateway ev_id = Raise TypeError.
Proof.
  intros Hid Hout Hload Hrun. unfold history_txs, query_chaincode, _run_peer_command.
  rewrite Hrun.
  destruct ev_id; [congruence|]. destruct stdout; [congruence|]. simpl.
  now rewrite Hload.
Qed.

Lemma history_txs_raises (ev_id : string) (e : exn) :
  history_txs loads_history gateway ev_id = Raise e -> e = TypeError.
Proof.
  unfold history_txs.
  destruct (negb (truthy ev_id)); [discriminate|].
  destruct (query_chaincode _ _) as [|s|history]; try discriminate.
  destruct (truthy s); [|discriminate]. now intros E; inversion E.
Qed.

Lemma collect_raises (ids : list string) (ev_id : string) :
  In ev_id ids ->
  history_txs loads_history gateway ev_id = Raise TypeError ->
  collect loads_history gateway ids = Raise TypeError.
Proof.
  induction ids as [|x ids IH]; intros Hin Hraise; [contradiction|].
  rewrite collect_cons.
  destruct (history_txs loads_history gateway x) as [txs|e] eqn:Ex; simpl.
  - destruct Hin as [->|Hin]; [congruence|]. now rewrite IH.
  - now rewrite (history_txs_raises x e Ex).
Qed.

Lemma merge_inv (ids : list string) (merged : list Tx) :
  merge loads_history gateway ids = Ok merged ->
  exists all_txs,
    collect loads_history gateway ids = Ok all_txs /\
    list_sort get_sort_key all_txs = Ok merged.
Proof.
  unfold merge.
  destruct (collect loads_history gateway ids) as [all_txs|e]; simpl; [|discriminate].
  eauto.
Qed.

End MergeProperties.

(* ===================================================================== *)
(** * The classifier: claims C1, C9 and C10 *)
(* ===================================================================== *)

Lemma mapM_map {A B C : Type} (f : A -> result B) (g : B -> C) (h : A -> C)
    (l : list A) (ys : list B) :
  (forall x y, f x = Ok y -> g y = h x) ->
  mapM f l = Ok ys -> map g ys = map h l.
Proof.
  intros Hfg. revert ys. induction l as [|x l IH]; intros ys; simpl.
  - intros E; inversion E. reflexivity.
  - destruct (f x) as [y|e] eqn:Ex; simpl; [|discriminate].
    destruct (mapM f l) as [ys'|e]; simpl; [|discriminate].
    intros E; inversion E; subst. simpl. now rewrite (Hfg x y Ex), (IH ys' eq_refl).
Qed.

(** The actions of the ledger view over one history are those of the
    single-asset loop over the same list. *)
Lemma annotate_actions (ev_id : string) (data : list HistoryEntry) :
  map tx_action (annotate ev_id data)
  = map (fun ii => history_action data (fst ii) (snd ii)) (enumerate data).
Proof.
  unfold annotate. rewrite map_map. apply map_ext. intros [i e]. reflexivity.
Qed.

(** C1. For an entry [e] of a history (delivered newest first, so that the
    entry after it in the list is its immediate chronological predecessor
    for the same asset), the classifier of the ledger view and the
    classifier of the single-asset view return [classify e p]: [DELETED] if
    [e] is a delete; else [CREATED] if [created_at] equals [updated_at],
    whatever the owners are, so never [TRANSFERRED]; else [TRANSFERRED] if
    the predecessor exists and its owner differs; else [UPDATED]. *)
Theorem C1_classifier_rule (ev_id : string) (history : list HistoryEntry) (i : nat) :
  option_map tx_action (nth_error (annotate ev_id history) i)
  = option_map (fun e => classify e (nth_error history (i + 1))) (nth_error history i)
  /\ (forall e, history_action history i e = classify e (nth_error history (i + 1)))
  /\ (forall e p,
        (isDelete e = true -> classify e p = DELETED) /\
        (isDelete e = false -> snapshot_created_at e = snapshot_updated_at e ->
         classify e p = CREATED /\ classify e p <> TRANSFERRED) /\
        (isDelete e = false -> snapshot_created_at e <> snapshot_updated_at e ->
         forall q, p = Some q -> snapshot_owner e <> snapshot_owner q ->
         classify e p = TRANSFERRED) /\
        (isDelete e = false -> snapshot_created_at e <> snapshot_updated_at e ->
         (p = None \/ exists q, p = Some q /\ snapshot_owner e = snapshot_owner q) ->
         classify e p = UPDATED)).
Proof.
  split; [|split].
  - rewrite nth_error_annotate.
    destruct (nth_error history i) as [e|]; simpl; [|reflexivity].
    now rewrite tx_action_annotated.
  - intros e. apply history_action_classify.
  - intros e p. destruct (classify_rules e p) as (H1 & H2 & H3 & H4).
    repeat split; auto.
    rewrite H2; auto. discriminate.
Qed.

(** C9. On one list of records the single-asset history view assigns to
    every record the action that the ledger view assigns to it: index by
    index, and for the blocks that [get_history] prints. *)
Theorem C9_history_view_same_rule (strftime_local : Z -> result string)
    (ev_id : string) (data : list HistoryEntry) :
  (forall i, option_map (history_action data i) (nth_error data i)
             = option_map tx_action (nth_error (annotate ev_id data) i))
  /\ match get_history strftime_local (Value data) with
     | Ok (History blocks _) => map h_action blocks = map tx_action (annotate ev_id data)
     | Ok NoHistory => data = []
     | Raise _ => True
     end.
Proof.
  split.
  - intros i. rewrite nth_error_annotate.
    destruct (nth_error data i) as [e|]; simpl; [|reflexivity].
    now rewrite tx_action_annotated, history_action_classify.
  - destruct data as [|first rest]; [reflexivity|].
    unfold get_history. cbv zeta.
    destruct (mapM _ (enumerate (first :: rest))) as [blocks|e] eqn:Em;
      cbv beta iota delta [Py.bind]; [|exact I].
    rewrite annotate_actions.
    refine (mapM_map _ _ _ _ _ _ Em).
    intros ii b. unfold history_block.
    destruct (format_time _ _ _); cbv beta iota delta [Py.bind]; [|discriminate].
    intros E; inversion E. reflexivity.
Qed.

(** C10. A record that is not a delete, whose two dates differ and whose
    immediate predecessor is a delete without snapshot, is compared with the
    empty owner: it is [TRANSFERRED] when its owner is not empty and
    [UPDATED] only when its owner is the empty string, in both views. *)
Theorem C10_owner_compared_with_empty_after_delete (ev_id : string)
    (history : list HistoryEntry) (i : nat) (e p : HistoryEntry) :
  nth_error history i = Some e ->
  nth_error history (i + 1) = Some p ->
  isDelete e = false ->
  snapshot_created_at e <> snapshot_updated_at e ->
  isDelete p = true ->
  evidence p = None ->
  exists tx,
    nth_error (annotate ev_id history) i = Some tx /\
    record tx = e /\
    prev_owner tx = Some "" /\
    tx_action tx = (if String.eqb (snapshot_owner e) "" then UPDATED else TRANSFERRED) /\
    history_action history i e = tx_action tx /\
    (snapshot_owner e <> "" -> tx_action tx = TRANSFERRED) /\
    (tx_action tx = UPDATED -> snapshot_owner e = "").
Proof.
  intros He Hp Hdel Hdates Hpdel Hpev.
  exists (annotated ev_id history i e).
  assert (Hpo : snapshot_owner p = "").
  { unfold snapshot_owner, get_evidence. now rewrite Hpev. }
  assert (Hact : tx_action (annotated ev_id history i e)
                 = if String.eqb (snapshot_owner e) "" then UPDATED else TRANSFERRED).
  { rewrite tx_action_annotated, Hp. unfold classify, owner_changed.
    apply String.eqb_neq in Hdates. rewrite Hdel, Hdates, Hpo.
    now destruct (String.eqb (snapshot_owner e) ""). }
  split; [now rewrite nth_error_annotate, He|].
  split; [reflexivity|].
  split; [unfold annotated; cbn [prev_owner]; rewrite Hp; cbn [option_map];
          now rewrite Hpo|].
  split; [exact Hact|].
  split; [now rewrite history_action_classify, tx_action_annotated|].
  split.
  - intros Hne. rewrite Hact. apply String.eqb_neq in Hne. now rewrite Hne.
  - rewrite Hact. destruct (String.eqb (snapshot_owner e) "") eqn:E.
    + intros _. now apply String.eqb_eq.
    + discriminate.
Qed.

Lemma C10_witness :
  exists tx,
    nth_error (annotate "A" [updated_after_delete; deleted_record]) 0 = Some tx /\
    record tx = updated_after_delete /\
    prev_owner tx = Some "" /\
    tx_action tx = TRANSFERRED /\
    history_action [updated_after_delete; deleted_record] 0 updated_after_delete
    = tx_action tx /\
    (snapshot_owner updated_after_delete <> "" -> tx_action tx = TRANSFERRED) /\
    (tx_action tx = UPDATED -> snapshot_owner updated_after_delete = "").
Proof.
  apply (C10_owner_compared_with_empty_after_delete "A"
           [updated_after_delete; deleted_record] 0 updated_after_delete deleted_record).
  - reflexivity.
  - reflexivity.
  - reflexivity.
  - discriminate.
  - reflexivity.
  - reflexivity.
Defined.

(* ===================================================================== *)
(** * The fetch layer: claim C8 *)
(* ===================================================================== *)

(** The guard [parse_json and result.stdout] keeps an empty stdout away from
    the decoder: the result is the plain success dict, without [data] and
    without the [raw] mark, and [query_chaincode] returns [None]. *)
Lemma empty_stdout_is_not_raw {V : Type} (json_loads : string -> option V) (stderr : string) :
  _run_peer_command json_loads (Completed "" stderr) true = Output "" stderr /\
  wrapper_run_peer_command json_loads (Completed "" stderr) true = Output "" stderr /\
  raw (_run_peer_command json_loads (Completed "" stderr) true) = false /\
  query_chaincode json_loads (Completed "" stderr) = NoAnswer.
Proof. repeat split. Qed.

(** C8, as stated, fails on the empty stdout: the command succeeds, the
    empty text is not JSON, and the result carries no raw text.  No decoder
    that rejects the empty text makes the fetch layer pass every undecodable
    stdout through as raw data. *)
Lemma C8_counterexample :
  ~ (exists json_loads : string -> option json,
       json_loads "" = None /\
       forall stdout stderr,
         json_loads stdout = None ->
         _run_peer_command json_loads (Completed stdout stderr) true = RawData stdout).
Proof.
  intros (json_loads & Hempty & Hclaim).
  specialize (Hclaim "" "" Hempty).
  destruct (empty_stdout_is_not_raw json_loads "") as (H & _).
  rewrite H in Hclaim. discriminate.
Qed.

(** C8, amended. For a query whose command succeeds with a stdout that is
    not empty and cannot be decoded as JSON, the fetch layer of both clients
    returns the success dict that carries the stdout text as [data], marked
    [raw], and [query_chaincode] returns that text. *)
Theorem C8_raw_passthrough {V : Type} (json_loads : string -> option V)
    (stdout stderr : string) :
  stdout <> "" ->
  json_loads stdout = None ->
  _run_peer_command json_loads (Completed stdout stderr) true = RawData stdout /\
  wrapper_run_peer_command json_loads (Completed stdout stderr) true = RawData stdout /\
  success (_run_peer_command json_loads (Completed stdout stderr) true) = true /\
  raw (_run_peer_command json_loads (Completed stdout stderr) true) = true /\
  query_chaincode json_loads (Completed stdout stderr) = Text stdout.
Proof.
  intros Hne Hload.
  assert (Ht : truthy stdout = true) by (destruct stdout; [congruence|reflexivity]).
  unfold query_chaincode, _run_peer_command, wrapper_run_peer_command.
  rewrite Ht, Hload. simpl. repeat split.
Qed.

Lemma C8_witness :
  _run_peer_command (@loads_with json []) (Completed "Error: no such key" "") true
  = RawData "Error: no such key" /\
  wrapper_run_peer_command (@loads_with json []) (Completed "Error: no such key" "") true
  = RawData "Error: no such key" /\
  success (_run_peer_command (@loads_with json []) (Completed "Error: no such key" "") true)
  = true /\
  raw (_run_peer_command (@loads_with json []) (Completed "Error: no such key" "") true)
  = true /\
  query_chaincode (@loads_with json []) (Completed "Error: no such key" "")
  = Text "Error: no such key".
Proof.
  apply (C8_raw_passthrough (@loads_with json []) "Error: no such key" "").
  - discriminate.
  - reflexivity.
Defined.

(* ===================================================================== *)
(** * The merge: claims C7, C2 and C3 *)
(* ===================================================================== *)

(** C7, as stated, fails on the warning: a failed history query leaves no
    trace.  The ledger view of a gateway whose query for asset A fails is,
    in every part, the view of the gateway that answers the same query with
    an empty history. *)
Lemma C7_counterexample :
  gateway_a_fails "GetEvidenceHistory" ["A"]
  = CalledProcessError "Error: endorsement failure" "exit status 1" /\
  gateway_a_empty "GetEvidenceHistory" ["A"] = Completed "empty" "" /\
  query_chaincode scenario_histories (gateway_a_empty "GetEvidenceHistory" ["A"]) = Value [] /\
  view_blockchain_ledger scenario_ids scenario_histories gateway_a_fails scenario_load
    scenario_strftime scenario_int str_unused scenario_b64decode working_tools no_files
  = view_blockchain_ledger scenario_ids scenario_histories gateway_a_empty scenario_load
      scenario_strftime scenario_int str_unused scenario_b64decode working_tools no_files.
Proof. repeat split; vm_compute; reflexivity. Qed.

(** C7, amended. When the history query of an asset fails, the merge does
    not abort on it: the asset contributes no entry, the merge is the merge
    of the other asset ids, and a merge that returns contains every
    annotated entry of every asset whose query returned a history.  The
    failure itself is not recorded. *)
Theorem C7_failed_fetch_is_skipped (loads_history : string -> option (list HistoryEntry))
    (gateway : string -> list string -> Process) (ev_id stderr message : string) :
  gateway "GetEvidenceHistory" [ev_id] = CalledProcessError stderr message ->
  history_txs loads_history gateway ev_id = Ok [] /\
  (forall before after,
     merge loads_history gateway (before ++ ev_id :: after)
     = merge loads_history gateway (before ++ after)) /\
  (forall ids merged,
     merge loads_history gateway ids = Ok merged ->
     forall other history,
       In other ids -> other <> "" ->
       query_chaincode loads_history (gateway "GetEvidenceHistory" [other]) = Value history ->
       incl (annotate other history) merged).
Proof.
  intros Hfail.
  pose proof (history_txs_failed loads_history gateway ev_id stderr message Hfail) as Hskip.
  split; [exact Hskip|]. split.
  - intros before after. unfold merge. now rewrite collect_skip.
  - intros ids merged Hmerge other history Hin Hne Hq.
    destruct (merge_inv _ _ _ _ Hmerge) as (all_txs & Hc & Hs).
    assert (Hh : history_txs loads_history gateway other = Ok (annotate other history)).
    { unfold history_txs. rewrite Hq.
      destruct other; [congruence|reflexivity]. }
    intros tx Htx.
    apply (Permutation_in _ (list_sort_perm _ get_sort_key _ _ Hs)).
    exact (collect_contains _ _ _ _ Hc other _ Hin Hh tx Htx).
Qed.

Lemma C7_witness :
  history_txs scenario_histories gateway_a_fails "A" = Ok [] /\
  (forall before after,
     merge scenario_histories gateway_a_fails (before ++ "A" :: after)
     = merge scenario_histories gateway_a_fails (before ++ after)) /\
  (forall ids merged,
     merge scenario_histories gateway_a_fails ids = Ok merged ->
     forall other history,
       In other ids -> other <> "" ->
       query_chaincode scenario_histories (gateway_a_fails "GetEvidenceHistory" [other])
       = Value history ->
       incl (annotate other history) merged).
Proof.
  apply (C7_failed_fetch_is_skipped scenario_histories gateway_a_fails "A"
           "Error: endorsement failure" "exit status 1").
  reflexivity.
Defined.




(** The resolution of the float key: at 1.7e9 seconds two instants less
    than 2^-22 seconds apart have one and the same key, so that the sort
    sees them as tied. *)
Example sort_key_resolution :
  get_sort_key (at_nanos "tx-1" 1) = get_sort_key (at_nanos "tx-2" 2) /\
  get_sort_key (at_nanos "tx-1" 1)
  = Ok (KFloat (S754_finite false 7130316800000000 (-22))) /\
  get_sort_key (at_nanos "tx-3" 500)
  = Ok (KFloat (S754_finite false 7130316800000002 (-22))).
Proof. repeat split; vm_compute; reflexivity. Qed.

(** ** The float key of a timestamp of whole seconds *)

Lemma digits2_pos_size (p : positive) : digits2_pos p = Pos.size p.
Proof. induction p as [p IH|p IH|]; simpl; now rewrite ?IH. Qed.

Lemma size_iter_xO (p d : positive) :
  Pos.size (Pos.iter xO p d) = (Pos.size p + d)%positive.
Proof.
  induction d as [|d IH] using Pos.peano_ind.
  - simpl. lia.
  - rewrite Pos.iter_succ. simpl. rewrite IH. lia.
Qed.

Lemma iter_xO_lt (p q d : positive) :
  (p < q)%positive -> (Pos.iter xO p d < Pos.iter xO q d)%positive.
Proof.
  intros H. induction d as [|d IH] using Pos.peano_ind.
  - simpl. lia.
  - rewrite !Pos.iter_succ. lia.
Qed.

Lemma size_bound (p : positive) (n : Z) :
  (0 <= n)%Z -> (Z.pos p < 2 ^ n)%Z -> (Z.pos (Pos.size p) <= n)%Z.
Proof.
  intros Hn Hp.
  pose proof (Pos.size_le p) as H.
  apply Pos2Z.pos_le_pos in H. rewrite Pos2Z.inj_pow in H.
  change (Z.pos p~0) with (2 * Z.pos p)%Z in H.
  assert (H' : (2 ^ Z.pos (Pos.size p) < 2 ^ (n + 1))%Z).
  { rewrite Z.pow_add_r by lia. lia. }
  apply Z.pow_lt_mono_r_iff in H'; lia.
Qed.

Lemma size_mono (p q : positive) :
  (p <= q)%positive -> (Pos.size p <= Pos.size q)%positive.
Proof.
  intros H.
  pose proof (Pos.size_gt q) as Hq.
  apply Pos2Z.pos_lt_pos in Hq. rewrite Pos2Z.inj_pow in Hq.
  assert (Hp : (Z.pos p < 2 ^ Z.pos (Pos.size q))%Z) by lia.
  apply size_bound in Hp; lia.
Qed.

(** A mantissa of 53 digits and an exponent in range are kept as they
    are. *)
Lemma binary_round_aux_exact (sx : bool) (m : positive) (e : Z) :
  Z.pos (Pos.size m) = 53%Z -> (-1074 <= e <= 971)%Z ->
  binary_round_aux Float64.prec Float64.emax sx (Z.pos m) e loc_Exact
  = S754_finite sx m e.
Proof.
  intros Hm He.
  assert (Hs : shr_fexp Float64.prec Float64.emax (Z.pos m) e loc_Exact
               = ({| shr_m := Z.pos m; shr_r := false; shr_s := false |}, e)).
  { unfold shr_fexp. cbn [Zdigits2 shr_record_of_loc]. rewrite digits2_pos_size, Hm.
    unfold fexp, emin, Float64.prec, Float64.emax.
    replace (Z.max (53 + e - 53) (3 - 1024 - 53) - e)%Z with 0%Z by lia.
    reflexivity. }
  unfold binary_round_aux. rewrite Hs.
  cbn [shr_m loc_of_shr_record round_nearest_even]. rewrite Hs. cbn [shr_m].
  unfold Float64.prec, Float64.emax.
  destruct (Z.leb_spec e (1024 - 53)); [reflexivity|lia].
Qed.

(** The conversion of a positive integer below 2^53 is exact: the integer
    shifted to 53 digits, with the exponent that undoes the shift. *)
Lemma of_int_exact (p : positive) :
  (Z.pos p < 2 ^ 53)%Z ->
  exists m,
    binary_normalize Float64.prec Float64.emax (Z.pos p) 0 false
    = S754_finite false m (Z.pos (Pos.size p) - 53) /\
    forall q m',
      (Z.pos q < 2 ^ 53)%Z ->
      binary_normalize Float64.prec Float64.emax (Z.pos q) 0 false
      = S754_finite false m' (Z.pos (Pos.size q) - 53) ->
      Pos.size p = Pos.size q -> (p < q)%positive -> (m < m')%positive.
Proof.
  assert (Hn : forall r, (Z.pos r < 2 ^ 53)%Z ->
            binary_normalize Float64.prec Float64.emax (Z.pos r) 0 false
            = S754_finite false
                (fst (shl_align r 0 (Z.pos (Pos.size r) - 53)))
                (Z.pos (Pos.size r) - 53)
            /\ fst (shl_align r 0 (Z.pos (Pos.size r) - 53))
               = match (Z.pos (Pos.size r) - 53)%Z with
                 | Z.neg d => Pos.iter xO r d
                 | _ => r
                 end).
  { intros r Hr. pose proof (size_bound r 53 ltac:(lia) Hr) as Hsz.
    cbn [binary_normalize]. unfold binary_round.
    rewrite digits2_pos_size.
    assert (Hf : fexp Float64.prec Float64.emax (Z.pos (Pos.size r) + 0)
                 = (Z.pos (Pos.size r) - 53)%Z).
    { unfold fexp, emin, Float64.prec, Float64.emax. lia. }
    rewrite Hf. unfold shl_align. rewrite Z.sub_0_r.
    destruct (Z.pos (Pos.size r) - 53)%Z as [|d|d] eqn:Ed; [|lia|].
    - split; [|reflexivity]. cbn [fst]. apply binary_round_aux_exact; lia.
    - split; [|reflexivity]. cbn [fst]. apply binary_round_aux_exact; [|lia].
      rewrite size_iter_xO. lia. }
  intros Hp. destruct (Hn p Hp) as (Hfl & Hm).
  eexists. split; [exact Hfl|].
  intros q m' Hq Hfl' Hsize Hlt. destruct (Hn q Hq) as (Hflq & Hmq).
  assert (Em : fst (shl_align q 0 (Z.pos (Pos.size q) - 53)) = m') by congruence.
  rewrite <- Em, Hm, Hmq, Hsize.
  destruct (Z.pos (Pos.size q) - 53)%Z; [exact Hlt|exact Hlt|].
  now apply iter_xO_lt.
Qed.

(** On the integers from 0 to 2^53 the conversion keeps the order. *)
Lemma to_float_lt (a b : Z) :
  (0 <= a < b)%Z -> (b < 2 ^ 53)%Z -> Float64.ltb (to_float a) (to_float b) = true.
Proof.
  intros Hab Hb. unfold to_float.
  destruct b as [|q|q]; try lia.
  destruct (of_int_exact q Hb) as (mq & Hq & _). rewrite Hq.
  destruct a as [|p|p]; try lia; [reflexivity|].
  assert (Hp : (Z.pos p < 2 ^ 53)%Z) by lia.
  destruct (of_int_exact p Hp) as (mp & Hfp & Hcmp). rewrite Hfp.
  unfold Float64.ltb, SFltb, SFcompare.
  assert (Hsz : (Pos.size p <= Pos.size q)%positive) by (apply size_mono; lia).
  destruct (Z.compare_spec (Z.pos (Pos.size p) - 53) (Z.pos (Pos.size q) - 53)) as [E|E|E];
    [|reflexivity|lia].
  assert (Hlt : (mp < mq)%positive) by (apply (Hcmp q mq Hb Hq); lia).
  change (PosDef.Pos.compare_cont Eq mp mq) with (Pos.compare mp mq).
  now rewrite (proj2 (Pos.compare_lt_iff mp mq) Hlt).
Qed.

(** The key of a record whose timestamp has whole seconds in that range:
    the float of the seconds. *)
Lemma whole_seconds_key (tx : Tx) (x : Z) :
  whole_seconds tx = Some x -> (0 <= x < 2 ^ 53)%Z ->
  get_sort_key tx = Ok (KFloat (to_float x)).
Proof.
  unfold whole_seconds, get_sort_key.
  destruct (timestamp (record tx)) as [[seconds nanos|s]|]; try discriminate.
  destruct (Z.eqb_spec (get nanos 0%Z) 0) as [->|_]; [|discriminate].
  intros [= ->] Hx. cbn [Py.bind Float64.of_int binary_normalize].
  unfold Float64.of_int. fold (to_float x).
  destruct x as [|p|p]; try lia; [reflexivity|].
  destruct (of_int_exact p (proj2 Hx)) as (m & Hm & _).
  unfold to_float. rewrite Hm. reflexivity.
Qed.

(** The key that [get_sort_key] computes, read off the timestamp. *)
Lemma get_sort_key_of_timestamp (tx : Tx) :
  get_sort_key tx
  = match timestamp (record tx) with
    | Some (TsDict seconds nanos) =>
        n <- Float64.of_int (get nanos 0%Z) ;;
        s <- Float64.of_int (get seconds 0%Z) ;;
        Ok (KFloat (Float64.add s (Float64.div n Float64.billion)))
    | Some (TsStr text) => Ok (KStr text)
    | None => Ok (KStr "")
    end.
Proof.
  unfold get_sort_key. destruct (timestamp (record tx)) as [[seconds nanos|text]|];
    try reflexivity.
  now destruct text.
Qed.




(** The scenario of the specification: the merged order is A created at 10,
    B created at 15, A transferred at 20. *)
Example scenario_merge :
  merge scenario_histories scenario_gateway ["A"; "B"]
  = Ok [annotated "A" [a_transferred; a_created] 1 a_created;
        annotated "B" [b_created] 0 b_created;
        annotated "A" [a_transferred; a_created] 0 a_transferred] /\
  map tx_action [annotated "A" [a_transferred; a_created] 1 a_created;
                 annotated "B" [b_created] 0 b_created;
                 annotated "A" [a_transferred; a_created] 0 a_transferred]
  = [CREATED; CREATED; TRANSFERRED].
Proof. split; vm_compute; reflexivity. Qed.

(* ===================================================================== *)
(** * The display chain: claim C4 *)
(* ===================================================================== *)

(** C4. In a rendered ledger the first block holds as previous hash the
    data hash of the genesis anchor (the 56-zero placeholder when the
    resolution failed), and every later block holds the transaction id of
    the block before it; the printed columns are the first 52 characters of
    these values. *)
Theorem C4_display_chain
    (loads_ids : string -> option (list string))
    (loads_history : string -> option (list HistoryEntry))
    (gateway : string -> list string -> Process)
    (json_load : string -> result json) (strftime_local : Z -> result string)
    (int_of_str : string -> result Z) (str_of : json -> string)
    (b64decode : string -> result string) (tools : Tools)
    (fs fs' : FileSystem) (found assets total : nat) (box : GenesisBox)
    (blocks : list Block) :
  view_blockchain_ledger loads_ids loads_history gateway json_load strftime_local
    int_of_str str_of b64decode tools fs
  = (Ok (Ledger found assets box blocks total), fs') ->
  exists all_txs genesis_hash first rest,
    merge loads_history gateway
      (ids_of (query_chaincode loads_ids (gateway "GetAllEvidenceIDs" []))) = Ok all_txs /\
    genesis_hash_of
      (fst (get_genesis_block json_load strftime_local int_of_str str_of b64decode tools fs))
    = JStr genesis_hash /\
    blocks = first :: rest /\
    map b_tx_id blocks = map tx_id_of all_txs /\
    b_prev_hash first = genesis_hash /\
    (forall i b b', nth_error blocks i = Some b -> nth_error blocks (S i) = Some b' ->
                    b_prev_hash b' = b_tx_id b) /\
    printed_prev_hash first = g_data_hash box /\
    (forall i b b', nth_error blocks i = Some b -> nth_error blocks (S i) = Some b' ->
                    printed_prev_hash b' = printed_tx_id b).
Proof.
  intros Hview.
  destruct (view_blockchain_ledger_inv _ _ _ _ _ _ _ _ _ _ _ _ _ _ _ _ Hview)
    as (all_txs & genesis_hash & Hmerge & Hne & Hhash & Hrender & Hbox & _).
  destruct (render_fields _ _ _ _ Hrender) as (Hids & _ & _).
  destruct (render_links _ _ _ _ Hrender) as (Hfirst & Hnext).
  destruct blocks as [|first rest].
  { destruct all_txs; [congruence|discriminate]. }
  exists all_txs, genesis_hash, first, rest.
  repeat split; auto.
  - now apply (Hfirst first rest).
  - unfold printed_prev_hash. rewrite (Hfirst first rest eq_refl), Hbox. reflexivity.
  - intros i b b' Hb Hb'. unfold printed_prev_hash, printed_tx_id.
    now rewrite (Hnext i b b' Hb Hb').
Qed.

Lemma C4_witness :
  exists all_txs genesis_hash first rest,
    merge scenario_histories scenario_gateway
      (ids_of (query_chaincode scenario_ids (scenario_gateway "GetAllEvidenceIDs" [])))
    = Ok all_txs /\
    genesis_hash_of
      (fst (get_genesis_block scenario_load scenario_strftime scenario_int str_unused
              scenario_b64decode working_tools no_files))
    = JStr genesis_hash /\
    scenario_blocks = first :: rest /\
    map b_tx_id scenario_blocks = map tx_id_of all_txs /\
    b_prev_hash first = genesis_hash /\
    (forall i b b', nth_error scenario_blocks i = Some b ->
                    nth_error scenario_blocks (S i) = Some b' ->
                    b_prev_hash b' = b_tx_id b) /\
    printed_prev_hash first = g_data_hash scenario_box /\
    (forall i b b', nth_error scenario_blocks i = Some b ->
                    nth_error scenario_blocks (S i) = Some b' ->
                    printed_prev_hash b' = printed_tx_id b).
Proof.
  apply (C4_display_chain scenario_ids scenario_histories scenario_gateway scenario_load
           scenario_strftime scenario_int str_unused scenario_b64decode working_tools
           no_files no_files 3 2 3 scenario_box scenario_blocks).
  vm_compute. reflexivity.
Defined.

(* ===================================================================== *)
(** * The genesis anchor: claims C5 and C6 *)
(* ===================================================================== *)


Section LaunchProperties.

Variable json_load : string -> result json.
Variable strftime_local : Z -> result string.
Variable int_of_str : string -> result Z.
Variable str_of : json -> string.
Variable b64decode : string -> result string.

(** When the two commands start, the resolver returns, and what it returns
    and leaves is what [get_genesis_block] computes. *)
Lemma get_genesis_block_launch_started (launch : Launch) (tools : Tools) (fs : FileSystem) :
  peer_starts launch = true -> configtxlator_starts launch = true ->
  get_genesis_block_launch json_load strftime_local int_of_str str_of b64decode
    launch tools fs
  = (Ok (fst (get_genesis_block json_load strftime_local int_of_str str_of b64decode
                tools fs)),
     snd (get_genesis_block json_load strftime_local int_of_str str_of b64decode tools fs)).
Proof.
  intros Hp Hc. unfold get_genesis_block_launch, get_genesis_block. rewrite Hp, Hc.
  cbn [negb].
  destruct (fetch_output tools) as [block|]; simpl; [|reflexivity].
  destruct (configtxlator_exists tools); simpl; [|reflexivity].
  destruct (decode_run tools) as [out err|err msg]; simpl.
  - destruct (decode_output tools) as [text|]; simpl; [|reflexivity].
    destruct (json_load text) as [block_data|[]]; simpl; try reflexivity.
    destruct (extract _ _ _ _ block_data); reflexivity.
  - destruct (contains _ _); reflexivity.
Qed.

(** The resolver raises exactly when a command that it runs cannot be
    started, and then [OSError]. *)
Lemma get_genesis_block_launch_raises (launch : Launch) (tools : Tools) (fs : FileSystem)
    (e : exn) :
  fst (get_genesis_block_launch json_load strftime_local int_of_str str_of b64decode
         launch tools fs) = Raise e
  <-> e = OSError /\
      (peer_starts launch = false \/
       (fetch_output tools <> None /\ configtxlator_exists tools = true /\
        configtxlator_starts launch = false)).
Proof.
  destruct (peer_starts launch) eqn:Hp.
  - destruct (configtxlator_starts launch) eqn:Hc.
    + rewrite (get_genesis_block_launch_started launch tools fs Hp Hc). cbn [fst].
      split; [discriminate|]. intros (_ & [H|(_ & _ & H)]); discriminate.
    + unfold get_genesis_block_launch. rewrite Hp, Hc. cbn [negb].
      destruct (fetch_output tools) as [block|]; simpl.
      * destruct (configtxlator_exists tools); simpl.
        -- split; [intros [= <-]|intros (-> & _); reflexivity].
           split; [reflexivity|]. right. repeat split; congruence.
        -- split; [discriminate|]. intros (_ & [H|(_ & H & _)]); discriminate.
      * split; [discriminate|]. intros (_ & [H|(H & _)]); [discriminate|congruence].
  - unfold get_genesis_block_launch. rewrite Hp. cbn [negb fst].
    split; [intros [= <-]; auto|intros (-> & _); reflexivity].
Qed.

(** The two temporary files after the call. *)
Lemma get_genesis_block_launch_files (launch : Launch) (tools : Tools) (fs : FileSystem) :
  let after :=
    snd (get_genesis_block_launch json_load strftime_local int_of_str str_of b64decode
           launch tools fs) in
  json_file after = None /\
  block_file after
  = if peer_starts launch then
      match fetch_output tools with
      | Some block =>
          if configtxlator_exists tools && configtxlator_starts launch then None
          else Some block
      | None => None
      end
    else None.
Proof.
  cbv zeta. destruct (peer_starts launch) eqn:Hp.
  - destruct (configtxlator_starts launch) eqn:Hc.
    + rewrite (get_genesis_block_launch_started launch tools fs Hp Hc). cbn [snd].
      destruct (get_genesis_block_files json_load strftime_local int_of_str str_of
                  b64decode tools fs) as (Hj & Hb).
      split; [exact Hj|]. rewrite Hb. now rewrite andb_true_r.
    + unfold get_genesis_block_launch. rewrite Hp, Hc. cbn [negb].
      destruct (fetch_output tools) as [block|]; simpl; [|auto].
      destruct (configtxlator_exists tools); simpl; auto.
  - unfold get_genesis_block_launch. rewrite Hp. cbn [negb snd]. auto.
Qed.

Lemma extract_hash_returns (block_data : json) :
  header_is_dict block_data = true ->
  exists data_hash, extract_hash b64decode block_data = Ok data_hash.
Proof.
  unfold header_is_dict, extract_hash.
  destruct block_data as [ | | | | |members]; try discriminate.
  cbn [dict_get Py.bind].
  destruct (get (lookup "header" members) (JObj [])) as [ | | | | |h]; try discriminate.
  intros _. cbn [dict_get Py.bind].
  destruct (get (lookup "data_hash" h) (JStr "")) as [ | | |d| | ]; eauto.
  destruct (b64decode d); eauto.
Qed.

Lemma extract_hash_raises (block_data : json) :
  header_is_dict block_data = false ->
  extract_hash b64decode block_data = Raise AttributeError.
Proof.
  unfold header_is_dict, extract_hash.
  destruct block_data as [ | | | | |members]; try reflexivity.
  cbn [dict_get Py.bind].
  destruct (get (lookup "header" members) (JObj [])); try reflexivity; discriminate.
Qed.

End LaunchProperties.



(** The ledger view of the scenario when the fetch of the genesis block
    fails: the chain starts from the 56 zeros. *)
Example scenario_with_failed_fetch :
  exists rest,
    scenario_view fetch_fails
    = (Ok (Ledger 3 2
             {| g_timestamp := "Fetch Failed";
                g_data_hash := repeat_char "0" 52;
                g_prev_hash := repeat_char "0" 52 |}
             ({| b_action := CREATED; b_formatted_time := "1970-01-01 00:00:10";
                 b_tx_id := "tx-a1"; b_prev_hash := repeat_char "0" 56;
                 b_asset_id := "A"; b_details := scenario_details "alice" |} :: rest) 3),
       no_files).
Proof. eexists. vm_compute. reflexivity. Qed.

(** C6 fails on the path of the missing decode tool: the fetch has written
    [genesis.block], [configtxlator] does not exist, and the resolver
    returns "Tool Missing" with the block file still in place. *)
Theorem C6_tool_missing_leaves_block_file :
  get_genesis_block scenario_load scenario_strftime scenario_int str_unused
    scenario_b64decode tool_missing no_files
  = (failed "Tool Missing", {| block_file := Some "block 0"; json_file := None |}).
Proof. vm_compute. reflexivity. Qed.

(* ===================================================================== *)
(** * Further properties: the printed texts *)
(* ===================================================================== *)

Lemma length_slice_to (n : nat) (s : string) :
  String.length (slice_to n s) = Nat.min n (String.length s).
Proof.
  revert s. induction n as [|n IH]; intros [|c s]; simpl; auto.
Qed.

Lemma string_length_app (a b : string) :
  String.length (a ++ b) = String.length a + String.length b.
Proof. induction a as [|c a IH]; simpl; auto. Qed.

Lemma shorten_bounded (s : string) :
  String.length (shorten s) <= 50 /\ (String.length s <= 50 -> shorten s = s).
Proof.
  unfold shorten. destruct (Nat.ltb_spec 50 (String.length s)) as [H|H].
  - split; [|lia]. rewrite string_length_app, length_slice_to.
    change (String.length "...") with 3. lia.
  - split; [lia|reflexivity].
Qed.

Lemma tx_action_deleted (tx : Tx) :
  tx_action tx = DELETED <-> isDelete (record tx) = true.
Proof.
  unfold tx_action. destruct (isDelete (record tx)); [tauto|].
  destruct (String.eqb _ _); [split; discriminate|].
  destruct (prev_owner tx) as [po|]; [|split; discriminate].
  destruct (negb _); split; discriminate.
Qed.

Lemma history_action_deleted (data : list HistoryEntry) (i : nat) (item : HistoryEntry) :
  history_action data i item = DELETED <-> isDelete item = true.
Proof.
  unfold history_action. destruct (isDelete item); [tauto|].
  destruct (String.eqb _ _); [split; discriminate|].
  destruct (nth_error data (i + 1)) as [older|]; [|split; discriminate].
  destruct (negb _); split; discriminate.
Qed.

Section DisplayProperties.

Variable strftime_local : Z -> result string.

Lemma render_details (prev_hash : string) (all_txs : list Tx) (blocks : list Block) :
  render strftime_local prev_hash all_txs = Ok blocks ->
  map b_details blocks = map ledger_details all_txs.
Proof.
  revert prev_hash blocks.
  induction all_txs as [|tx rest IH]; intros prev_hash blocks; simpl.
  - intros E; inversion E. auto.
  - destruct (format_time _ _ _) as [t|e]; simpl; try discriminate.
    destruct (render strftime_local _ rest) as [blocks'|e] eqn:Er; simpl; try discriminate.
    intros E; inversion E; subst; clear E. cbn [map b_details].
    rewrite (IH _ _ Er). f_equal.
    unfold ledger_details. now destruct (isDelete (record tx)).
Qed.

Lemma map_eq_Forall2 {A B C : Type} (f : A -> C) (g : B -> C) (l : list A) (l' : list B) :
  map f l = map g l' -> Forall2 (fun x y => f x = g y) l l'.
Proof.
  revert l'. induction l as [|x l IH]; intros [|y l']; simpl; intros E;
    try discriminate; constructor.
  - now injection E.
  - apply IH. now injection E.
Qed.

(** X1. In every ledger that the rendering loop prints, the four columns of
    a block are at most 52 characters wide, and the description and the
    location printed below it are at most 50 characters long: a longer text
    is cut to its first 47 characters followed by three dots, a text of up
    to 50 characters is printed as it is. *)
Theorem X1_printed_texts_are_bounded (prev_hash : string) (all_txs : list Tx)
    (blocks : list Block) :
  render strftime_local prev_hash all_txs = Ok blocks ->
  Forall (fun b =>
            String.length (printed_tx_id b) <= 52 /\
            String.length (printed_prev_hash b) <= 52 /\
            String.length (printed_asset_id b) <= 52 /\
            forall d, b_details b = Some d ->
                      String.length (d_description d) <= 50 /\
                      String.length (d_location d) <= 50) blocks /\
  (forall s, String.length s <= 50 -> shorten s = s) /\
  (forall s, 50 < String.length s ->
             shorten s = (slice_to 47 s ++ "...")%string /\ String.length (shorten s) = 50).
Proof.
  intros E. split; [|split].
  - apply render_details in E. apply map_eq_Forall2 in E.
    induction E as [|b tx blocks' rest Hd _ IH]; constructor; [|exact IH].
    unfold printed_tx_id, printed_prev_hash, printed_asset_id.
    rewrite !length_slice_to.
    split; [lia|]. split; [lia|]. split; [lia|].
    intros d Hb. rewrite Hb in Hd. unfold ledger_details in Hd.
    destruct (isDelete (record tx)); [discriminate|].
    injection Hd as ->. cbn [d_description d_location].
    split; apply shorten_bounded.
  - intros s. apply shorten_bounded.
  - intros s H. unfold shorten.
    destruct (Nat.ltb_spec 50 (String.length s)) as [_|H']; [|lia].
    split; [reflexivity|].
    rewrite string_length_app, length_slice_to.
    change (String.length "...") with 3. lia.
Qed.

(** X2. In every ledger that the rendering loop prints, the blocks follow
    the merged records one to one, and a block comes without details
    exactly when its action is DELETED. *)
Theorem X2_details_absent_iff_deleted (prev_hash : string) (all_txs : list Tx)
    (blocks : list Block) :
  render strftime_local prev_hash all_txs = Ok blocks ->
  List.length blocks = List.length all_txs /\
  Forall (fun b => b_details b = None <-> b_action b = DELETED) blocks.
Proof.
  intros E.
  pose proof (render_details _ _ _ E) as Hd.
  destruct (render_fields strftime_local _ _ _ E) as (_ & Ha & _).
  split.
  - rewrite <- (length_map b_details blocks), Hd. apply length_map.
  - clear E. revert blocks Hd Ha.
    induction all_txs as [|tx rest IH]; intros [|b blocks]; simpl; intros Hd Ha;
      try discriminate; constructor.
    + injection Hd as Hd _. injection Ha as Ha _. rewrite Hd, Ha.
      rewrite tx_action_deleted. unfold ledger_details.
      destruct (isDelete (record tx)); split; congruence.
    + injection Hd as _ Hd. injection Ha as _ Ha. now apply IH.
Qed.

End DisplayProperties.

(* ===================================================================== *)
(** * Further properties: the history view *)
(* ===================================================================== *)

Lemma history_block_inv (strftime_local : Z -> result string) (data : list HistoryEntry)
    (i : nat) (item : HistoryEntry) (b : HistoryBlock) :
  history_block strftime_local data i item = Ok b ->
  h_action b = history_action data i item /\
  h_tx_id b = get (txId item) "N/A" /\
  (h_details b = None <-> isDelete item = true) /\
  (forall d, h_details b = Some d ->
             String.length (d_description d) <= 50 /\
             String.length (d_location d) <= 50 /\
             forall t, d_tags d = Some t -> String.length t <= 50).
Proof.
  unfold history_block.
  destruct (format_time _ _ _) as [t|e]; cbn [Py.bind]; [|discriminate].
  intros E. injection E as <-. cbn [h_action h_tx_id h_details].
  split; [reflexivity|]. split; [reflexivity|].
  destruct (isDelete item); cbn [negb].
  - split; [tauto|]. intros d; discriminate.
  - split; [split; discriminate|]. intros d Hd. injection Hd as <-.
    cbn [d_description d_location d_tags].
    split; [apply shorten_bounded|]. split; [apply shorten_bounded|].
    intros t' Ht. injection Ht as <-. apply shorten_bounded.
Qed.

Lemma length_enumerate {A : Type} (l : list A) : List.length (enumerate l) = List.length l.
Proof. unfold enumerate. rewrite length_combine, length_seq. lia. Qed.

(** X3. When [get_history] prints a history, it prints one block for each
    record of the list it was given and reports that number as the total;
    a block comes without details exactly when its action is DELETED; and
    the description, the location and the tags printed below a block are at
    most 50 characters long. *)
Theorem X3_history_view_blocks (strftime_local : Z -> result string)
    (data : list HistoryEntry) (blocks : list HistoryBlock) (total_records : nat) :
  get_history strftime_local (Value data) = Ok (History blocks total_records) ->
  total_records = List.length data /\
  List.length blocks = List.length data /\
  Forall (fun b => h_details b = None <-> h_action b = DELETED) blocks /\
  Forall (fun b => forall d, h_details b = Some d ->
                     String.length (d_description d) <= 50 /\
                     String.length (d_location d) <= 50 /\
                     forall t, d_tags d = Some t -> String.length t <= 50) blocks.
Proof.
  unfold get_history. destruct data as [|first rest]; [discriminate|].
  set (data := first :: rest).
  destruct (mapM _ (enumerate data)) as [bs|e] eqn:Em; cbn [Py.bind]; [|discriminate].
  intros E. injection E as -> <-.
  apply mapM_Forall2 in Em.
  split; [reflexivity|]. split.
  - rewrite <- (Forall2_length Em). apply length_enumerate.
  - clear -Em. split.
    + induction Em as [|ii b l bs Hb _ IH]; constructor; [|exact IH].
      destruct (history_block_inv _ _ _ _ _ Hb) as (Ha & _ & Hd & _).
      rewrite Ha, history_action_deleted. exact Hd.
    + induction Em as [|ii b l bs Hb _ IH]; constructor; [|exact IH].
      apply (history_block_inv _ _ _ _ _ Hb).
Qed.

(** X8. The oldest record of a history, the last one of the list that the
    gateway delivers, has no older record to compare its owner with: its
    action is never TRANSFERRED, in the ledger view and in the history
    view alike. *)
Theorem X8_oldest_record_is_never_transferred (ev_id : string)
    (history : list HistoryEntry) (e : HistoryEntry) :
  let data := history ++ [e] in
  let i := List.length history in
  nth_error (annotate ev_id data) i = Some (annotated ev_id data i e) /\
  tx_action (annotated ev_id data i e) <> TRANSFERRED /\
  history_action data i e <> TRANSFERRED.
Proof.
  intros data i.
  assert (Hi : nth_error data i = Some e).
  { unfold data, i. rewrite nth_error_app2 by lia. now rewrite Nat.sub_diag. }
  assert (Hn : nth_error data (i + 1) = None).
  { apply nth_error_None. unfold data, i. rewrite length_app. simpl. lia. }
  split; [|split].
  - rewrite nth_error_annotate, Hi. reflexivity.
  - rewrite tx_action_annotated, Hn. unfold classify, owner_changed.
    destruct (isDelete e); [discriminate|].
    destruct (String.eqb _ _); discriminate.
  - unfold history_action. rewrite Hn.
    destruct (isDelete e); [discriminate|].
    destruct (String.eqb _ _); discriminate.
Qed.

(* ===================================================================== *)
(** * Further properties: the ledger view *)
(* ===================================================================== *)

Lemma map_pair {A B C : Type} (f : A -> B) (g : A -> C) (l : list A) :
  map (fun x => (f x, g x)) l = combine (map f l) (map g l).
Proof. induction l as [|x l IH]; simpl; [reflexivity|now rewrite IH]. Qed.

Lemma Forall2_In_l {A B : Type} (R : A -> B -> Prop) (l : list A) (l' : list B) (x : A) :
  Forall2 R l l' -> In x l -> exists y, R x y.
Proof.
  induction 1 as [|a b l l' Hab _ IH]; simpl; [tauto|].
  intros [<-|Hx]; [eauto|auto].
Qed.

Section LedgerProperties.

Variable loads_ids : string -> option (list string).
Variable loads_history : string -> option (list HistoryEntry).
Variable gateway : string -> list string -> Process.
Variable json_load : string -> result json.
Variable strftime_local : Z -> result string.
Variable int_of_str : string -> result Z.
Variable str_of : json -> string.
Variable b64decode : string -> result string.
Variable tools : Tools.

Lemma view_blockchain_ledger_counts (fs fs' : FileSystem) (found assets total : nat)
    (box : GenesisBox) (blocks : list Block) :
  view_blockchain_ledger loads_ids loads_history gateway json_load strftime_local
    int_of_str str_of b64decode tools fs
  = (Ok (Ledger found assets box blocks total), fs') ->
  total = found /\
  assets = answer_len (query_chaincode loads_ids (gateway "GetAllEvidenceIDs" [])) /\
  fs' = snd (get_genesis_block json_load strftime_local int_of_str str_of b64decode tools fs).
Proof.
  unfold view_blockchain_ledger. cbv zeta.
  destruct (negb (answer_truthy _)); [discriminate|].
  destruct (merge _ _ _) as [all_txs|e]; [|discriminate].
  destruct (get_genesis_block _ _ _ _ _ _ _) as [genesis_info fs1]; cbn [snd].
  intros E.
  assert (E' :
    match genesis_hash_of genesis_info with
    | JStr genesis_hash =>
        match render strftime_local genesis_hash all_txs with
        | Ok blocks0 =>
            (Ok (Ledger (List.length all_txs)
                   (answer_len (query_chaincode loads_ids (gateway "GetAllEvidenceIDs" [])))
                   {| g_timestamp := anchor_timestamp genesis_info;
                      g_data_hash := slice_to 52 genesis_hash;
                      g_prev_hash := repeat_char "0" 52 |}
                   blocks0 (List.length all_txs)), fs1)
        | Raise e => (Raise e, fs1)
        end
    | _ => (Raise TypeError, fs1)
    end = (Ok (Ledger found assets box blocks total), fs')).
  { destruct all_txs; [discriminate|exact E]. }
  clear E.
  destruct (genesis_hash_of genesis_info) as [ | | |genesis_hash| | ]; try discriminate.
  destruct (render strftime_local genesis_hash all_txs) as [blocks0|e]; [|discriminate].
  injection E' as E1 E2 E3 E4 E5 E6. subst. auto.
Qed.

Lemma no_history_txs (ev_id : string) :
  no_history loads_history gateway ev_id ->
  history_txs loads_history gateway ev_id = Ok [].
Proof.
  intros [->|[(stderr & message & H)|[(stderr & H)|(stdout & stderr & H & Hl)]]].
  - reflexivity.
  - exact (history_txs_failed _ _ _ _ _ H).
  - unfold history_txs, query_chaincode, _run_peer_command. rewrite H.
    now destruct ev_id.
  - unfold history_txs, query_chaincode, _run_peer_command. rewrite H.
    destruct ev_id; [reflexivity|]. destruct stdout; [reflexivity|].
    cbn [truthy negb andb]. rewrite Hl. reflexivity.
Qed.

Lemma collect_nothing (ids : list string) :
  Forall (no_history loads_history gateway) ids ->
  collect loads_history gateway ids = Ok [].
Proof.
  induction 1 as [|ev_id ids H _ IH]; [reflexivity|].
  rewrite collect_cons, (no_history_txs _ H), IH. reflexivity.
Qed.

(** X4. A rendered ledger shows every collected record once: the blocks,
    taken with their asset id and transaction id, are a rearrangement of the
    records of the histories that the queries returned, in the order of the
    asset ids; the two counts that are printed are the number of blocks and
    the number of asset ids; and the temporary files are those that the
    genesis resolution leaves. *)
Theorem X4_ledger_shows_every_collected_record (fs fs' : FileSystem)
    (found assets total : nat) (box : GenesisBox) (blocks : list Block) :
  view_blockchain_ledger loads_ids loads_history gateway json_load strftime_local
    int_of_str str_of b64decode tools fs
  = (Ok (Ledger found assets box blocks total), fs') ->
  let all_evidence_ids := query_chaincode loads_ids (gateway "GetAllEvidenceIDs" []) in
  exists per_asset,
    mapM (history_txs loads_history gateway) (ids_of all_evidence_ids) = Ok per_asset /\
    Permutation (map (fun tx => (asset_id tx, tx_id_of tx)) (List.concat per_asset))
                (map (fun b => (b_asset_id b, b_tx_id b)) blocks) /\
    found = List.length blocks /\
    total = List.length blocks /\
    assets = answer_len all_evidence_ids /\
    fs' = snd (get_genesis_block json_load strftime_local int_of_str str_of b64decode
                 tools fs).
Proof.
  intros E all_evidence_ids.
  destruct (view_blockchain_ledger_counts _ _ _ _ _ _ _ E) as (Ht & Ha & Hf).
  destruct (view_blockchain_ledger_inv _ _ _ _ _ _ _ _ _ _ _ _ _ _ _ _ E)
    as (all_txs & genesis_hash & Hm & _ & _ & Hr & _ & Hfound).
  destruct (merge_inv _ _ _ _ Hm) as (collected & Hc & Hs).
  unfold collect in Hc.
  destruct (mapM _ _) as [per_asset|e] eqn:Em; [|discriminate].
  cbn [Py.bind] in Hc. injection Hc as <-.
  exists per_asset. split; [reflexivity|].
  destruct (render_fields _ _ _ _ Hr) as (Hid & _ & Has).
  assert (Hlen : List.length blocks = List.length all_txs).
  { rewrite <- (length_map b_tx_id blocks), Hid. apply length_map. }
  split; [|subst all_evidence_ids; repeat split; congruence].
  rewrite (map_pair b_asset_id b_tx_id), Has, Hid, <- (map_pair asset_id tx_id_of).
  apply Permutation_map. exact (list_sort_perm _ _ _ _ Hs).
Qed.

(** X5. When the collected records carry timestamps of both kinds, one a
    seconds-and-nanos object and one a text or none at all, and every sort
    key computes, the sort raises [TypeError]: the ledger view ends with that
    exception, before the genesis block is resolved, so the temporary files
    are untouched. *)
Theorem X5_mixed_timestamp_kinds_raise (fs : FileSystem) (all_txs : list Tx)
    (keys : list SortKey) (x y : Tx) (seconds nanos : option Z) :
  let all_evidence_ids := query_chaincode loads_ids (gateway "GetAllEvidenceIDs" []) in
  answer_truthy all_evidence_ids = true ->
  collect loads_history gateway (ids_of all_evidence_ids) = Ok all_txs ->
  mapM get_sort_key all_txs = Ok keys ->
  In x all_txs -> In y all_txs ->
  timestamp (record x) = Some (TsDict seconds nanos) ->
  (forall s n, timestamp (record y) <> Some (TsDict s n)) ->
  view_blockchain_ledger loads_ids loads_history gateway json_load strftime_local
    int_of_str str_of b64decode tools fs
  = (Raise TypeError, fs).
Proof.
  intros all_evidence_ids Ht Hc Hk Hx Hy Tx Ty.
  pose proof (mapM_Forall2 _ _ _ Hk) as Hf.
  destruct (Forall2_In_l _ _ _ _ Hf Hx) as (kx & Hkx).
  destruct (Forall2_In_l _ _ _ _ Hf Hy) as (ky & Hky).
  assert (Kx : exists f, kx = KFloat f).
  { unfold get_sort_key in Hkx. rewrite Tx in Hkx.
    destruct (Float64.of_int (get nanos 0%Z)); cbn [Py.bind] in Hkx; [|discriminate].
    destruct (Float64.of_int (get seconds 0%Z)); cbn [Py.bind] in Hkx; [|discriminate].
    injection Hkx as <-. eauto. }
  assert (Ky : exists s, ky = KStr s).
  { unfold get_sort_key in Hky.
    destruct (timestamp (record y)) as [[s n|s]|].
    - now destruct (Ty s n).
    - injection Hky as <-. eauto.
    - injection Hky as <-. eauto. }
  destruct Kx as (f & ->). destruct Ky as (s & ->).
  assert (Hs : list_sort get_sort_key all_txs = Raise TypeError).
  { exact (list_sort_mixed_raises _ _ _ _ _ _ _ _ Hk Hx Hy Hkx Hky eq_refl). }
  unfold view_blockchain_ledger. cbv zeta. fold all_evidence_ids.
  rewrite Ht. cbn [negb]. unfold merge. fold all_evidence_ids. rewrite Hc.
  cbn [Py.bind]. rewrite Hs. reflexivity.
Qed.

(** X6. When the history query of one listed asset succeeds with a stdout
    that is not JSON, the ledger view does not skip that asset: the loop
    raises [TypeError] on the raw text, and the view ends with that
    exception, the temporary files untouched. *)
Theorem X6_raw_history_aborts_the_view (fs : FileSystem) (ev_id stdout stderr : string) :
  let all_evidence_ids := query_chaincode loads_ids (gateway "GetAllEvidenceIDs" []) in
  answer_truthy all_evidence_ids = true ->
  In ev_id (ids_of all_evidence_ids) ->
  ev_id <> EmptyString ->
  gateway "GetEvidenceHistory" [ev_id] = Completed stdout stderr ->
  stdout <> EmptyString ->
  loads_history stdout = None ->
  view_blockchain_ledger loads_ids loads_history gateway json_load strftime_local
    int_of_str str_of b64decode tools fs
  = (Raise TypeError, fs).
Proof.
  intros all_evidence_ids Ht Hin Hid Hrun Hout Hload.
  pose proof (history_txs_raw_text _ _ _ _ _ Hid Hout Hload Hrun) as Hh.
  pose proof (collect_raises _ _ _ _ Hin Hh) as Hc.
  unfold view_blockchain_ledger. cbv zeta. fold all_evidence_ids.
  rewrite Ht. cbn [negb]. unfold merge. rewrite Hc. reflexivity.
Qed.

(** X7. When the id query returns ids but no asset contributes a record
    (every id is empty, or its history query fails, prints nothing, or
    prints the empty list), the view reports that there are no transactions
    and does not resolve the genesis block: the temporary files are
    untouched. *)
Theorem X7_no_record_no_genesis_resolution (fs : FileSystem) :
  let all_evidence_ids := query_chaincode loads_ids (gateway "GetAllEvidenceIDs" []) in
  answer_truthy all_evidence_ids = true ->
  Forall (no_history loads_history gateway) (ids_of all_evidence_ids) ->
  view_blockchain_ledger loads_ids loads_history gateway json_load strftime_local
    int_of_str str_of b64decode tools fs
  = (Ok NoTransactions, fs).
Proof.
  intros all_evidence_ids Ht Hall.
  unfold view_blockchain_ledger. cbv zeta. fold all_evidence_ids.
  rewrite Ht. cbn [negb]. unfold merge. rewrite (collect_nothing _ Hall).
  reflexivity.
Qed.

End LedgerProperties.

(* ===================================================================== *)
(** * Further properties: the genesis anchor *)
(* ===================================================================== *)

Lemma occurs_replace_char (a b : ascii) (s : string) :
  a <> b -> occurs a (replace_char a b s) = false.
Proof.
  intros Hab. induction s as [|c s IH]; simpl; [reflexivity|].
  rewrite IH, orb_false_r.
  destruct (Ascii.eqb_spec c a) as [->|Hc].
  - apply Ascii.eqb_neq. congruence.
  - now apply Ascii.eqb_neq.
Qed.

Lemma occurs_split_head_sep (sep : ascii) (s : string) :
  occurs sep (split_head sep s) = false.
Proof.
  induction s as [|c s IH]; simpl; [reflexivity|].
  destruct (Ascii.eqb c sep) eqn:E; simpl; [reflexivity|].
  now rewrite E, IH.
Qed.

Lemma occurs_split_head (c sep : ascii) (s : string) :
  occurs c s = false -> occurs c (split_head sep s) = false.
Proof.
  induction s as [|c' s IH]; simpl; [reflexivity|].
  intros H. apply orb_false_elim in H as (H1 & H2).
  destruct (Ascii.eqb c' sep); simpl; [reflexivity|].
  now rewrite H1, IH.
Qed.

Lemma length_split_head (sep : ascii) (s : string) :
  String.length (split_head sep s) <= String.length s.
Proof.
  induction s as [|c s IH]; simpl; [lia|].
  destruct (Ascii.eqb c sep); simpl; lia.
Qed.

Lemma length_replace_char (a b : ascii) (s : string) :
  String.length (replace_char a b s) = String.length s.
Proof. induction s as [|c s IH]; simpl; [reflexivity|now rewrite IH]. Qed.

Lemma small_N (n : N) :
  (n < 16)%N -> In n [0; 1; 2; 3; 4; 5; 6; 7; 8; 9; 10; 11; 12; 13; 14; 15]%N.
Proof. intros H. simpl. lia. Qed.

Lemma hex_digit_is_hex (n : N) : (n < 16)%N -> is_hex_digit (hex_digit n) = true.
Proof.
  intros H. apply small_N in H. simpl in H.
  repeat (destruct H as [<-|H]; [reflexivity|]). destruct H.
Qed.

Lemma hex_digit_inj (a b : N) :
  (a < 16)%N -> (b < 16)%N -> hex_digit a = hex_digit b -> a = b.
Proof.
  intros Ha Hb. apply small_N in Ha. apply small_N in Hb. simpl in Ha, Hb.
  repeat (destruct Ha as [<-|Ha];
          [repeat (destruct Hb as [<-|Hb]; [simpl; congruence|]); destruct Hb|]).
  destruct Ha.
Qed.

Lemma hex_pair_inj (c c' : ascii) :
  hex_digit (N.div (N_of_ascii c) 16) = hex_digit (N.div (N_of_ascii c') 16) ->
  hex_digit (N.modulo (N_of_ascii c) 16) = hex_digit (N.modulo (N_of_ascii c') 16) ->
  c = c'.
Proof.
  intros Hq Hr.
  pose proof (N_ascii_bounded c) as Bc. pose proof (N_ascii_bounded c') as Bc'.
  apply hex_digit_inj in Hq;
    [|apply N.Div0.div_lt_upper_bound; lia|apply N.Div0.div_lt_upper_bound; lia].
  apply hex_digit_inj in Hr; [|apply N.mod_lt; lia|apply N.mod_lt; lia].
  rewrite <- (ascii_N_embedding c), <- (ascii_N_embedding c').
  f_equal.
  rewrite (N.div_mod (N_of_ascii c) 16), (N.div_mod (N_of_ascii c') 16) by lia.
  now rewrite Hq, Hr.
Qed.

Section AnchorProperties.

Variable json_load : string -> result json.
Variable strftime_local : Z -> result string.
Variable int_of_str : string -> result Z.
Variable str_of : json -> string.
Variable b64decode : string -> result string.

Lemma extract_timestamp_chain (block_data : json) :
  extract_timestamp strftime_local int_of_str str_of block_data
  = try_except
      (ts_raw <- channel_timestamp block_data ;;
       match ts_raw with
       | JObj _ =>
           s <- dict_get ts_raw "seconds" (JNum 0) ;;
           seconds <- py_int int_of_str s ;;
           strftime_local seconds
       | _ => Ok (split_head "." (replace_char "T" " " (py_str str_of ts_raw)))
       end)
      handled
      (fun _ => Ok "Unknown Format").
Proof.
  unfold extract_timestamp, channel_timestamp.
  destruct (subscript block_data "data") as [d|e]; cbn [Py.bind]; [|reflexivity].
  destruct (subscript d "data") as [dd|e]; cbn [Py.bind]; [|reflexivity].
  destruct (subscript0 dd) as [env|e]; cbn [Py.bind]; [|reflexivity].
  destruct (subscript env "payload") as [payload|e]; cbn [Py.bind]; [|reflexivity].
  destruct (subscript payload "header") as [header|e]; cbn [Py.bind]; [|reflexivity].
  destruct (subscript header "channel_header") as [ch|e]; cbn [Py.bind]; reflexivity.
Qed.

(** X9. [get_genesis_block] removes stale copies of its two temporary files
    before it does anything else, so what it returns or raises and the
    files it leaves do not depend on the files that lay there before the
    call; afterwards the decoded JSON file never exists, and the block file
    exists exactly when [peer] started, the fetch wrote the file, and the
    decode tool is missing or cannot be started (the call then raises
    [OSError]). *)
Theorem X9_temporary_files (launch : Launch) (tools : Tools) (fs : FileSystem) :
  get_genesis_block_launch json_load strftime_local int_of_str str_of b64decode
    launch tools fs
  = get_genesis_block_launch json_load strftime_local int_of_str str_of b64decode
      launch tools no_files
  /\
  let after :=
    snd (get_genesis_block_launch json_load strftime_local int_of_str str_of b64decode
           launch tools fs) in
  json_file after = None /\
  (block_file after <> None <->
   peer_starts launch = true /\ fetch_output tools <> None /\
   (configtxlator_exists tools = false \/ configtxlator_starts launch = false)) /\
  (configtxlator_exists tools = true -> block_file after <> None ->
   fst (get_genesis_block_launch json_load strftime_local int_of_str str_of b64decode
          launch tools fs) = Raise OSError).
Proof.
  split.
  - unfold get_genesis_block_launch. destruct fs as [b j]. reflexivity.
  - destruct (get_genesis_block_launch_files json_load strftime_local int_of_str str_of
                b64decode launch tools fs) as (Hj & Hb).
    cbv zeta. split; [exact Hj|]. rewrite Hb. split.
    + destruct (peer_starts launch); [|intuition congruence].
      destruct (fetch_output tools) as [block|]; [|intuition congruence].
      destruct (configtxlator_exists tools), (configtxlator_starts launch);
        cbn [andb]; intuition congruence.
    + intros He Hblock. apply get_genesis_block_launch_raises.
      split; [reflexivity|]. right.
      destruct (peer_starts launch); [|congruence].
      destruct (fetch_output tools) as [block|]; [|congruence].
      rewrite He in Hblock. cbn [andb] in Hblock.
      destruct (configtxlator_starts launch); [congruence|].
      repeat split; congruence.
Qed.

(** X10. The extraction of the timestamp handles [KeyError], [IndexError]
    and [ValueError] itself: none of them leaves it, and the timestamp is
    then the text Unknown Format; any other exception of the walk through
    the decoded block leaves it unchanged.  A timestamp that is an object is
    formatted from its [seconds], zero when the key is absent; any other
    value is printed as text, cut before the first dot, its [T]s replaced by
    spaces. *)
Theorem X10_timestamp_extraction_errors (block_data : json) :
  (forall e, extract_timestamp strftime_local int_of_str str_of block_data = Raise e ->
             handled e = false) /\
  match channel_timestamp block_data with
  | Raise e =>
      extract_timestamp strftime_local int_of_str str_of block_data
      = if handled e then Ok "Unknown Format" else Raise e
  | Ok (JObj members) =>
      extract_timestamp strftime_local int_of_str str_of block_data
      = try_except
          (seconds <- py_int int_of_str (get (lookup "seconds" members) (JNum 0)) ;;
           strftime_local seconds)
          handled (fun _ => Ok "Unknown Format")
  | Ok ts_raw =>
      extract_timestamp strftime_local int_of_str str_of block_data
      = Ok (split_head "." (replace_char "T" " " (py_str str_of ts_raw)))
  end.
Proof.
  rewrite extract_timestamp_chain. split.
  - intros e. unfold try_except.
    destruct (Py.bind _ _) as [t|e']; [discriminate|].
    destruct (handled e') eqn:He; [discriminate|]. now intros [= <-].
  - destruct (channel_timestamp block_data) as [ts_raw|e]; cbn [Py.bind].
    + destruct ts_raw; reflexivity.
    + unfold try_except. now destruct (handled e).
Qed.

(** X11. A timestamp that the genesis block carries as a text is shown cut
    before its first dot and with every [T] replaced by a space: the text
    shown contains neither character and is no longer than the original,
    and it is the timestamp of the anchor that [get_genesis_block] returns
    when both tools work and the block and its header are objects. *)
Theorem X11_text_timestamp_is_normalised (block_data : json) (s : string) :
  channel_timestamp block_data = Ok (JStr s) ->
  let shown := split_head "." (replace_char "T" " " s) in
  extract_timestamp strftime_local int_of_str str_of block_data = Ok shown /\
  occurs "T" shown = false /\
  occurs "." shown = false /\
  String.length shown <= String.length s /\
  forall tools fs block stdout stderr text,
    fetch_output tools = Some block ->
    configtxlator_exists tools = true ->
    decode_run tools = Completed stdout stderr ->
    decode_output tools = Some text ->
    json_load text = Ok block_data ->
    header_is_dict block_data = true ->
    anchor_timestamp
      (fst (get_genesis_block json_load strftime_local int_of_str str_of b64decode tools fs))
    = shown.
Proof.
  intros Hts shown.
  assert (Ht : extract_timestamp strftime_local int_of_str str_of block_data = Ok shown).
  { rewrite extract_timestamp_chain, Hts. reflexivity. }
  split; [exact Ht|]. split; [|split; [|split]].
  - apply occurs_split_head. now apply occurs_replace_char.
  - apply occurs_split_head_sep.
  - unfold shown. rewrite <- (length_replace_char "T" " " s). apply length_split_head.
  - intros tools fs block stdout stderr text Hf Hc Hr Ho Hl Hd.
    rewrite get_genesis_block_anchor, Hf, Hc, Hr, Ho, Hl.
    unfold extract. rewrite Ht. cbn [Py.bind].
    unfold header_is_dict in Hd. destruct block_data as [ | | | | |members]; try discriminate.
    unfold extract_hash. cbn [dict_get Py.bind].
    destruct (get (lookup "header" members) (JObj [])) as [ | | | | |h]; try discriminate.
    cbn [dict_get Py.bind].
    destruct (get (lookup "data_hash" h) (JStr "")) as [ | | |d| | ]; try reflexivity.
    now destruct (b64decode d).
Qed.

(** X12. The hexadecimal text of a byte string has two characters for each
    byte, all of them among [0-9a-f], and determines the byte string. *)
Theorem X12_hexlify_is_faithful (bytes : string) :
  String.length (hexlify bytes) = 2 * String.length bytes /\
  all_chars is_hex_digit (hexlify bytes) = true /\
  forall bytes', hexlify bytes = hexlify bytes' -> bytes = bytes'.
Proof.
  split; [|split].
  - induction bytes as [|c rest IH]; [reflexivity|].
    cbn [hexlify String.length]. rewrite IH. lia.
  - induction bytes as [|c rest IH]; [reflexivity|].
    cbn [hexlify all_chars]. rewrite IH.
    pose proof (N_ascii_bounded c) as B.
    rewrite !hex_digit_is_hex; [reflexivity|apply N.mod_lt; lia|].
    apply N.Div0.div_lt_upper_bound. lia.
  - induction bytes as [|c rest IH]; intros [|c' rest']; cbn [hexlify];
      intros E; try discriminate; [reflexivity|].
    injection E as Hq Hr Hrest.
    rewrite (hex_pair_inj c c' Hq Hr), (IH rest' Hrest). reflexivity.
Qed.

(** X13. The extraction of the data hash raises only when the decoded block
    or its header is not an object, and then [AttributeError]; otherwise it
    returns: the hexadecimal text of the decoded bytes, or, when the value
    of [data_hash] is not a text or cannot be decoded, that value itself. *)
Theorem X13_hash_extraction (block_data : json) :
  (forall e, extract_hash b64decode block_data = Raise e -> e = AttributeError) /\
  ((exists v, extract_hash b64decode block_data = Ok v) <->
   header_is_dict block_data = true) /\
  (forall members h,
     block_data = JObj members ->
     get (lookup "header" members) (JObj []) = JObj h ->
     extract_hash b64decode block_data
     = Ok match get (lookup "data_hash" h) (JStr "") with
          | JStr text =>
              match b64decode text with
              | Ok decoded => JStr (hexlify decoded)
              | Raise _ => JStr text
              end
          | other => other
          end).
Proof.
  assert (Hok : forall members h,
            get (lookup "header" members) (JObj []) = JObj h ->
            extract_hash b64decode (JObj members)
            = Ok match get (lookup "data_hash" h) (JStr "") with
                 | JStr text =>
                     match b64decode text with
                     | Ok decoded => JStr (hexlify decoded)
                     | Raise _ => JStr text
                     end
                 | other => other
                 end).
  { intros members h Hh. unfold extract_hash. cbn [dict_get Py.bind]. rewrite Hh.
    cbn [dict_get Py.bind].
    destruct (get (lookup "data_hash" h) (JStr "")) as [ | | |d| | ]; try reflexivity.
    now destruct (b64decode d). }
  assert (Hbad : header_is_dict block_data = false ->
                 extract_hash b64decode block_data = Raise AttributeError).
  { unfold header_is_dict, extract_hash.
    destruct block_data as [ | | | | |members]; try reflexivity.
    cbn [dict_get Py.bind].
    destruct (get (lookup "header" members) (JObj [])); try reflexivity; discriminate. }
  assert (Hgood : header_is_dict block_data = true ->
                  exists v, extract_hash b64decode block_data = Ok v).
  { unfold header_is_dict.
    destruct block_data as [ | | | | |members]; try discriminate.
    destruct (get (lookup "header" members) (JObj [])) as [ | | | | |h] eqn:Hh;
      try discriminate.
    intros _. rewrite (Hok members h Hh). eauto. }
  split; [|split].
  - intros e E. destruct (header_is_dict block_data) eqn:Hd.
    + destruct (Hgood eq_refl) as (v & Hv). congruence.
    + rewrite (Hbad eq_refl) in E. congruence.
  - split; [|exact Hgood].
    intros (v & Hv). destruct (header_is_dict block_data); [reflexivity|].
    rewrite (Hbad eq_refl) in Hv. discriminate.
  - intros members h -> Hh. exact (Hok members h Hh).
Qed.

End AnchorProperties.

(* ===================================================================== *)
(** * Further properties: the fetch layer and the wrapper queries *)
(* ===================================================================== *)

Lemma prefix_spec (needle hay : string) :
  String.prefix needle hay = true <-> exists rest, hay = (needle ++ rest)%string.
Proof.
  revert hay. induction needle as [|c needle IH]; intros hay.
  - destruct hay; simpl; (split; [intros _; eexists; reflexivity|reflexivity]).
  - destruct hay as [|c' hay]; simpl.
    + split; [discriminate|intros (rest & H); discriminate].
    + destruct (ascii_dec c c') as [->|Hc].
      * rewrite IH. split; intros (rest & H); exists rest; congruence.
      * split; [discriminate|intros (rest & H); congruence].
Qed.

Lemma contains_spec (needle hay : string) :
  contains needle hay = true
  <-> exists before after, hay = (before ++ needle ++ after)%string.
Proof.
  induction hay as [|c hay IH].
  - cbn [contains]. destruct (String.prefix needle "") eqn:Ep.
    + split; [intros _|reflexivity].
      apply prefix_spec in Ep as (rest & H). now exists EmptyString, rest.
    + split; [discriminate|]. intros (before & after & H).
      destruct before; [|discriminate]. simpl in H.
      assert (String.prefix needle "" = true) by (apply prefix_spec; eauto).
      congruence.
  - cbn [contains]. destruct (String.prefix needle (String c hay)) eqn:Ep.
    + split; [intros _|reflexivity].
      apply prefix_spec in Ep as (rest & H). now exists EmptyString, rest.
    + rewrite IH. split.
      * intros (before & after & H). exists (String c before), after. simpl. congruence.
      * intros (before & after & H). destruct before as [|c' before].
        -- simpl in H.
           assert (String.prefix needle (String c hay) = true)
             by (apply prefix_spec; eauto).
           congruence.
        -- simpl in H. injection H as _ H. eauto.
Qed.

(** X14. The three answers of [query_chaincode] tell the runs of a command
    that started apart as follows.  The answer is [None] exactly when the
    command failed, or printed nothing, or printed the JSON text [null]
    (the three cannot be told apart); it is the raw text exactly when the
    stdout is not empty and is not JSON; it is the decoded value exactly
    when the stdout is not empty and decodes to it. *)
Theorem X14_query_answers (V : Type) (is_null : V -> bool)
    (json_loads : string -> option V) (run : Process) :
  (is_none is_null (query_chaincode json_loads run) = true <->
   (exists stderr message, run = CalledProcessError stderr message) \/
   (exists stderr, run = Completed EmptyString stderr) \/
   (exists stdout stderr v, run = Completed stdout stderr /\ stdout <> EmptyString /\
                            json_loads stdout = Some v /\ is_null v = true)) /\
  (forall s, query_chaincode json_loads run = Text s <->
             exists stderr, run = Completed s stderr /\ s <> EmptyString /\
                            json_loads s = None) /\
  (forall v, query_chaincode json_loads run = Value v <->
             exists stdout stderr, run = Completed stdout stderr /\
                                   stdout <> EmptyString /\ json_loads stdout = Some v).
Proof.
  unfold query_chaincode, _run_peer_command.
  destruct run as [stdout stderr|stderr message].
  - destruct stdout as [|c stdout]; cbn [truthy andb success data_of].
    + split; [|split].
      * split; [eauto|reflexivity].
      * intros s. split; [discriminate|]. intros (e & H & Hs & _). congruence.
      * intros v. split; [discriminate|]. intros (o & e & H & Hs & _). congruence.
    + destruct (json_loads (String c stdout)) as [v|] eqn:El; cbn [success data_of is_none].
      * split; [|split].
        -- split.
           ++ intros Hn. right. right. exists (String c stdout), stderr, v.
              repeat split; congruence.
           ++ intros [(e & m & H)|[(e & H)|(o & e & v' & H & _ & Hl & Hn)]];
                try discriminate.
              injection H as <- _. congruence.
        -- intros s. split; [discriminate|]. intros (e & H & _ & Hn).
           injection H as <- _. congruence.
        -- intros v'. split.
           ++ intros [= <-]. exists (String c stdout), stderr. repeat split; congruence.
           ++ intros (o & e & H & _ & Hl). injection H as <- _. congruence.
      * split; [|split].
        -- split; [discriminate|].
           intros [(e & m & H)|[(e & H)|(o & e & v' & H & _ & Hl & _)]];
             try discriminate.
           injection H as <- _. congruence.
        -- intros s. split.
           ++ intros [= <-]. exists stderr. repeat split; congruence.
           ++ intros (e & H & _). now injection H as <- _.
        -- intros v. split; [discriminate|]. intros (o & e & H & _ & Hl).
           injection H as <- _. congruence.
  - assert (E : forall s,
              success (if contains "access denied" (str_or stderr message)
                       then @Failure V s
                       else Failure (str_or stderr message)) = false)
      by (intros s; now destruct (contains _ _)).
    rewrite E. split; [|split].
    + split; [eauto|reflexivity].
    + intros s. split; [discriminate|]. intros (e & H & _). discriminate.
    + intros v. split; [discriminate|]. intros (o & e & H & _). discriminate.
Qed.

(** X15. The fetch layers of the two clients return the same result for
    every run of a command, except for a failure whose message (the stderr,
    or the text of the exception when the stderr is empty) has the substring
    [access denied], in these lower-case letters: for it the remote client
    returns the fixed permission message and the wrapper the message as it
    is. *)
Theorem X15_fetch_layers_agree (V : Type) (json_loads : string -> option V)
    (run : Process) (parse_json : bool) :
  (_run_peer_command json_loads run parse_json
   = wrapper_run_peer_command json_loads run parse_json
   \/
   exists stderr message before after,
     run = CalledProcessError stderr message /\
     str_or stderr message = (before ++ "access denied" ++ after)%string /\
     _run_peer_command json_loads run parse_json
     = Failure "ACCESS DENIED: User does not have permission." /\
     wrapper_run_peer_command json_loads run parse_json
     = Failure (str_or stderr message)) /\
  (forall stderr message before after,
     run = CalledProcessError stderr message ->
     str_or stderr message = (before ++ "access denied" ++ after)%string ->
     _run_peer_command json_loads run parse_json
     = Failure "ACCESS DENIED: User does not have permission.") /\
  success (_run_peer_command json_loads run parse_json)
  = success (wrapper_run_peer_command json_loads run parse_json).
Proof.
  destruct run as [stdout stderr|stderr message];
    cbn [_run_peer_command wrapper_run_peer_command].
  - split; [now left|]. split; [discriminate|reflexivity].
  - destruct (contains "access denied" (str_or stderr message)) eqn:Ec.
    + split; [|split; reflexivity].
      right. apply contains_spec in Ec as (before & after & H).
      exists stderr, message, before, after. auto.
    + split; [now left|]. split; [|reflexivity].
      intros stderr' message' before after [= <- <-] H.
      assert (contains "access denied" (str_or stderr message) = true)
        by (apply contains_spec; eauto).
      congruence.
Qed.

Section WrapperProperties.

Variable V : Type.
Variable loads_item : string -> option V.
Variable loads_list : string -> option (list V).

Lemma wrapper_success (W : Type) (loads : string -> option W) (run : Process) :
  success (wrapper_run_peer_command loads run true) = true ->
  exists stdout stderr,
    run = Completed stdout stderr /\
    wrapper_run_peer_command loads run true
    = match stdout with
      | EmptyString => Output stdout stderr
      | _ => match loads stdout with
             | Some v => Parsed v
             | None => RawData stdout
             end
      end.
Proof.
  destruct run as [stdout stderr|stderr message]; [|discriminate].
  intros _. exists stdout, stderr. split; [reflexivity|]. now destruct stdout.
Qed.

(** X16. The three queries of the wrapper client read [result["data"]] by
    subscript: each of them raises [KeyError] exactly when the command
    succeeds and prints nothing, the run for which [query_chaincode] of the
    other client, which reads the key with [get], answers [None]. *)
Theorem X16_wrapper_queries_raise_on_empty_stdout (run : Process) :
  (read_evidence loads_item run = Raise KeyError
   <-> exists stderr, run = Completed EmptyString stderr) /\
  (get_all_evidence loads_list run = Raise KeyError
   <-> exists stderr, run = Completed EmptyString stderr) /\
  (get_evidence_history loads_list run = Raise KeyError
   <-> exists stderr, run = Completed EmptyString stderr) /\
  (forall stderr,
     run = Completed EmptyString stderr ->
     success (wrapper_run_peer_command loads_item run true) = true /\
     query_chaincode loads_item run = NoAnswer).
Proof.
  assert (Hsome : forall c stdout stderr,
            read_evidence loads_item (Completed (String c stdout) stderr) <> Raise KeyError /\
            get_all_evidence loads_list (Completed (String c stdout) stderr)
            <> Raise KeyError /\
            get_evidence_history loads_list (Completed (String c stdout) stderr)
            <> Raise KeyError).
  { intros c stdout stderr.
    unfold read_evidence, get_all_evidence, get_evidence_history.
    cbn [wrapper_run_peer_command truthy andb].
    destruct (loads_item (String c stdout)), (loads_list (String c stdout));
      cbn; repeat split; discriminate. }
  destruct run as [stdout stderr|stderr message].
  - destruct stdout as [|c stdout].
    + repeat split; eauto.
    + destruct (Hsome c stdout stderr) as (H1 & H2 & H3).
      split; [|split; [|split]];
        try (split; [intros H; contradiction|intros (e & H); discriminate]).
      intros e H. discriminate.
  - split; [|split; [|split]];
      try (split; [discriminate|intros (e & H); discriminate]).
    intros e H. discriminate.
Qed.

(** X17. [get_evidence_history] of the wrapper never returns the raw text:
    what it returns is the decoded history, or the empty list, which also
    stands for a failed command and for a stdout that is not JSON.
    [read_evidence] and [get_all_evidence] return that raw text as their
    value; for a failed command they return [None] and the empty list. *)
Theorem X17_wrapper_query_answers (run : Process) :
  (forall history,
     get_evidence_history loads_list run = Ok history ->
     history = [] \/
     exists stdout stderr, run = Completed stdout stderr /\ stdout <> EmptyString /\
                           loads_list stdout = Some history) /\
  (forall stdout stderr,
     run = Completed stdout stderr -> stdout <> EmptyString ->
     (loads_list stdout = None ->
      get_evidence_history loads_list run = Ok [] /\
      get_all_evidence loads_list run = Ok (Text stdout)) /\
     (loads_item stdout = None -> read_evidence loads_item run = Ok (Text stdout)) /\
     (forall l, loads_list stdout = Some l ->
                get_evidence_history loads_list run = Ok l /\
                get_all_evidence loads_list run = Ok (Value l)) /\
     (forall v, loads_item stdout = Some v -> read_evidence loads_item run = Ok (Value v))) /\
  (forall stderr message,
     run = CalledProcessError stderr message ->
     get_evidence_history loads_list run = Ok [] /\
     get_all_evidence loads_list run = Ok (Value []) /\
     read_evidence loads_item run = Ok NoAnswer).
Proof.
  split; [|split].
  - intros history. destruct run as [stdout stderr|stderr message].
    + destruct stdout as [|c stdout]; [discriminate|].
      unfold get_evidence_history. cbn [wrapper_run_peer_command truthy andb].
      destruct (loads_list (String c stdout)) as [l|] eqn:El; cbn.
      * intros [= <-]. right. exists (String c stdout), stderr.
        repeat split; congruence.
      * intros [= <-]. now left.
    + intros [= <-]. now left.
  - intros stdout stderr -> Hne. destruct stdout as [|c stdout]; [congruence|].
    unfold get_evidence_history, get_all_evidence, read_evidence.
    cbn [wrapper_run_peer_command truthy andb].
    split; [|split; [|split]].
    + intros ->. split; reflexivity.
    + intros ->. reflexivity.
    + intros l ->. split; [reflexivity|]. now destruct l.
    + intros v ->. reflexivity.
  - intros stderr message ->. repeat split.
Qed.

End WrapperProperties.

(* ===================================================================== *)
(** * Further properties: the directories and the numbered menus *)
(* ===================================================================== *)

Lemma insort_perm (x : string) (l : list string) : Permutation (x :: l) (insort x l).
Proof.
  induction l as [|y l IH]; simpl; [reflexivity|].
  destruct (String.ltb y x); [|reflexivity].
  rewrite perm_swap. now constructor.
Qed.

Lemma py_sorted_perm (l : list string) : Permutation l (py_sorted l).
Proof.
  induction l as [|x l IH]; simpl; [reflexivity|].
  rewrite <- insort_perm. now constructor.
Qed.

Lemma insort_sorted (x : string) (l : list string) :
  StronglySorted (fun a b => String.ltb b a = false) l ->
  StronglySorted (fun a b => String.ltb b a = false) (insort x l).
Proof.
  induction 1 as [|y l Hs IH Hy]; simpl; [repeat constructor|].
  destruct (String.ltb y x) eqn:E.
  - constructor; [exact IH|].
    apply (Forall_perm _ _ _ (insort_perm x l)). constructor; [|exact Hy].
    now apply string_ltb_asym.
  - constructor; [now constructor|]. constructor; [exact E|].
    rewrite Forall_forall in *. intros z Hz.
    exact (string_ltb_false_trans _ _ _ E (Hy z Hz)).
Qed.

Lemma py_sorted_sorted (l : list string) :
  StronglySorted (fun a b => String.ltb b a = false) (py_sorted l).
Proof.
  induction l as [|x l IH]; simpl; [constructor|]. now apply insort_sorted.
Qed.

(** X18. The users offered for an organisation are the names of the
    directories of its [users] directory, each cut before its first [@], in
    lexical order, every directory counted once; files are left out, and a
    missing [users] directory gives no user. *)
Theorem X18_users_are_listed_in_order (users_path : Listing) :
  let users := get_available_users users_path in
  StronglySorted (fun a b => String.ltb b a = false) users /\
  Forall (fun user => occurs "@" user = false) users /\
  match users_path with
  | None => users = []
  | Some items =>
      Permutation
        (map (fun item => split_head "@" (fst item)) (filter (fun item => snd item) items))
        users
  end.
Proof.
  destruct users_path as [items|]; cbn [get_available_users]; cbv zeta.
  - split; [apply py_sorted_sorted|]. split; [|apply py_sorted_perm].
    apply (Forall_perm _ _ _ (py_sorted_perm _)).
    apply Forall_forall. intros user Hu. apply in_map_iff in Hu as (item & <- & _).
    apply occurs_split_head_sep.
  - repeat constructor.
Qed.

Lemma table_find_dict_set (k v : string) (d : list (string * string)) (name : string) :
  table_find (dict_set k v d) name
  = if String.eqb name k then Some v else table_find d name.
Proof.
  induction d as [|[k' v'] d IH]; simpl; [reflexivity|].
  destruct (String.eqb_spec k k') as [<-|Hk]; simpl.
  - now destruct (String.eqb name k).
  - rewrite IH. destruct (String.eqb_spec name k') as [->|Hn]; [|reflexivity].
    destruct (String.eqb_spec k' k); congruence.
Qed.

Lemma keys_dict_set (k v : string) (d : list (string * string)) (name : string) :
  In name (map fst (dict_set k v d)) <-> name = k \/ In name (map fst d).
Proof.
  induction d as [|[k' v'] d IH]; simpl; [intuition congruence|].
  destruct (String.eqb_spec k k') as [<-|Hk]; simpl.
  - intuition congruence.
  - rewrite IH. intuition congruence.
Qed.

Lemma NoDup_dict_set (k v : string) (d : list (string * string)) :
  NoDup (map fst d) -> NoDup (map fst (dict_set k v d)).
Proof.
  induction d as [|[k' v'] d IH]; simpl; intros H.
  - repeat constructor. simpl. tauto.
  - inversion H as [|? ? Hn Hd]; subst.
    destruct (String.eqb_spec k k') as [<-|Hk]; simpl.
    + now constructor.
    + constructor; [|now apply IH].
      rewrite keys_dict_set. intuition congruence.
Qed.

Lemma find_app {A : Type} (p : A -> bool) (l l' : list A) :
  find p (l ++ l') = match find p l with
                     | Some x => Some x
                     | None => find p l'
                     end.
Proof.
  induction l as [|x l IH]; simpl; [reflexivity|]. now destruct (p x).
Qed.

Lemma In_table_find (d : list (string * string)) (k v : string) :
  NoDup (map fst d) -> In (k, v) d -> table_find d k = Some v.
Proof.
  induction d as [|[k' v'] d IH]; simpl; [tauto|].
  intros H. inversion H as [|? ? Hn Hd]; subst.
  intros [E|Hin].
  - injection E as -> ->. now rewrite String.eqb_refl.
  - destruct (String.eqb_spec k k') as [->|_]; [|now apply IH].
    destruct Hn. apply in_map_iff. now exists (k', v).
Qed.

Lemma table_find_In {W : Type} (d : list (string * W)) (k : string) (v : W) :
  table_find d k = Some v -> In (k, v) d.
Proof.
  induction d as [|[k' v'] d IH]; simpl; [discriminate|].
  destruct (String.eqb_spec k k') as [->|_]; [|auto].
  intros [= ->]. now left.
Qed.

Section Directories.

Variable items : list (string * bool).

Lemma orgs_lookup (rest : list (string * bool)) (found_orgs : list (string * string))
    (name : string) :
  table_find
    (fold_left
       (fun found_orgs item =>
          if snd item : bool
          then dict_set (split_head "." (fst item)) (fst item) found_orgs
          else found_orgs)
       rest found_orgs)
    name
  = match find (fun item => snd item && String.eqb (split_head "." (fst item)) name)
               (rev rest) with
    | Some item => Some (fst item)
    | None => table_find found_orgs name
    end.
Proof.
  revert found_orgs. induction rest as [|item rest IH]; intros found_orgs; simpl.
  - reflexivity.
  - rewrite IH, find_app.
    destruct (find _ (rev rest)) as [hit|]; [reflexivity|]. simpl.
    destruct (snd item); simpl; [|reflexivity].
    rewrite table_find_dict_set, String.eqb_sym.
    now destruct (String.eqb (split_head "." (fst item)) name).
Qed.

Lemma orgs_keys_unique (rest : list (string * bool)) (found_orgs : list (string * string)) :
  NoDup (map fst found_orgs) ->
  NoDup (map fst
           (fold_left
              (fun found_orgs item =>
                 if snd item : bool
                 then dict_set (split_head "." (fst item)) (fst item) found_orgs
                 else found_orgs)
              rest found_orgs)).
Proof.
  revert found_orgs. induction rest as [|item rest IH]; intros found_orgs H; simpl.
  - exact H.
  - apply IH. destruct (snd item); [now apply NoDup_dict_set|exact H].
Qed.

Lemma orgs_entry (name domain : string) :
  In (name, domain) (get_available_orgs (Some items)) ->
  In (domain, true) items /\ split_head "." domain = name.
Proof.
  intros Hin.
  apply In_table_find in Hin; [|apply orgs_keys_unique; constructor].
  unfold get_available_orgs in Hin. rewrite orgs_lookup in Hin.
  destruct (find _ (rev items)) as [[item dir]|] eqn:Ef; [|discriminate].
  injection Hin as <-.
  apply find_some in Ef as (Hi & Hp). cbn [fst snd] in Hp.
  apply andb_prop in Hp as (-> & Hs). apply String.eqb_eq in Hs.
  split; [now apply in_rev|exact Hs].
Qed.

(** X19. The organisations offered are a dict from short names to directory
    names: no short name is listed twice; the directory found under a short
    name is the last one, in the order of the listing, among the
    directories whose name cut before its first dot is that short name;
    every entry is such a directory, and every directory has its short name
    among the keys.  Files are left out. *)
Theorem X19_org_directories :
  let orgs := get_available_orgs (Some items) in
  NoDup (map fst orgs) /\
  (forall name,
     table_find orgs name
     = option_map fst
         (find (fun item => snd item && String.eqb (split_head "." (fst item)) name)
               (rev items))) /\
  (forall name domain,
     In (name, domain) orgs -> In (domain, true) items /\ split_head "." domain = name) /\
  (forall domain, In (domain, true) items -> In (split_head "." domain) (map fst orgs)) /\
  get_available_orgs None = [].
Proof.
  cbv zeta.
  assert (Hl : forall name,
            table_find (get_available_orgs (Some items)) name
            = option_map fst
                (find (fun item => snd item && String.eqb (split_head "." (fst item)) name)
                      (rev items))).
  { intros name. unfold get_available_orgs. rewrite orgs_lookup.
    now destruct (find _ (rev items)). }
  split; [apply orgs_keys_unique; constructor|].
  split; [exact Hl|]. split; [exact orgs_entry|]. split; [|reflexivity].
  intros domain Hin.
  destruct (table_find (get_available_orgs (Some items)) (split_head "." domain))
    as [v|] eqn:Et.
  - apply table_find_In in Et. apply in_map_iff. now exists (split_head "." domain, v).
  - rewrite Hl in Et.
    destruct (find _ (rev items)) as [hit|] eqn:Ef; [discriminate|].
    pose proof (find_none _ _ Ef (domain, true) (proj1 (in_rev _ _) Hin)) as Hp.
    cbn [fst snd andb] in Hp. rewrite String.eqb_refl in Hp. discriminate.
Qed.

End Directories.

Section Menus.

Variable int_of_str : string -> option Z.

Lemma choose_some {A : Type} (menu : list A) (line : string) (x : A) :
  choose int_of_str menu line = Ok (Some x) ->
  exists n, int_of_str (strip line) = Some n /\
            (1 <= n <= Z.of_nat (List.length menu))%Z /\
            nth_error menu (Z.to_nat (n - 1)) = Some x.
Proof.
  unfold choose. destruct (int_of_str (strip line)) as [n|]; [|discriminate].
  destruct (Z.leb_spec 0 (n - 1)); cbn [andb]; [|discriminate].
  destruct (Z.ltb_spec (n - 1) (Z.of_nat (List.length menu))); [|discriminate].
  destruct (nth_error menu (Z.to_nat (n - 1))) as [y|] eqn:En; [|discriminate].
  intros [= <-]. exists n. repeat split; auto; lia.
Qed.

Lemma choose_never_raises {A : Type} (menu : list A) (line : string) (e : exn) :
  choose int_of_str menu line <> Raise e.
Proof.
  unfold choose. destruct (int_of_str (strip line)) as [n|]; [|discriminate].
  destruct (Z.leb_spec 0 (n - 1)); cbn [andb]; [|discriminate].
  destruct (Z.ltb_spec (n - 1) (Z.of_nat (List.length menu))); [|discriminate].
  destruct (nth_error menu (Z.to_nat (n - 1))) as [y|] eqn:En; [discriminate|].
  apply nth_error_None in En. lia.
Qed.

(** X20. A turn of a numbered menu never raises: the number typed, spaces
    around it removed, selects an entry exactly when it is between 1 and
    the number of entries, and then the entry at that place counted from 1;
    for zero, a negative number, a number beyond the list or a text that is
    not a number, the menu prompts again.  In particular zero does not
    select the last entry. *)
Theorem X20_menu_number (A : Type) (menu : list A) (line : string) :
  (forall e, choose int_of_str menu line <> Raise e) /\
  (forall x,
     choose int_of_str menu line = Ok (Some x) <->
     exists n, int_of_str (strip line) = Some n /\
               (1 <= n <= Z.of_nat (List.length menu))%Z /\
               nth_error menu (Z.to_nat (n - 1)) = Some x) /\
  (choose int_of_str menu line = Ok None <->
   match int_of_str (strip line) with
   | Some n => (n < 1 \/ Z.of_nat (List.length menu) < n)%Z
   | None => True
   end).
Proof.
  split; [intros e; apply choose_never_raises|]. split.
  - intros x. split; [apply choose_some|].
    intros (n & Hn & Hr & Hx). unfold choose. rewrite Hn.
    destruct (Z.leb_spec 0 (n - 1)); [|lia]. cbn [andb].
    destruct (Z.ltb_spec (n - 1) (Z.of_nat (List.length menu))); [|lia].
    now rewrite Hx.
  - unfold choose. destruct (int_of_str (strip line)) as [n|]; [|tauto].
    destruct (Z.leb_spec 0 (n - 1)); cbn [andb]; [|split; [lia|reflexivity]].
    destruct (Z.ltb_spec (n - 1) (Z.of_nat (List.length menu)));
      [|split; [lia|reflexivity]].
    destruct (nth_error menu (Z.to_nat (n - 1))) as [y|] eqn:En.
    + split; [discriminate|lia].
    + apply nth_error_None in En. lia.
Qed.

(** X21. Choosing the organisation never raises: the name chosen is a key
    of the dict of organisations, so looking up its directory cannot fail,
    and the directory obtained is a directory of the listing whose name cut
    before its first dot is the name chosen. *)
Theorem X21_selected_org_has_a_directory (orgs_path : Listing) (line : string) :
  (forall e, select_org int_of_str orgs_path line <> Raise e) /\
  (forall name domain,
     select_org int_of_str orgs_path line = Ok (Some (name, domain)) ->
     exists items n,
       orgs_path = Some items /\
       In (domain, true) items /\
       split_head "." domain = name /\
       int_of_str (strip line) = Some n /\
       nth_error (map fst (get_available_orgs orgs_path)) (Z.to_nat (n - 1)) = Some name).
Proof.
  unfold select_org. cbv zeta.
  destruct (choose int_of_str (map fst (get_available_orgs orgs_path)) line)
    as [[name|]|e] eqn:Ec; cbn [Py.bind].
  - destruct (choose_some _ _ _ Ec) as (n & Hn & _ & Hx).
    assert (Hin : In name (map fst (get_available_orgs orgs_path)))
      by (eapply nth_error_In; exact Hx).
    apply in_map_iff in Hin as ([name' domain] & Hname & Hin). cbn [fst] in Hname. subst name'.
    destruct orgs_path as [items|]; [|destruct Hin].
    rewrite (In_table_find (get_available_orgs (Some items)) _ _
               (orgs_keys_unique items [] (NoDup_nil _)) Hin).
    split; [discriminate|].
    intros name' domain' [= <- <-].
    destruct (orgs_entry _ _ _ Hin) as (Hd & Hs).
    exists items, n. auto.
  - split; discriminate.
  - now destruct (choose_never_raises _ _ _ Ec).
Qed.

End Menus.

(* ===================================================================== *)
(** * Further properties: the lines typed at the prompts *)
(* ===================================================================== *)

Lemma length_lstrip (s : string) : String.length (lstrip s) <= String.length s.
Proof.
  induction s as [|c s IH]; simpl; [lia|]. destruct (is_space c); simpl; lia.
Qed.

Lemma lstrip_fixed_head (c : ascii) (s : string) :
  lstrip (String c s) = String c s -> is_space c = false.
Proof.
  simpl. destruct (is_space c); [|reflexivity].
  intros H. pose proof (length_lstrip s) as L. rewrite H in L. simpl in L. lia.
Qed.

Lemma lstrip_idem (s : string) : lstrip (lstrip s) = lstrip s.
Proof.
  induction s as [|c s IH]; simpl; [reflexivity|].
  destruct (is_space c) eqn:E; [exact IH|]. simpl. now rewrite E.
Qed.

Lemma rstrip_cons (c : ascii) (s : string) :
  rstrip s <> EmptyString -> rstrip (String c s) = String c (rstrip s).
Proof. simpl. destruct (rstrip s); [congruence|reflexivity]. Qed.

Lemma rstrip_idem (s : string) : rstrip (rstrip s) = rstrip s.
Proof.
  induction s as [|c s IH]; [reflexivity|].
  destruct (rstrip s) as [|d r] eqn:Er.
  - simpl. rewrite Er. destruct (is_space c) eqn:E; [reflexivity|].
    simpl. now rewrite E.
  - rewrite (rstrip_cons c s) by congruence. rewrite Er.
    rewrite rstrip_cons by (rewrite IH; discriminate). now rewrite IH.
Qed.

Lemma lstrip_rstrip (s : string) : lstrip s = s -> lstrip (rstrip s) = rstrip s.
Proof.
  destruct s as [|c s]; [reflexivity|].
  intros H. apply lstrip_fixed_head in H.
  simpl rstrip. destruct (rstrip s); rewrite ?H; simpl; now rewrite H.
Qed.

Lemma strip_idem (s : string) : strip (strip s) = strip s.
Proof.
  unfold strip. rewrite (lstrip_rstrip (lstrip s) (lstrip_idem s)). apply rstrip_idem.
Qed.

Lemma strip_fixed (t : string) : strip t = t -> lstrip t = t /\ rstrip t = t.
Proof.
  intros H.
  assert (H1 : lstrip (strip t) = strip t)
    by (unfold strip; apply lstrip_rstrip, lstrip_idem).
  assert (H2 : rstrip (strip t) = strip t) by (unfold strip; apply rstrip_idem).
  rewrite H in H1, H2. auto.
Qed.

Lemma occurs_lstrip (c : ascii) (s : string) :
  occurs c s = false -> occurs c (lstrip s) = false.
Proof.
  induction s as [|c' s IH]; simpl; [reflexivity|].
  intros H. apply orb_false_elim in H as (H1 & H2).
  destruct (is_space c'); [auto|]. simpl. now rewrite H1, H2.
Qed.

Lemma occurs_rstrip (c : ascii) (s : string) :
  occurs c s = false -> occurs c (rstrip s) = false.
Proof.
  induction s as [|c' s IH]; [reflexivity|].
  cbn [occurs]. intros H. apply orb_false_elim in H as (H1 & H2).
  specialize (IH H2). simpl rstrip.
  destruct (rstrip s) as [|d r].
  - destruct (is_space c'); simpl; [reflexivity|]. now rewrite H1.
  - cbn [occurs] in *. now rewrite H1, IH.
Qed.

Lemma occurs_strip (c : ascii) (s : string) :
  occurs c s = false -> occurs c (strip s) = false.
Proof. intros H. unfold strip. now apply occurs_rstrip, occurs_lstrip. Qed.

Lemma str_split_pieces (sep : ascii) (s : string) :
  Forall (fun w => occurs sep w = false) (str_split sep s).
Proof.
  induction s as [|c s IH]; simpl; [repeat constructor|].
  destruct (Ascii.eqb c sep) eqn:E; [now constructor|].
  destruct (str_split sep s) as [|w ws].
  - repeat constructor. simpl. now rewrite E.
  - inversion IH; subst. constructor; [|assumption]. simpl. now rewrite E.
Qed.

Lemma str_split_single (sep : ascii) (a : string) :
  occurs sep a = false -> str_split sep a = [a].
Proof.
  induction a as [|c a IH]; simpl; [reflexivity|].
  intros H. apply orb_false_elim in H as (H1 & H2).
  now rewrite H1, (IH H2).
Qed.

Lemma str_split_app (sep : ascii) (a b : string) :
  occurs sep a = false ->
  str_split sep (a ++ String sep b) = a :: str_split sep b.
Proof.
  induction a as [|c a IH]; simpl.
  - intros _. now rewrite Ascii.eqb_refl.
  - intros H. apply orb_false_elim in H as (H1 & H2).
    now rewrite H1, (IH H2).
Qed.

Lemma lstrip_app (a b : string) :
  a <> EmptyString -> lstrip a = a -> lstrip (a ++ b) = (a ++ b)%string.
Proof.
  destruct a as [|c a]; [congruence|].
  intros _ H. apply lstrip_fixed_head in H. simpl. now rewrite H.
Qed.

Lemma rstrip_app (a b : string) :
  b <> EmptyString -> rstrip b = b -> rstrip (a ++ b) = (a ++ b)%string.
Proof.
  intros Hb Hr. induction a as [|c a IH]; [exact Hr|].
  cbn [append]. rewrite rstrip_cons; rewrite IH; [reflexivity|].
  destruct a; simpl; [exact Hb|discriminate].
Qed.

Lemma join_cons (x y : string) (l : list string) :
  join "," (x :: y :: l) = (x ++ String "," (join "," (y :: l)))%string.
Proof. reflexivity. Qed.

Lemma join_clean (tags : list string) :
  Forall clean_tag tags -> tags <> [] ->
  let typed := join "," tags in
  typed <> EmptyString /\ lstrip typed = typed /\ rstrip typed = typed /\
  str_split "," typed = tags.
Proof.
  induction 1 as [|x l (Hne & Hs & Hc) Hl IH]; [congruence|].
  intros _. destruct (strip_fixed x Hs) as (Hlx & Hrx).
  destruct l as [|y l].
  - cbn [join]. cbv zeta. repeat split; auto. now apply str_split_single.
  - destruct IH as (Jne & _ & Jr & Js); [discriminate|].
    cbv zeta. rewrite join_cons.
    assert (Hr : rstrip (String "," (join "," (y :: l))) = String "," (join "," (y :: l))).
    { rewrite rstrip_cons; rewrite Jr; [reflexivity|exact Jne]. }
    repeat split.
    + destruct x; [congruence|discriminate].
    + now apply lstrip_app.
    + apply rstrip_app; [discriminate|exact Hr].
    + rewrite str_split_app by exact Hc. now rewrite Js.
Qed.

Lemma clean_tags_kept (tags : list string) :
  Forall clean_tag tags ->
  map strip (filter (fun t => truthy (strip t)) tags) = tags.
Proof.
  induction 1 as [|t ts (Hne & Hst & _) _ IH]; [reflexivity|].
  cbn [filter]. rewrite Hst.
  destruct t; [congruence|]. cbn [truthy map]. now rewrite Hst, IH.
Qed.

Lemma lower_char_y (c : ascii) :
  lower_char c = "y"%char <-> c = "y"%char \/ c = "Y"%char.
Proof.
  destruct c as [[] [] [] [] [] [] [] []]; vm_compute;
    (split; [intros H; try discriminate; auto|intros [H|H]; try discriminate; auto]).
Qed.

Lemma lower_y (s : string) : lower s = "y" <-> s = "y" \/ s = "Y".
Proof.
  destruct s as [|c [|c' s]]; cbn [lower].
  - split; [discriminate|intros [H|H]; discriminate].
  - split.
    + intros [= H]. apply lower_char_y in H as [->| ->]; auto.
    + intros [[= ->]|[= ->]]; reflexivity.
  - split; [discriminate|intros [H|H]; discriminate].
Qed.

(** X22. The tags sent with a new evidence item are clean: none is empty,
    none has a space at either end, none contains a comma; a line of spaces
    only gives no tag at all. *)
Theorem X22_tags_are_clean (line : string) :
  Forall clean_tag (tags_of line) /\
  (strip line = EmptyString <-> tags_of line = [] /\ occurs "," (strip line) = false).
Proof.
  split.
  - unfold tags_of. cbv zeta. apply Forall_map, Forall_forall.
    intros t Ht. apply filter_In in Ht as (Hin & Htruthy).
    pose proof (str_split_pieces "," (strip line)) as Hp.
    rewrite Forall_forall in Hp. specialize (Hp t Hin).
    repeat split.
    + intros E. rewrite E in Htruthy. discriminate.
    + apply strip_idem.
    + now apply occurs_strip.
  - unfold tags_of. cbv zeta. split.
    + intros ->. split; reflexivity.
    + intros (Ht & Hc). rewrite (str_split_single _ _ Hc) in Ht.
      cbn [filter] in Ht. rewrite strip_idem in Ht.
      destruct (strip line); [reflexivity|discriminate].
Qed.

(** X23. Typing clean tags separated by commas gives exactly these tags,
    in their order. *)
Theorem X23_tags_round_trip (tags : list string) :
  Forall clean_tag tags -> tags_of (join "," tags) = tags.
Proof.
  intros H. destruct tags as [|x l]; [reflexivity|].
  destruct (join_clean (x :: l) H) as (_ & Hl & Hr & Hs); [discriminate|].
  assert (Hstrip : strip (join "," (x :: l)) = join "," (x :: l))
    by (unfold strip; now rewrite Hl, Hr).
  unfold tags_of. cbv zeta. rewrite Hstrip, Hs. now apply clean_tags_kept.
Qed.

(** X24. [delete_evidence] invokes the chaincode only on confirmation: the
    answer must be exactly [y] or [Y], with no space around it; then
    [DeleteEvidence] is invoked once, for the identifier typed with the
    spaces around it removed, and one line reports the result; on any other
    answer nothing is invoked and nothing is printed. *)
Theorem X24_delete_needs_confirmation (submit : string -> list string -> Process)
    (id_line confirm_line : string) :
  let outcome := delete_evidence submit id_line confirm_line in
  ((confirm_line = "y" \/ confirm_line = "Y") /\
   invoked outcome = [("DeleteEvidence", [strip id_line])] /\
   printed outcome
   = [match submit "DeleteEvidence" [strip id_line] with
      | Completed _ _ => "Deleted."
      | CalledProcessError stderr message =>
          ("Failed: " ++
           (if contains "access denied" (str_or stderr message)
            then "ACCESS DENIED: User does not have permission."
            else str_or stderr message))%string
      end])
  \/
  (confirm_line <> "y" /\ confirm_line <> "Y" /\
   invoked outcome = [] /\ printed outcome = []).
Proof.
  unfold delete_evidence. cbv zeta.
  destruct (String.eqb_spec (lower confirm_line) "y") as [E|E].
  - left. split; [now apply lower_y|]. split; [reflexivity|].
    cbn [printed]. unfold invoke_transaction.
    destruct (submit "DeleteEvidence" [strip id_line]) as [stdout stderr|stderr message];
      cbn [_run_peer_command andb success]; [reflexivity|].
    now destruct (contains "access denied" (str_or stderr message)).
  - right. repeat split; intros H; apply E, lower_y; auto.
Qed.

(* ===================================================================== *)
(** * Further properties: an id list that is not JSON *)
(* ===================================================================== *)

Lemma length_chars (s : string) : List.length (chars s) = String.length s.
Proof. induction s as [|c s IH]; simpl; [reflexivity|now rewrite IH]. Qed.

Section RawIds.

Variable loads_ids : string -> option (list string).
Variable loads_history : string -> option (list HistoryEntry).
Variable gateway : string -> list string -> Process.
Variable json_load : string -> result json.
Variable strftime_local : Z -> result string.
Variable int_of_str : string -> result Z.
Variable str_of : json -> string.
Variable b64decode : string -> result string.
Variable tools : Tools.

(** X25. When the id query succeeds with a stdout that is not JSON, the
    ledger view takes the raw text for the list of ids: every character of
    it is looked up as an asset id, and the number of assets reported is the
    length of the text.  The view is the one of a gateway that answers with
    the list of these characters. *)
Theorem X25_raw_id_list_is_read_by_character (fs : FileSystem) (stdout stderr : string) :
  gateway "GetAllEvidenceIDs" [] = Completed stdout stderr ->
  stdout <> EmptyString ->
  loads_ids stdout = None ->
  query_chaincode loads_ids (gateway "GetAllEvidenceIDs" []) = Text stdout /\
  view_blockchain_ledger loads_ids loads_history gateway json_load strftime_local
    int_of_str str_of b64decode tools fs
  = view_blockchain_ledger (fun _ => Some (chars stdout)) loads_history gateway json_load
      strftime_local int_of_str str_of b64decode tools fs.
Proof.
  intros Hrun Hne Hload.
  assert (H1 : query_chaincode loads_ids (gateway "GetAllEvidenceIDs" []) = Text stdout).
  { unfold query_chaincode, _run_peer_command. rewrite Hrun.
    destruct stdout; [congruence|]. cbn [truthy andb]. now rewrite Hload. }
  assert (H2 : query_chaincode (fun _ : string => Some (chars stdout))
                 (gateway "GetAllEvidenceIDs" []) = Value (chars stdout)).
  { unfold query_chaincode, _run_peer_command. rewrite Hrun.
    destruct stdout; [congruence|]. reflexivity. }
  split; [exact H1|].
  unfold view_blockchain_ledger. cbv zeta. rewrite H1, H2.
  cbn [ids_of answer_len]. rewrite length_chars.
  destruct stdout as [|c rest]; [congruence|]. reflexivity.
Qed.

End RawIds.

(* ===================================================================== *)
(** * Further properties: the statements on concrete runs *)
(* ===================================================================== *)

Lemma X1_witness :
  render scenario_strftime "00" display_txs = Ok display_blocks /\
  Forall (fun b =>
            String.length (printed_tx_id b) <= 52 /\
            String.length (printed_prev_hash b) <= 52 /\
            String.length (printed_asset_id b) <= 52 /\
            forall d, b_details b = Some d ->
                      String.length (d_description d) <= 50 /\
                      String.length (d_location d) <= 50) display_blocks /\
  (forall s, String.length s <= 50 -> shorten s = s) /\
  (forall s, 50 < String.length s ->
             shorten s = (slice_to 47 s ++ "...")%string /\ String.length (shorten s) = 50).
Proof.
  split; [reflexivity|].
  apply (X1_printed_texts_are_bounded scenario_strftime "00" display_txs display_blocks).
  reflexivity.
Defined.

Lemma X2_witness :
  render scenario_strftime "00" display_txs = Ok display_blocks /\
  List.length display_blocks = List.length display_txs /\
  Forall (fun b => b_details b = None <-> b_action b = DELETED) display_blocks.
Proof.
  split; [reflexivity|].
  apply (X2_details_absent_iff_deleted scenario_strftime "00" display_txs display_blocks).
  reflexivity.
Defined.

Lemma X3_witness :
  get_history scenario_strftime (Value display_history)
  = Ok (History display_history_blocks 2) /\
  2 = List.length display_history /\
  List.length display_history_blocks = List.length display_history /\
  Forall (fun b => h_details b = None <-> h_action b = DELETED) display_history_blocks /\
  Forall (fun b => forall d, h_details b = Some d ->
                     String.length (d_description d) <= 50 /\
                     String.length (d_location d) <= 50 /\
                     forall t, d_tags d = Some t -> String.length t <= 50)
         display_history_blocks.
Proof.
  split; [reflexivity|].
  apply (X3_history_view_blocks scenario_strftime display_history display_history_blocks 2).
  reflexivity.
Defined.

Lemma X4_witness :
  exists per_asset,
    mapM (history_txs scenario_histories scenario_gateway)
      (ids_of (query_chaincode scenario_ids (scenario_gateway "GetAllEvidenceIDs" [])))
    = Ok per_asset /\
    Permutation (map (fun tx => (asset_id tx, tx_id_of tx)) (List.concat per_asset))
                (map (fun b => (b_asset_id b, b_tx_id b)) scenario_blocks) /\
    3 = List.length scenario_blocks /\
    3 = List.length scenario_blocks /\
    2 = answer_len (query_chaincode scenario_ids (scenario_gateway "GetAllEvidenceIDs" [])) /\
    no_files = snd (get_genesis_block scenario_load scenario_strftime scenario_int
                      str_unused scenario_b64decode working_tools no_files).
Proof.
  refine (X4_ledger_shows_every_collected_record scenario_ids scenario_histories
            scenario_gateway scenario_load scenario_strftime scenario_int str_unused
            scenario_b64decode working_tools no_files no_files 3 2 3 scenario_box
            scenario_blocks _).
  vm_compute. reflexivity.
Defined.

Lemma X5_witness :
  view_blockchain_ledger mixed_ids mixed_histories mixed_gateway scenario_load
    scenario_strftime scenario_int str_unused scenario_b64decode working_tools no_files
  = (Raise TypeError, no_files).
Proof.
  refine (X5_mixed_timestamp_kinds_raise mixed_ids mixed_histories mixed_gateway
            scenario_load scenario_strftime scenario_int str_unused scenario_b64decode
            working_tools no_files mixed_txs mixed_keys
            (annotated "A" [a_created] 0 a_created) (annotated "b" [tie_b1] 0 tie_b1)
            (Some 10%Z) (Some 0%Z) _ _ _ _ _ _ _).
  - reflexivity.
  - reflexivity.
  - vm_compute. reflexivity.
  - left. reflexivity.
  - right. left. reflexivity.
  - reflexivity.
  - intros s n. discriminate.
Defined.

Lemma X6_witness :
  view_blockchain_ledger scenario_ids scenario_histories raw_gateway scenario_load
    scenario_strftime scenario_int str_unused scenario_b64decode working_tools no_files
  = (Raise TypeError, no_files).
Proof.
  refine (X6_raw_history_aborts_the_view scenario_ids scenario_histories raw_gateway
            scenario_load scenario_strftime scenario_int str_unused scenario_b64decode
            working_tools no_files "A" "peer: history unavailable" "" _ _ _ _ _ _).
  - reflexivity.
  - left. reflexivity.
  - discriminate.
  - reflexivity.
  - discriminate.
  - reflexivity.
Defined.

Lemma X7_witness :
  view_blockchain_ledger scenario_ids scenario_histories idle_gateway scenario_load
    scenario_strftime scenario_int str_unused scenario_b64decode working_tools no_files
  = (Ok NoTransactions, no_files).
Proof.
  refine (X7_no_record_no_genesis_resolution scenario_ids scenario_histories idle_gateway
            scenario_load scenario_strftime scenario_int str_unused scenario_b64decode
            working_tools no_files _ _).
  - reflexivity.
  - constructor; [|constructor; [|constructor]].
    + right. left. exists "Error: endorsement failure", "exit status 1". reflexivity.
    + right. right. right. exists "empty", "". split; reflexivity.
Defined.

Lemma X11_witness :
  channel_timestamp genesis_document = Ok (JStr "2024-05-01T10:00:00.123Z") /\
  extract_timestamp scenario_strftime scenario_int str_unused genesis_document
  = Ok "2024-05-01 10:00:00" /\
  occurs "T" "2024-05-01 10:00:00" = false /\
  occurs "." "2024-05-01 10:00:00" = false /\
  String.length "2024-05-01 10:00:00" <= String.length "2024-05-01T10:00:00.123Z" /\
  forall tools fs block stdout stderr text,
    fetch_output tools = Some block ->
    configtxlator_exists tools = true ->
    decode_run tools = Completed stdout stderr ->
    decode_output tools = Some text ->
    scenario_load text = Ok genesis_document ->
    header_is_dict genesis_document = true ->
    anchor_timestamp
      (fst (get_genesis_block scenario_load scenario_strftime scenario_int str_unused
              scenario_b64decode tools fs))
    = "2024-05-01 10:00:00".
Proof.
  split; [reflexivity|].
  refine (X11_text_timestamp_is_normalised scenario_load scenario_strftime scenario_int
            str_unused scenario_b64decode genesis_document "2024-05-01T10:00:00.123Z" _).
  reflexivity.
Defined.

Lemma X23_witness :
  Forall clean_tag ["sealed"; "blood sample"] /\
  tags_of (join "," ["sealed"; "blood sample"]) = ["sealed"; "blood sample"].
Proof.
  assert (H : Forall clean_tag ["sealed"; "blood sample"]).
  { repeat constructor; discriminate. }
  split; [exact H|]. exact (X23_tags_round_trip ["sealed"; "blood sample"] H).
Defined.

Lemma X25_witness :
  query_chaincode no_ids (letters_gateway "GetAllEvidenceIDs" []) = Text "AB" /\
  view_blockchain_ledger no_ids scenario_histories letters_gateway scenario_load
    scenario_strftime scenario_int str_unused scenario_b64decode working_tools no_files
  = view_blockchain_ledger (fun _ => Some (chars "AB")) scenario_histories letters_gateway
      scenario_load scenario_strftime scenario_int str_unused scenario_b64decode
      working_tools no_files.
Proof.
  refine (X25_raw_id_list_is_read_by_character no_ids scenario_histories letters_gateway
            scenario_load scenario_strftime scenario_int str_unused scenario_b64decode
            working_tools no_files "AB" "" _ _ _).
  - reflexivity.
  - discriminate.
  - reflexivity.
Defined.

